(** * repomix-mcp: the request pipeline of the MCP server, embedded and verified

    The development follows [src/index.ts].  The server is a single class,
    [RepomixMCPServer], with one private predicate ([isPathAllowed]) and two
    request handlers (tool listing and tool call).  Everything the handlers
    do to the outside world (realpath, randomBytes, tmpdir, exec, stat,
    readFile, rm) is an effect of a small free monad [Prog]; a handler is a
    finite tree of such effects, and [run] interprets it against an arbitrary
    operating system, recording the trace of calls and answers.

    Layout: definitions first (JavaScript strings and numbers, Node's
    [path] functions, the shell's word splitting, the effect monad, the
    schema, the server, a simulated operating system), then the theorems. *)

From Stdlib Require Import String Ascii List ZArith NArith Lia Bool.
From Stdlib Require Import DecimalString.
From stdpp Require Import base option gmap strings.
Import ListNotations.

Local Open Scope string_scope.
Local Open Scope list_scope.

(* ===================================================================== *)
(** ** JavaScript strings *)
(* ===================================================================== *)

Module JS.

(** The line feed written [\n] in the source's template literals. *)
Definition nl : string := String (ascii_of_nat 10) EmptyString.

(** [s.startsWith(p)] *)
Fixpoint startsWith (s p : string) {struct p} : bool :=
  match p with
  | EmptyString => true
  | String c p' =>
      match s with
      | EmptyString => false
      | String d s' => if Ascii.eqb c d then startsWith s' p' else false
      end
  end.

(** [s.includes(t)]: [t] occurs in [s] at some offset. *)
Fixpoint includes (s t : string) : bool :=
  startsWith s t ||
  match s with
  | EmptyString => false
  | String _ s' => includes s' t
  end.

(** [parts.join(sep)] *)
Fixpoint join (sep : string) (parts : list string) : string :=
  match parts with
  | [] => EmptyString
  | [p] => p
  | p :: rest => p +:+ sep +:+ join sep rest
  end.

(** [s.split(sep)] for a one-character separator: never the empty list. *)
Fixpoint split (sep : ascii) (s : string) : list string :=
  match s with
  | EmptyString => [EmptyString]
  | String c r =>
      if Ascii.eqb c sep then EmptyString :: split sep r
      else match split sep r with
           | [] => [String c EmptyString]
           | h :: t => String c h :: t
           end
  end.

(** Truthiness of an optional string: [undefined] and [''] are falsy. *)
Definition truthy (v : option string) : bool :=
  match v with
  | Some s => negb (String.eqb s EmptyString)
  | None => false
  end.

(** Truthiness of an optional boolean: [undefined] and [false] are falsy. *)
Definition truthy_bool (v : option bool) : bool :=
  match v with
  | Some b => b
  | None => false
  end.

(** Does the character occur in the string? *)
Fixpoint has_char (c : ascii) (s : string) : bool :=
  match s with
  | EmptyString => false
  | String d r => Ascii.eqb c d || has_char c r
  end.

(** [buffer.toString('utf-8')], which [readFile(path, 'utf-8')] applies to
    the bytes of the file.  Strings are held here by their UTF-8 bytes, so
    decoding keeps every well-formed sequence as it stands and puts U+FFFD
    (the bytes EF BF BD) in the place of every maximal ill-formed run, as
    the decoder of the Encoding standard does. *)
Definition replacement : string :=
  String (ascii_of_nat 239) (String (ascii_of_nat 191) (String (ascii_of_nat 189) EmptyString)).

(** What a byte starts: a character of its own, a sequence that needs
    [more] bytes, the first of them between [lower] and [upper], or
    nothing. *)
Inductive Utf8Lead :=
| Utf8Single
| Utf8Need (more : nat) (lower upper : N)
| Utf8Invalid.

Definition utf8Lead (b : N) : Utf8Lead :=
  if (b <=? 127)%N then Utf8Single
  else if (194 <=? b)%N && (b <=? 223)%N then Utf8Need 1 128 191
  else if (b =? 224)%N then Utf8Need 2 160 191
  else if (b =? 237)%N then Utf8Need 2 128 159
  else if (225 <=? b)%N && (b <=? 239)%N then Utf8Need 2 128 191
  else if (b =? 240)%N then Utf8Need 3 144 191
  else if (b =? 244)%N then Utf8Need 3 128 143
  else if (241 <=? b)%N && (b <=? 243)%N then Utf8Need 3 128 191
  else Utf8Invalid.

(** [pending] holds the bytes of the sequence under way, [needed] the
    number of bytes it still lacks, [lower] and [upper] the bounds of the
    next one. *)
Fixpoint utf8Scan (pending : string) (needed : nat) (lower upper : N) (bytes : string)
  : string :=
  match bytes with
  | EmptyString =>
      match needed with
      | O => EmptyString
      | S _ => replacement
      end
  | String c rest =>
      let b := N_of_ascii c in
      let fresh :=
        match utf8Lead b with
        | Utf8Single => String c (utf8Scan EmptyString 0 128 191 rest)
        | Utf8Need more lo up => utf8Scan (String c EmptyString) more lo up rest
        | Utf8Invalid => replacement +:+ utf8Scan EmptyString 0 128 191 rest
        end in
      match needed with
      | O => fresh
      | S more =>
          if (lower <=? b)%N && (b <=? upper)%N then
            match more with
            | O => pending +:+ String c (utf8Scan EmptyString 0 128 191 rest)
            | S _ => utf8Scan (pending +:+ String c EmptyString) more 128 191 rest
            end
          else replacement +:+ fresh
      end
  end.

Definition utf8Decode (bytes : string) : string := utf8Scan EmptyString 0 128 191 bytes.

(** Seven-bit text: every byte below 128. *)
Fixpoint isAscii (s : string) : bool :=
  match s with
  | EmptyString => true
  | String c r => (N_of_ascii c <? 128)%N && isAscii r
  end.

End JS.

(* ===================================================================== *)
(** ** JavaScript numbers, as far as the estimate needs them

    [stats.size] is a non-negative integer.  The source divides it by 1024,
    by 1024 * 1024 and by 4: divisions by a power of two, which binary64
    performs without rounding for every size below 2^53, so the quotients
    are the exact rationals [n / d] and are carried here as the pair of
    their numerator and denominator. *)
(* ===================================================================== *)

Module Num.

(** Decimal digits of a natural number, as [String(n)] prints them. *)
Definition decimal (n : N) : string := NilZero.string_of_uint (N.to_uint n).

(** Two decimal digits, zero padded, of a number below 100. *)
Definition two_digits (n : N) : string :=
  (if (n <? 10)%N then "0" else "") +:+ decimal n.

(** The number of hundredths nearest to [n / d]; of two equally near, the
    larger (Number.prototype.toFixed, step "pick the larger n"). *)
Definition hundredths (n d : N) : N := ((200 * n + d) / (2 * d))%N.

(** [(n / d).toFixed(2)] *)
Definition toFixed2 (n d : N) : string :=
  let h := hundredths n d in
  decimal (h / 100)%N +:+ "." +:+ two_digits (h mod 100)%N.

(** [Math.ceil(n / 4)] *)
Definition ceil_div4 (n : N) : N := ((n + 3) / 4)%N.

(** [n.toLocaleString()], called with no argument as the source calls it,
    renders an integer the way the default locale of the process writes
    numbers: the source leaves the choice to the runtime.  The locale is
    therefore a parameter of the handler, given by the rendering it
    produces. *)
Definition Locale : Type := N -> string.

(** Digit grouping by threes, counted from the right, with the separator
    [sep] before every full group.  [rev_digits] is the digit list
    reversed, [k] the number of digits already put in the current group. *)
Fixpoint group3 (sep : ascii) (rev_digits : list ascii) (k : nat) : list ascii :=
  match rev_digits with
  | [] => []
  | d :: rest =>
      if Nat.eqb k 3 then sep :: d :: group3 sep rest 1
      else d :: group3 sep rest (S k)
  end.

(** The rendering of a locale that writes Western digits in groups of
    three. *)
Definition grouped (sep : ascii) : Locale :=
  fun n =>
    let digits := list_ascii_of_string (decimal n) in
    string_of_list_ascii (rev (group3 sep (rev digits) 0)).

(** Two such locales: [en-US] separates the groups with a comma, [de-DE]
    with a full stop. *)
Definition enUS : Locale := grouped ","%char.

Definition deDE : Locale := grouped "."%char.

Definition isDigit (c : ascii) : bool :=
  (48 <=? nat_of_ascii c)%nat && (nat_of_ascii c <=? 57)%nat.

(** The digits of a grouped number: the separators taken out. *)
Fixpoint ungroup (sep : ascii) (s : string) : string :=
  match s with
  | EmptyString => EmptyString
  | String c r => if Ascii.eqb c sep then ungroup sep r else String c (ungroup sep r)
  end.

End Num.
(* ===================================================================== *)
(** ** Node's [path] module (POSIX flavour)

    The source imports [resolve], [relative] and [join] from Node's [path].
    They are library code; the definitions below follow the library's
    documented behaviour on POSIX paths, segment by segment.  [cwd] stands
    for [process.cwd()], which the server never changes. *)
(* ===================================================================== *)

Module Path.

Definition slash : ascii := "/"%char.

Definition isAbsolute (p : string) : bool := JS.startsWith p "/".

(** Last character test, for the trailing separator of [normalize]. *)
Fixpoint endsWithSlash (p : string) : bool :=
  match p with
  | EmptyString => false
  | String c EmptyString => Ascii.eqb c slash
  | String _ r => endsWithSlash r
  end.

(** One segment of [normalizeString].  [acc] holds the segments kept so
    far, the last one first.  Empty segments and [.] vanish; [..] removes
    the segment before it, or is kept when nothing can be removed and
    the path is relative ([allowAboveRoot]). *)
Definition norm_step (allowAboveRoot : bool) (acc : list string) (seg : string)
  : list string :=
  if String.eqb seg "" || String.eqb seg "." then acc
  else if String.eqb seg ".." then
    match acc with
    | top :: rest =>
        if String.eqb top ".." then (if allowAboveRoot then ".." :: acc else acc)
        else rest
    | [] => if allowAboveRoot then [".."] else []
    end
  else seg :: acc.

Definition normalizeSegments (p : string) (allowAboveRoot : bool) : list string :=
  rev (fold_left (norm_step allowAboveRoot) (JS.split slash p) []).

Definition normalizeString (p : string) (allowAboveRoot : bool) : string :=
  JS.join "/" (normalizeSegments p allowAboveRoot).

(** [path.normalize(p)] *)
Definition normalize (p : string) : string :=
  if String.eqb p "" then "."
  else
    let isAbs := isAbsolute p in
    let trailing := endsWithSlash p in
    let q := normalizeString p (negb isAbs) in
    if String.eqb q "" then
      (if isAbs then "/" else if trailing then "./" else ".")
    else
      let q' := if trailing then q +:+ "/" else q in
      if isAbs then "/" +:+ q' else q'.

(** [path.join(a, b)]: the non-empty arguments joined by a slash, then
    normalized. *)
Definition join (a b : string) : string :=
  match String.eqb a "", String.eqb b "" with
  | true, true => "."
  | true, false => normalize b
  | false, true => normalize a
  | false, false => normalize (a +:+ "/" +:+ b)
  end.

(** The string [path.resolve(p)] assembles before normalizing it, and
    whether it is absolute: the argument (when it is not empty) followed
    by a slash, prefixed with the working directory unless the argument
    is absolute already. *)
Definition resolveRaw (cwd p : string) : string * bool :=
  let tail := if String.eqb p "" then "" else p +:+ "/" in
  if isAbsolute p then (tail, true)
  else (cwd +:+ "/" +:+ tail, isAbsolute cwd).

(** [path.resolve(p)] *)
Definition resolve (cwd p : string) : string :=
  let '(raw, resolvedAbsolute) := resolveRaw cwd p in
  let q := normalizeString raw (negb resolvedAbsolute) in
  if resolvedAbsolute then "/" +:+ q
  else if String.eqb q "" then "." else q.

(** The segments of a resolved path. *)
Definition segments (p : string) : list string :=
  List.filter (fun seg => negb (String.eqb seg "")) (JS.split slash p).

(** Drops the leading segments two paths share. *)
Fixpoint dropCommon (f t : list string) : list string * list string :=
  match f, t with
  | x :: f', y :: t' => if String.eqb x y then dropCommon f' t' else (f, t)
  | _, _ => (f, t)
  end.

(** [path.relative(from, to)]: both paths are resolved; the segments they
    share from the root are dropped; the result climbs one [..] for each
    remaining segment of [from] and then descends the remaining segments
    of [to]. *)
Definition relative (cwd from to : string) : string :=
  if String.eqb from to then ""
  else
    let from' := resolve cwd from in
    let to' := resolve cwd to in
    if String.eqb from' to' then ""
    else
      let '(f, t) := dropCommon (segments from') (segments to') in
      JS.join "/" (map (fun _ => "..") f ++ t).

(** The first segment of a relative path. *)
Definition firstSegment (p : string) : string := hd "" (JS.split slash p).

(** The absolute path whose segments are [segs]. *)
Definition ofSegments (segs : list string) : string := "/" +:+ JS.join "/" segs.

(** A file or directory name: not empty, no slash, neither [.] nor [..]. *)
Definition isName (seg : string) : bool :=
  negb (String.eqb seg "") && negb (JS.has_char slash seg)
  && negb (String.eqb seg ".") && negb (String.eqb seg "..").

(** Containment by segments: [p] lies strictly inside [boundary] when the
    segments of [boundary] are a proper prefix of those of [p]. *)
Fixpoint strictlyInside (boundary p : list string) : bool :=
  match boundary, p with
  | [], _ :: _ => true
  | b :: boundary', x :: p' => String.eqb b x && strictlyInside boundary' p'
  | _, [] => false
  end.

End Path.

(* ===================================================================== *)
(** ** The shell's word splitting

    [child_process.exec(command)] hands the command to [/bin/sh -c], which
    splits it into the words the tool receives as its arguments.  The
    fragment of the POSIX rules modelled here: blanks separate words; double
    quotes and single quotes group; a backslash quotes the next character
    (inside double quotes only before a double quote, a backslash, a dollar
    or a backquote).  Expansions and operators ([$], backquote, [;], [|],
    [&], globbing) are not modelled: those characters are read as ordinary
    word characters, and the theorems that rely on a word surviving the
    shell exclude them from it.  An unterminated quote is a syntax error. *)
(* ===================================================================== *)

Module Shell.

Inductive Quoting := Bare | Double | Single | EscBare | EscDouble.

Definition isBlank (c : ascii) : bool :=
  Ascii.eqb c " "%char || Ascii.eqb c (ascii_of_nat 9) || Ascii.eqb c (ascii_of_nat 10).

Definition dquote : ascii := ascii_of_nat 34.
Definition squote : ascii := ascii_of_nat 39.
Definition backslash : ascii := ascii_of_nat 92.
Definition dollar : ascii := ascii_of_nat 36.
Definition backquote : ascii := ascii_of_nat 96.
Definition nul : ascii := ascii_of_nat 0.

Definition snoc (w : string) (c : ascii) : string := w +:+ String c EmptyString.

(** [scan q inword cur s]: the words of [s], read in quoting state [q],
    [cur] being the word under construction when [inword] holds. *)
Fixpoint scan (q : Quoting) (inword : bool) (cur : string) (s : string)
  : option (list string) :=
  match s with
  | EmptyString =>
      match q with
      | Bare => Some (if inword then [cur] else [])
      | _ => None
      end
  | String c r =>
      match q with
      | Bare =>
          if isBlank c then
            option_map (fun ws => if inword then cur :: ws else ws)
                       (scan Bare false EmptyString r)
          else if Ascii.eqb c dquote then scan Double true cur r
          else if Ascii.eqb c squote then scan Single true cur r
          else if Ascii.eqb c backslash then scan EscBare true cur r
          else scan Bare true (snoc cur c) r
      | EscBare => scan Bare true (snoc cur c) r
      | Double =>
          if Ascii.eqb c dquote then scan Bare true cur r
          else if Ascii.eqb c backslash then scan EscDouble true cur r
          else scan Double true (snoc cur c) r
      | EscDouble =>
          if Ascii.eqb c dquote || Ascii.eqb c backslash
             || Ascii.eqb c dollar || Ascii.eqb c backquote
          then scan Double true (snoc cur c) r
          else scan Double true (snoc (snoc cur backslash) c) r
      | Single =>
          if Ascii.eqb c squote then scan Bare true cur r
          else scan Single true (snoc cur c) r
      end
  end.

(** The argument vector [sh -c command] runs. *)
Definition words (command : string) : option (list string) :=
  scan Bare false EmptyString command.

(** What [exec(command)] hands to the program it starts: [exec] refuses a
    command that holds a NUL before any shell runs; every other command
    goes to [sh -c]. *)
Definition delivered (command : string) : option (list string) :=
  if JS.has_char nul command then None else words command.

(** A value that stands for itself between double quotes: none of the four
    characters that keep their special meaning there, and no NUL, which no
    command may hold. *)
Definition plainInDoubleQuotes (v : string) : bool :=
  negb (JS.has_char dquote v) && negb (JS.has_char backslash v)
  && negb (JS.has_char dollar v) && negb (JS.has_char backquote v)
  && negb (JS.has_char nul v).

End Shell.
(* ===================================================================== *)
(** ** Exceptions, effects and programs *)
(* ===================================================================== *)

(** What a JavaScript [throw] or a rejected promise carries.  The source
    reads only the [message] of what it catches. *)
Inductive Exn :=
| Error (message : string)          (* [new Error(message)] of the source *)
| ZodError (issues : list string)   (* thrown by [schema.parse]: the offending fields *)
| SystemError (message : string).   (* a rejection of an [fs] or [child_process] promise *)

Definition message (e : Exn) : string :=
  match e with
  | Error m => m
  | ZodError issues => JS.join ", " issues
  | SystemError m => m
  end.

(** The outcome of an awaited promise: fulfilled or rejected. *)
Definition Result (A : Type) : Type := A + Exn.
Abbreviation Ok a := (inl a) (only parsing).
Abbreviation Err e := (inr e) (only parsing).

(** How the shell command of [exec] ended: it exited with a status and the
    two captured streams, or the call failed otherwise (the child could not
    be spawned, a stream overflowed its buffer). *)
Inductive ExecOutcome :=
| Exited (code : Z) (stdout stderr : string)
| ExecFailed (message : string).

(** The calls the handlers make into the runtime, indexed by the type of
    their answer. *)
Inductive Eff : Type -> Type :=
| Realpath (p : string) : Eff (Result string)
| RandomBytes (n : nat) : Eff (list Byte.byte)
| Tmpdir : Eff string
| Exec (command : string) : Eff ExecOutcome
| Stat (p : string) : Eff (Result N)
| ReadFile (p : string) : Eff (Result string)
| Rm (p : string) (force : bool) : Eff (Result unit).

(** A call together with its answer, as the trace records it. *)
Inductive Event :=
| EvRealpath (p : string) (r : Result string)
| EvRandomBytes (n : nat) (r : list Byte.byte)
| EvTmpdir (r : string)
| EvExec (command : string) (r : ExecOutcome)
| EvStat (p : string) (r : Result N)
| EvReadFile (p : string) (r : Result string)
| EvRm (p : string) (force : bool) (r : Result unit).

Definition event_of {X : Type} (e : Eff X) : X -> Event :=
  match e in Eff X return X -> Event with
  | Realpath p => EvRealpath p
  | RandomBytes n => EvRandomBytes n
  | Tmpdir => EvTmpdir
  | Exec c => EvExec c
  | Stat p => EvStat p
  | ReadFile p => EvReadFile p
  | Rm p f => EvRm p f
  end.

(** An [async] function body: it returns, throws, or performs a call and
    continues with the answer. *)
Inductive Prog (A : Type) : Type :=
| Ret (a : A)
| Throw (e : Exn)
| Vis {X : Type} (e : Eff X) (k : X -> Prog A).

Arguments Ret {A} a.
Arguments Throw {A} e.
Arguments Vis {A X} e k.

Fixpoint bind {A B : Type} (p : Prog A) (f : A -> Prog B) : Prog B :=
  match p with
  | Ret a => f a
  | Throw e => Throw e
  | Vis e k => Vis e (fun x => bind (k x) f)
  end.

(** [try { p } catch (error) { h error }] *)
Fixpoint try_catch {A : Type} (p : Prog A) (h : Exn -> Prog A) : Prog A :=
  match p with
  | Ret a => Ret a
  | Throw e => h e
  | Vis e k => Vis e (fun x => try_catch (k x) h)
  end.

Notation "'let*' x ':=' p 'in' q" := (bind p (fun x => q))
  (at level 10, x name, p at level 100, q at level 200).

(** [await] of a promise that fulfils with a value or rejects. *)
Definition await {A : Type} (e : Eff (Result A)) : Prog A :=
  Vis e (fun r => match r with
                  | Ok a => Ret a
                  | Err x => Throw x
                  end).

(** Lifting of a synchronous call that returns or throws. *)
Definition liftResult {A : Type} (r : Result A) : Prog A :=
  match r with
  | Ok a => Ret a
  | Err x => Throw x
  end.

(** [promisify(exec)]: the promise fulfils with the two captured streams
    when the command exits with status 0.  When it exits with another
    status, [child_process] rejects with an error whose message is
    [Command failed: ] followed by the command, a line feed and the captured
    standard error; any other failure rejects with its own message. *)
Record ExecResult := { stdout : string; stderr : string }.

Definition execSettled (command : string) (o : ExecOutcome) : Result ExecResult :=
  match o with
  | Exited code out err =>
      if Z.eqb code 0 then Ok {| stdout := out; stderr := err |}
      else Err (SystemError ("Command failed: " +:+ command +:+ JS.nl +:+ err))
  | ExecFailed m => Err (SystemError m)
  end.

Definition execAsync (command : string) : Prog ExecResult :=
  Vis (Exec command) (fun o => liftResult (execSettled command o)).

(** How a program ends. *)
Inductive Outcome (A : Type) : Type :=
| Returned (a : A)
| Thrown (e : Exn).

Arguments Returned {A} a.
Arguments Thrown {A} e.

(** Interpretation of a program against an operating system: a state
    [World] and, for every call, its answer and the next state. *)
Section Run.

Context {World : Type}.
Variable os : forall X : Type, Eff X -> World -> X * World.

Fixpoint run {A : Type} (p : Prog A) (w : World) : list Event * Outcome A * World :=
  match p with
  | Ret a => ([], Returned a, w)
  | Throw e => ([], Thrown e, w)
  | Vis e k =>
      let '(x, w1) := os _ e w in
      let '(tr, o, w2) := run (k x) w1 in
      (event_of e x :: tr, o, w2)
  end.

Definition trace_of {A : Type} (p : Prog A) (w : World) : list Event := fst (fst (run p w)).
Definition outcome_of {A : Type} (p : Prog A) (w : World) : Outcome A := snd (fst (run p w)).
Definition world_after {A : Type} (p : Prog A) (w : World) : World := snd (run p w).

End Run.

(** Classification of events. *)
Definition isRm (p : string) (ev : Event) : bool :=
  match ev with
  | EvRm q _ _ => String.eqb p q
  | _ => false
  end.

Definition isAnyRm (ev : Event) : bool :=
  match ev with
  | EvRm _ _ _ => true
  | _ => false
  end.

Definition isRealpath (ev : Event) : bool :=
  match ev with
  | EvRealpath _ _ => true
  | _ => false
  end.

Definition isExec (ev : Event) : bool :=
  match ev with
  | EvExec _ _ => true
  | _ => false
  end.

Definition isReadFile (ev : Event) : bool :=
  match ev with
  | EvReadFile _ _ => true
  | _ => false
  end.

Definition isRandomBytes (ev : Event) : bool :=
  match ev with
  | EvRandomBytes _ _ => true
  | _ => false
  end.
(* ===================================================================== *)
(** ** The argument schema *)
(* ===================================================================== *)

(** [z.enum(['xml', 'markdown', 'plain'])] *)
Inductive Style := xml | markdown | plain.

Definition Style_toString (s : Style) : string :=
  match s with
  | xml => "xml"
  | markdown => "markdown"
  | plain => "plain"
  end.

Definition Style_ofString (s : string) : option Style :=
  if String.eqb s "xml" then Some xml
  else if String.eqb s "markdown" then Some markdown
  else if String.eqb s "plain" then Some plain
  else None.

(** The value [RepomixArgsSchema.parse] returns: every field optional. *)
Record RepomixArgs := {
  path : option string;
  style : option Style;
  compress : option bool;
  include : option string;
  ignore : option string;
  remote : option string
}.

(** The JSON values a request carries.  An object is the list of its
    properties; a name is looked up at its first occurrence. *)
#[local] Set Warnings "-register-all".
Inductive Json :=
| JNull
| JBool (b : bool)
| JNumber (z : Z)
| JString (s : string)
| JArray (items : list Json)
| JObject (properties : list (string * Json)).

Fixpoint property (key : string) (properties : list (string * Json)) : option Json :=
  match properties with
  | [] => None
  | (k, v) :: rest => if String.eqb k key then Some v else property key rest
  end.

(** The field parsers: [None] is a schema issue, [Some None] an absent
    property. *)
Definition parseString (v : option Json) : option (option string) :=
  match v with
  | None => Some None
  | Some (JString s) => Some (Some s)
  | Some _ => None
  end.

Definition parseBoolean (v : option Json) : option (option bool) :=
  match v with
  | None => Some None
  | Some (JBool b) => Some (Some b)
  | Some _ => None
  end.

Definition parseStyle (v : option Json) : option (option Style) :=
  match v with
  | None => Some None
  | Some (JString s) =>
      match Style_ofString s with
      | Some st => Some (Some st)
      | None => None
      end
  | Some _ => None
  end.

Definition issue {A : Type} (field : string) (r : option A) : list string :=
  match r with
  | Some _ => []
  | None => [field]
  end.

(** [RepomixArgsSchema.parse(request.params.arguments)]: the arguments must
    be an object whose known properties have the declared types; unknown
    properties are dropped; anything else throws a [ZodError]. *)
Definition RepomixArgsSchema_parse (arguments : option Json) : Result RepomixArgs :=
  match arguments with
  | Some (JObject ps) =>
      let p := parseString (property "path" ps) in
      let s := parseStyle (property "style" ps) in
      let c := parseBoolean (property "compress" ps) in
      let i := parseString (property "include" ps) in
      let g := parseString (property "ignore" ps) in
      let r := parseString (property "remote" ps) in
      match p, s, c, i, g, r with
      | Some p', Some s', Some c', Some i', Some g', Some r' =>
          Ok {| path := p'; style := s'; compress := c';
                include := i'; ignore := g'; remote := r' |}
      | _, _, _, _, _, _ =>
          Err (ZodError (issue "path" p ++ issue "style" s ++ issue "compress" c
                         ++ issue "include" i ++ issue "ignore" g ++ issue "remote" r))
      end
  | _ => Err (ZodError ["arguments"])
  end.

(* ===================================================================== *)
(** ** The server *)
(* ===================================================================== *)

(** A property of a tool's input schema: its JSON type and, for an
    enumeration, its values. *)
Record Property := {
  propertyType : string;
  propertyEnum : option (list string)
}.

(** A tool of the listing: its name and the properties of its input
    schema, which is of type [object] (the description texts, which no
    code reads, are left out). *)
Record Tool := {
  name : string;
  inputSchema : list (string * Property)
}.

Definition stringProperty : Property :=
  {| propertyType := "string"; propertyEnum := None |}.

Definition toolProperties : list (string * Property) :=
  [("path", stringProperty);
   ("style", {| propertyType := "string";
                propertyEnum := Some ["xml"; "markdown"; "plain"] |});
   ("compress", {| propertyType := "boolean"; propertyEnum := None |});
   ("include", stringProperty);
   ("ignore", stringProperty);
   ("remote", stringProperty)].

(** The answer of the [ListToolsRequestSchema] handler. *)
Definition listTools : list Tool :=
  [ {| name := "repomix"; inputSchema := toolProperties |};
    {| name := "repomix-estimate"; inputSchema := toolProperties |} ].

(** A content block [{ type: 'text', text }] and a tool result; [isError]
    is [None] when the property is absent. *)
Record ContentBlock := { type : string; text : string }.

Record ToolResult := {
  content : list ContentBlock;
  isError : option bool
}.

Definition textBlock (t : string) : ContentBlock := {| type := "text"; text := t |}.

(** [this.allowedDirectory], set by the constructor to [process.cwd()]. *)
Record RepomixMCPServer := { allowedDirectory : string }.

Definition newRepomixMCPServer (cwd : string) : RepomixMCPServer :=
  {| allowedDirectory := cwd |}.

Definition dq : string := String Shell.dquote EmptyString.

Section Server.

Variable this : RepomixMCPServer.
(** [process.cwd()] at the time of the request. *)
Variable cwd : string.

(** [isPathAllowed(targetPath)] *)
Definition isPathAllowed (targetPath : string) : Prog bool :=
  try_catch
    (let* absolutePath := await (Realpath (Path.resolve cwd targetPath)) in
     let* allowedPath := await (Realpath (allowedDirectory this)) in
     let relativePath := Path.relative cwd allowedPath absolutePath in
     Ret (negb (JS.startsWith relativePath "..") && negb (JS.startsWith relativePath "/")))
    (fun _ => Ret false).

(** The result of a denied local path. *)
Definition accessDenied (args : RepomixArgs) : ToolResult :=
  {| content :=
       [textBlock ("Access denied: Path " +:+ dq +:+ default "" (path args) +:+ dq
                   +:+ " is outside the allowed directory ("
                   +:+ allowedDirectory this +:+ ")")];
     isError := Some true |}.

(** The security check for local paths: [true] when the request may go
    on (the check passed, or did not apply). *)
Definition securityCheck (args : RepomixArgs) : Prog bool :=
  if JS.truthy (path args) && negb (JS.truthy (remote args)) then
    let targetPath := Path.resolve cwd (default "" (path args)) in
    isPathAllowed targetPath
  else Ret true.

End Server.

(** [`"${value}"`] *)
Definition quoted (value : string) : string := dq +:+ value +:+ dq.

(** The pushes of each optional argument onto [commandParts]. *)
Definition pathPart (args : RepomixArgs) : list string :=
  if JS.truthy (path args) then [default "" (path args)] else [].

Definition stylePart (args : RepomixArgs) : list string :=
  match style args with
  | Some s => ["--style"; Style_toString s]
  | None => []
  end.

Definition compressPart (args : RepomixArgs) : list string :=
  if JS.truthy_bool (compress args) then ["--compress"] else [].

Definition includePart (args : RepomixArgs) : list string :=
  if JS.truthy (include args) then ["--include"; quoted (default "" (include args))] else [].

Definition ignorePart (args : RepomixArgs) : list string :=
  if JS.truthy (ignore args) then ["--ignore"; quoted (default "" (ignore args))] else [].

Definition remotePart (args : RepomixArgs) : list string :=
  if JS.truthy (remote args) then ["--remote"; default "" (remote args)] else [].

(** [commandParts] after the last push. *)
Definition commandParts (args : RepomixArgs) (tempFilePath : string) : list string :=
  ["npx"; "repomix"] ++ pathPart args ++ stylePart args ++ compressPart args
  ++ includePart args ++ ignorePart args ++ remotePart args
  ++ ["--output"; tempFilePath].

(** [buffer.toString('hex')] *)
Definition hexDigit (n : N) : ascii :=
  match n with
  | 0%N => "0" | 1%N => "1" | 2%N => "2" | 3%N => "3" | 4%N => "4"
  | 5%N => "5" | 6%N => "6" | 7%N => "7" | 8%N => "8" | 9%N => "9"
  | 10%N => "a" | 11%N => "b" | 12%N => "c" | 13%N => "d" | 14%N => "e"
  | _ => "f"
  end%char.

Definition hexOfByte (b : Byte.byte) : string :=
  let n := Byte.to_N b in
  String (hexDigit (n / 16)) (String (hexDigit (n mod 16)) EmptyString).

Definition toStringHex (bytes : list Byte.byte) : string :=
  JS.join "" (map hexOfByte bytes).

(** [`repomix-${randomBytes(8).toString('hex')}.txt`] *)
Definition tempFileNameOf (bytes : list Byte.byte) : string :=
  "repomix-" +:+ toStringHex bytes +:+ ".txt".

(** The text of a successful estimate; [locale] renders
    [estimatedTokens.toLocaleString()]. *)
Definition estimateText (locale : Num.Locale) (sizeInBytes : N) (args : RepomixArgs)
  : string :=
  let sizeInKB := Num.toFixed2 sizeInBytes 1024 in
  let sizeInMB := Num.toFixed2 sizeInBytes (1024 * 1024) in
  let estimatedTokens := Num.ceil_div4 sizeInBytes in
  "Repomix output size estimate:" +:+ JS.nl
  +:+ "- Size: " +:+ sizeInKB +:+ " KB (" +:+ sizeInMB +:+ " MB)" +:+ JS.nl
  +:+ "- Estimated tokens: ~" +:+ locale estimatedTokens +:+ JS.nl
  +:+ "- Compression: " +:+ (if JS.truthy_bool (compress args) then "enabled" else "disabled")
  +:+ JS.nl +:+ JS.nl
  +:+ "Use the repomix tool with these same parameters to retrieve the actual content.".

(** [${stderr ? `\n<label>: ${stderr}` : ''}] *)
Definition stderrSuffix (label captured : string) : string :=
  if JS.truthy (Some captured) then JS.nl +:+ label +:+ ": " +:+ captured else "".

(** [try { await rm(tempFilePath, { force: true }) } catch { }] *)
Definition cleanup (tempFilePath : string) : Prog unit :=
  try_catch (await (Rm tempFilePath true)) (fun _ => Ret tt).

(** The results and errors the branches build. *)
Definition estimateResult (locale : Num.Locale) (sizeInBytes : N) (args : RepomixArgs)
  : ToolResult :=
  {| content := [textBlock (estimateText locale sizeInBytes args)]; isError := None |}.

Definition contentResult (fileContents : string) : ToolResult :=
  {| content := [textBlock fileContents]; isError := None |}.

Definition estimationFailure (captured : string) (error : Exn) : Exn :=
  Error ("Failed to estimate size: " +:+ message error
         +:+ stderrSuffix "Repomix stderr" captured).

Definition readFailure (captured : string) (readError : Exn) : Exn :=
  Error ("Failed to read output file: " +:+ message readError
         +:+ stderrSuffix "Repomix stderr" captured).

Definition executionError (captured : string) (error : Exn) : ToolResult :=
  {| content := [textBlock ("Error executing repomix: " +:+ message error
                            +:+ stderrSuffix "Stderr" captured)];
     isError := Some true |}.

(** The estimate branch, entered once [execAsync] has fulfilled;
    [captured] is the value of the variable [stderr] at that point. *)
Definition estimateBranch (locale : Num.Locale) (args : RepomixArgs)
           (tempFilePath captured : string) : Prog ToolResult :=
  try_catch
    (let* sizeInBytes := await (Stat tempFilePath) in
     let* _ := cleanup tempFilePath in
     Ret (estimateResult locale sizeInBytes args))
    (fun error =>
       let* _ := cleanup tempFilePath in
       Throw (estimationFailure captured error)).

(** The retrieval branch. *)
Definition retrievalBranch (tempFilePath captured : string) : Prog ToolResult :=
  let* fileContents :=
    try_catch (await (ReadFile tempFilePath))
      (fun readError => Throw (readFailure captured readError)) in
  let* _ := cleanup tempFilePath in
  Ret (contentResult fileContents).

(** The outer [catch]: clean up and turn the error into a result. *)
Definition outerCatch (tempFilePath captured : string) (error : Exn) : Prog ToolResult :=
  let* _ := cleanup tempFilePath in
  Ret (executionError captured error).

(** [let stderr = ''; try { ... } catch (error) { ... }].  The variable
    [stderr] is assigned once, right after [execAsync] fulfilled: the outer
    [catch] reads [''] when [execAsync] rejected and [result.stderr]
    afterwards. *)
Definition executeAndRetrieve (locale : Num.Locale) (isEstimate : bool) (args : RepomixArgs)
           (tempFilePath command : string) : Prog ToolResult :=
  let* attempt :=
    try_catch (let* result := execAsync command in Ret (Ok result))
              (fun error => Ret (Err error)) in
  match attempt with
  | Err error => outerCatch tempFilePath "" error
  | Ok result =>
      let captured := stderr result in
      try_catch
        (if isEstimate then estimateBranch locale args tempFilePath captured
         else retrievalBranch tempFilePath captured)
        (outerCatch tempFilePath captured)
  end.

(** The execution unit: from [commandParts] to the result. *)
Definition executionUnit (locale : Num.Locale) (isEstimate : bool) (args : RepomixArgs)
  : Prog ToolResult :=
  let* bytes := Vis (RandomBytes 8) Ret in
  let tempFileName := tempFileNameOf bytes in
  let* tmp := Vis Tmpdir Ret in
  let tempFilePath := Path.join tmp tempFileName in
  let command := JS.join " " (commandParts args tempFilePath) in
  executeAndRetrieve locale isEstimate args tempFilePath command.

(** The [CallToolRequestSchema] handler; [toolName] is
    [request.params.name] and [arguments] is [request.params.arguments]
    ([None] when the request has none).  The process the handler runs in
    is there by its working directory [cwd] and its default [locale]. *)
Definition callTool (this : RepomixMCPServer) (cwd : string) (locale : Num.Locale)
           (toolName : string) (arguments : option Json) : Prog ToolResult :=
  if negb (String.eqb toolName "repomix") && negb (String.eqb toolName "repomix-estimate")
  then Throw (Error ("Unknown tool: " +:+ toolName))
  else
    let* args := liftResult (RepomixArgsSchema_parse arguments) in
    let isEstimate := String.eqb toolName "repomix-estimate" in
    let* allowed := securityCheck this cwd args in
    if negb allowed then Ret (accessDenied this args)
    else executionUnit locale isEstimate args.

(** The ways through [executeAndRetrieve], as the events it leaves and the
    result it returns: the command failed (it could not be launched, or
    exited with a status other than 0); the estimate succeeded; the [stat]
    of the estimate failed; the retrieval succeeded; the read of the
    retrieval failed. *)
Inductive UnitRun (locale : Num.Locale) (isEstimate : bool) (args : RepomixArgs)
          (tempFilePath command : string) : list Event -> ToolResult -> Prop :=
| RunExecFailed (o : ExecOutcome) (error : Exn) (rm1 : Result unit) :
    execSettled command o = Err error ->
    UnitRun locale isEstimate args tempFilePath command
            [EvExec command o; EvRm tempFilePath true rm1]
            (executionError "" error)
| RunEstimated (o : ExecOutcome) (result : ExecResult) (sizeInBytes : N) (rm1 : Result unit) :
    isEstimate = true ->
    execSettled command o = Ok result ->
    UnitRun locale isEstimate args tempFilePath command
            [EvExec command o; EvStat tempFilePath (Ok sizeInBytes);
             EvRm tempFilePath true rm1]
            (estimateResult locale sizeInBytes args)
| RunStatFailed (o : ExecOutcome) (result : ExecResult) (error : Exn)
                (rm1 rm2 : Result unit) :
    isEstimate = true ->
    execSettled command o = Ok result ->
    UnitRun locale isEstimate args tempFilePath command
            [EvExec command o; EvStat tempFilePath (Err error);
             EvRm tempFilePath true rm1; EvRm tempFilePath true rm2]
            (executionError (stderr result) (estimationFailure (stderr result) error))
| RunRetrieved (o : ExecOutcome) (result : ExecResult) (fileContents : string)
               (rm1 : Result unit) :
    isEstimate = false ->
    execSettled command o = Ok result ->
    UnitRun locale isEstimate args tempFilePath command
            [EvExec command o; EvReadFile tempFilePath (Ok fileContents);
             EvRm tempFilePath true rm1]
            (contentResult fileContents)
| RunReadFailed (o : ExecOutcome) (result : ExecResult) (readError : Exn)
                (rm1 : Result unit) :
    isEstimate = false ->
    execSettled command o = Ok result ->
    UnitRun locale isEstimate args tempFilePath command
            [EvExec command o; EvReadFile tempFilePath (Err readError);
             EvRm tempFilePath true rm1]
            (executionError (stderr result) (readFailure (stderr result) readError)).

(** An operating system like [os], except that every [rm] fails with [x]
    and removes nothing. *)
Definition rmRefusing {World : Type} (os : forall X : Type, Eff X -> World -> X * World)
           (x : Exn) (X : Type) (e : Eff X) (w : World) : X * World :=
  match e in Eff X return X * World with
  | Realpath p => os _ (Realpath p) w
  | RandomBytes n => os _ (RandomBytes n) w
  | Tmpdir => os _ Tmpdir w
  | Exec c => os _ (Exec c) w
  | Stat p => os _ (Stat p) w
  | ReadFile p => os _ (ReadFile p) w
  | Rm p force => (Err x, w)
  end.
(* ===================================================================== *)
(** ** A simulated operating system

    One concrete operating system to run the handlers on: a table of the
    paths that resolve, a file store, a supply of random bytes, and the
    behaviour of the external tool as a function of the argument vector the
    shell hands to it.  [exec] refuses a command that holds a NUL without
    starting a shell, and [readFile] decodes the bytes of the file as
    UTF-8.  The general theorems hold for every operating system; this one
    serves the scenarios. *)
(* ===================================================================== *)

Module Sim.

Record World := {
  canonical : gmap string string;   (* the real path of every path that resolves *)
  files : gmap string string;       (* the regular files and the bytes they hold *)
  tmp : string;                     (* [os.tmpdir()] *)
  entropy : list Byte.byte;         (* the bytes [randomBytes] hands out next *)
  tool : list string -> ExecOutcome * list (string * string);
                                    (* the command by its words: how it ends, what it writes *)
  rmRefused : bool                  (* [rm] fails with EPERM *)
}.

Definition withFiles (w : World) (fs : gmap string string) : World :=
  {| canonical := canonical w; files := fs; tmp := tmp w;
     entropy := entropy w; tool := tool w; rmRefused := rmRefused w |}.

Definition withEntropy (w : World) (bs : list Byte.byte) : World :=
  {| canonical := canonical w; files := files w; tmp := tmp w;
     entropy := bs; tool := tool w; rmRefused := rmRefused w |}.

Definition enoent (call p : string) : Exn :=
  SystemError ("ENOENT: no such file or directory, " +:+ call +:+ " '" +:+ p +:+ "'").

Definition eperm (call p : string) : Exn :=
  SystemError ("EPERM: operation not permitted, " +:+ call +:+ " '" +:+ p +:+ "'").

Definition writeAll (written : list (string * string)) (fs : gmap string string)
  : gmap string string :=
  fold_left (fun acc kv => <[fst kv := snd kv]> acc) written fs.

Definition os (X : Type) (e : Eff X) (w : World) : X * World :=
  match e in Eff X return X * World with
  | Realpath p =>
      (match canonical w !! p with
       | Some q => Ok q
       | None => Err (enoent "realpath" p)
       end, w)
  | RandomBytes n =>
      (firstn n (entropy w ++ repeat Byte.x00 n), withEntropy w (skipn n (entropy w)))
  | Tmpdir => (tmp w, w)
  | Exec command =>
      if JS.has_char Shell.nul command then
        (ExecFailed "The argument 'file' must be a string without null bytes", w)
      else
        match Shell.words command with
        | None => (Exited 2 "" "sh: syntax error: unterminated quoted string", w)
        | Some argv =>
            let '(o, written) := tool w argv in
            (o, withFiles w (writeAll written (files w)))
        end
  | Stat p =>
      (match files w !! p with
       | Some c => Ok (N.of_nat (String.length c))
       | None => Err (enoent "stat" p)
       end, w)
  | ReadFile p =>
      (match files w !! p with
       | Some c => Ok (JS.utf8Decode c)
       | None => Err (enoent "open" p)
       end, w)
  | Rm p force =>
      if rmRefused w then (Err (eperm "rm" p), w)
      else
        match files w !! p with
        | Some _ => (Ok tt, withFiles w (delete p (files w)))
        | None => if force then (Ok tt, w) else (Err (enoent "rm" p), w)
        end
  end.

(** Does the file exist? *)
Definition exists_ (w : World) (p : string) : bool :=
  match files w !! p with
  | Some _ => true
  | None => false
  end.

(** The project of the scenarios: boundary [/home/user/project], with a
    source directory, a directory whose name has a blank, and a directory
    whose name begins with two dots. *)
Definition projectPaths : gmap string string :=
  list_to_map
    [("/home/user/project", "/home/user/project");
     ("/home/user/project/src", "/home/user/project/src");
     ("/home/user/project/my dir", "/home/user/project/my dir");
     ("/home/user/project/..cache", "/home/user/project/..cache");
     ("/etc", "/etc")].

Definition someBytes : list Byte.byte :=
  [Byte.x3a; Byte.x7f; Byte.x00; Byte.xc4; Byte.x19; Byte.xe2; Byte.x5b; Byte.x08].

(** A tool that writes [artifact] to the file named after [--output] and
    exits with status 0. *)
Definition writes (artifact : string) (argv : list string)
  : ExecOutcome * list (string * string) :=
  (Exited 0 "" "", [(List.last argv "", artifact)]).

(** A tool that writes nothing and exits with [code] and [err] on its
    standard error. *)
Definition fails (code : Z) (err : string) (argv : list string)
  : ExecOutcome * list (string * string) :=
  (Exited code "" err, []).

(** A tool that exits with status 0 and a warning, but writes nothing. *)
Definition forgets (err : string) (argv : list string)
  : ExecOutcome * list (string * string) :=
  (Exited 0 "" err, []).

(** A tool that leaves a partial artifact and exits with [code]. *)
Definition crashes (code : Z) (err partial : string) (argv : list string)
  : ExecOutcome * list (string * string) :=
  (Exited code "" err, [(List.last argv "", partial)]).

(** A command that cannot be launched. *)
Definition unlaunchable (argv : list string) : ExecOutcome * list (string * string) :=
  (ExecFailed "spawn /bin/sh ENOENT", []).

Definition project (t : list string -> ExecOutcome * list (string * string))
           (refused : bool) : World :=
  {| canonical := projectPaths; files := ∅; tmp := "/tmp";
     entropy := someBytes; tool := t; rmRefused := refused |}.

End Sim.

Definition projectServer : RepomixMCPServer := newRepomixMCPServer "/home/user/project".
Definition projectCwd : string := "/home/user/project".

(** A string of [n] copies of a character. *)
Fixpoint replicate_char (n : nat) (c : ascii) : string :=
  match n with
  | O => EmptyString
  | S n' => String c (replicate_char n' c)
  end.

(** The requests of the scenarios. *)
Definition noArgs : RepomixArgs :=
  {| path := None; style := None; compress := None;
     include := None; ignore := None; remote := None |}.

Definition request (properties : list (string * Json)) : option Json :=
  Some (JObject properties).

Definition etcRequest : option Json := request [("path", JString "/etc")].

Definition etcArgs : RepomixArgs :=
  {| path := Some "/etc"; style := None; compress := None;
     include := None; ignore := None; remote := None |}.

Definition emptyRemoteRequest : option Json :=
  request [("path", JString "/etc"); ("remote", JString "")].

Definition emptyRemoteArgs : RepomixArgs :=
  {| path := Some "/etc"; style := None; compress := None;
     include := None; ignore := None; remote := Some "" |}.

Definition emptyPathRequest : option Json := request [("path", JString "")].

Definition emptyPathArgs : RepomixArgs :=
  {| path := Some ""; style := None; compress := None;
     include := None; ignore := None; remote := None |}.

Definition remoteRequest : option Json :=
  request [("path", JString "/etc"); ("remote", JString "https://github.com/user/repo")].

Definition estimateRequest : option Json :=
  request [("path", JString "."); ("compress", JBool true)].

Definition estimateArgs : RepomixArgs :=
  {| path := Some "."; style := None; compress := Some true;
     include := None; ignore := None; remote := None |}.

Definition blankPathRequest : option Json := request [("path", JString "my dir")].

Definition blankPathArgs : RepomixArgs :=
  {| path := Some "my dir"; style := None; compress := None;
     include := None; ignore := None; remote := None |}.

(** An include pattern with a double quote inside: [a" "b]. *)
Definition brokenPattern : string := "a" +:+ dq +:+ " " +:+ dq +:+ "b".

Definition brokenIncludeArgs : RepomixArgs :=
  {| path := None; style := None; compress := None;
     include := Some brokenPattern; ignore := None; remote := None |}.

Definition brokenIncludeRequest : option Json :=
  request [("include", JString brokenPattern)].

(** A path and a remote reference that are each one double quote, around
    an include pattern with a blank. *)
Definition strayQuoteRequest : option Json :=
  request [("path", JString dq); ("include", JString "a b"); ("remote", JString dq)].

Definition strayQuoteArgs : RepomixArgs :=
  {| path := Some dq; style := None; compress := None;
     include := Some "a b"; ignore := None; remote := Some dq |}.

(** A path that reads as the compress flag, in a request without
    [compress]. *)
Definition flagPathRequest : option Json :=
  request [("path", JString "--compress"); ("remote", JString "x")].

Definition flagPathArgs : RepomixArgs :=
  {| path := Some "--compress"; style := None; compress := None;
     include := None; ignore := None; remote := Some "x" |}.

(** An artifact with a byte that begins no UTF-8 sequence. *)
Definition strayByteArtifact : string := "pack" +:+ String (ascii_of_nat 255) "ed".

Definition globArgs : RepomixArgs :=
  {| path := Some "src"; style := Some markdown; compress := Some true;
     include := Some "*.ts,*.md"; ignore := Some "dist/**"; remote := None |}.

(** The name and the world of the artifact in the scenarios. *)
Definition scenarioTemp : string := "/tmp/repomix-3a7f00c419e25b08.txt".

Definition srcEstimateRequest : option Json :=
  request [("path", JString "src"); ("compress", JBool true); ("style", JString "plain")].

Definition srcEstimateArgs : RepomixArgs :=
  {| path := Some "src"; style := Some plain; compress := Some true;
     include := None; ignore := None; remote := None |}.

(** The artifact of the estimate scenario: 5396 bytes. *)
Definition scenarioArtifact : string := replicate_char (N.to_nat 5396) "x".

Definition srcRequest : option Json := request [("path", JString "src")].

Definition srcArgs : RepomixArgs :=
  {| path := Some "src"; style := None; compress := None;
     include := None; ignore := None; remote := None |}.

Definition remoteArgs : RepomixArgs :=
  {| path := Some "/etc"; style := None; compress := None;
     include := None; ignore := None; remote := Some "https://github.com/user/repo" |}.

(* ===================================================================== *)
(** ** Auxiliary notions for the further properties *)
(* ===================================================================== *)

(** The names of the fields [RepomixArgsSchema] declares, in order. *)
Definition schemaKeys : list string :=
  ["path"; "style"; "compress"; "include"; "ignore"; "remote"].

Definition isSchemaKey (key : string) : bool :=
  existsb (String.eqb key) schemaKeys.

(** Does a value conform to the declared type of a field? *)
Definition conforms (key : string) (v : Json) : bool :=
  if String.eqb key "compress" then
    match v with
    | JBool _ => true
    | _ => false
    end
  else if String.eqb key "style" then
    match v with
    | JString s => match Style_ofString s with Some _ => true | None => false end
    | _ => false
    end
  else
    match v with
    | JString _ => true
    | _ => false
    end.

(** A field is offending when the object has it with a value off its type. *)
Definition offending (ps : list (string * Json)) (key : string) : bool :=
  match property key ps with
  | Some v => negb (conforms key v)
  | None => false
  end.

(** The request object that carries exactly the fields of [args]. *)
Definition optionalProperty {A : Type} (key : string) (toJson : A -> Json) (v : option A)
  : list (string * Json) :=
  match v with
  | Some a => [(key, toJson a)]
  | None => []
  end.

Definition toArguments (args : RepomixArgs) : option Json :=
  Some (JObject
          (optionalProperty "path" JString (path args)
           ++ optionalProperty "style" (fun s => JString (Style_toString s)) (style args)
           ++ optionalProperty "compress" JBool (compress args)
           ++ optionalProperty "include" JString (include args)
           ++ optionalProperty "ignore" JString (ignore args)
           ++ optionalProperty "remote" JString (remote args))).

(** The descriptor a tool's input schema gives for a property. *)
Fixpoint schemaProperty (key : string) (props : list (string * Property)) : option Property :=
  match props with
  | [] => None
  | (k, p) :: rest => if String.eqb k key then Some p else schemaProperty key rest
  end.

(** The values a tool advertises for [style]. *)
Definition advertisedStyles (t : Tool) : list string :=
  match schemaProperty "style" (inputSchema t) with
  | Some p => default [] (propertyEnum p)
  | None => []
  end.

(** The JSON type name of a value, as the listing spells types. *)
Definition jsonTypeOf (v : Json) : string :=
  match v with
  | JNull => "null"
  | JBool _ => "boolean"
  | JNumber _ => "number"
  | JString _ => "string"
  | JArray _ => "array"
  | JObject _ => "object"
  end.

(** The segments of [p] below [boundary], if [p] is [boundary] or lies
    under it. *)
Fixpoint stripPrefix (boundary p : list string) : option (list string) :=
  match boundary, p with
  | [], rest => Some rest
  | b :: boundary', x :: p' => if String.eqb b x then stripPrefix boundary' p' else None
  | _ :: _, [] => None
  end.

(** The decision of the access guard, read on segments: the boundary
    itself, or a path under it whose first segment below the boundary does
    not begin with two dots. *)
Definition allowedBySegments (boundary p : list string) : bool :=
  match stripPrefix boundary p with
  | Some [] => true
  | Some (x :: _) => negb (JS.startsWith x "..")
  | None => false
  end.

(** The path a filesystem call other than [realpath] acts on. *)
Definition touchedPath (ev : Event) : option string :=
  match ev with
  | EvStat p _ => Some p
  | EvReadFile p _ => Some p
  | EvRm p _ _ => Some p
  | _ => None
  end.

Definition isStat (ev : Event) : bool :=
  match ev with
  | EvStat _ _ => true
  | _ => false
  end.

(** Is the event a removal that was not forced? *)
Definition isUnforcedRm (ev : Event) : bool :=
  match ev with
  | EvRm _ force _ => negb force
  | _ => false
  end.

(** The text of a result with a single block. *)
Definition resultText (r : ToolResult) : option string :=
  match content r with
  | [b] => if String.eqb (type b) "text" then Some (text b) else None
  | _ => None
  end.

(** Reading hexadecimal text back: the value of a digit, and the bytes of
    a text of digit pairs. *)
Definition hexValue (c : ascii) : option N :=
  let n := N_of_ascii c in
  if ((48 <=? n) && (n <=? 57))%N then Some (n - 48)%N
  else if ((97 <=? n) && (n <=? 102))%N then Some (n - 87)%N
  else None.

Fixpoint fromHex (s : string) : option (list Byte.byte) :=
  match s with
  | EmptyString => Some []
  | String a (String b r) =>
      match hexValue a, hexValue b, fromHex r with
      | Some x, Some y, Some bytes =>
          option_map (fun byte => byte :: bytes) (Byte.of_N (16 * x + y))
      | _, _, _ => None
      end
  | String _ EmptyString => None
  end.

(** The characters the shell gives a meaning of its own outside quotes. *)
Definition shellSpecials : list ascii :=
  [Shell.nul; " "%char; ascii_of_nat 9; ascii_of_nat 10;
   Shell.dquote; Shell.squote; Shell.backslash; Shell.dollar; Shell.backquote;
   "|"%char; "&"%char; ";"%char; "<"%char; ">"%char; "("%char; ")"%char;
   "*"%char; "?"%char; "["%char; "]"%char; "#"%char; "~"%char;
   "{"%char; "}"%char; "!"%char].

Definition isOrdinaryChar (c : ascii) : bool :=
  negb (existsb (Ascii.eqb c) shellSpecials).

Fixpoint allOrdinary (s : string) : bool :=
  match s with
  | EmptyString => true
  | String c r => isOrdinaryChar c && allOrdinary r
  end.

(** A word the shell reads as it stands: not empty, ordinary characters. *)
Definition isBareWord (s : string) : bool :=
  negb (String.eqb s "") && allOrdinary s.

(** A part of the command and the word the shell makes of it: a bare word
    is itself; a value between double quotes, free of the four characters
    that stay special there, is the value. *)
Inductive ShellToken : string -> string -> Prop :=
| TokenBare (w : string) : isBareWord w = true -> ShellToken w w
| TokenQuoted (v : string) : Shell.plainInDoubleQuotes v = true -> ShellToken (quoted v) v.

(** An optional value that is pushed bare, or between quotes, survives
    the shell. *)
Definition safeBare (v : option string) : bool :=
  match v with
  | Some s => String.eqb s "" || isBareWord s
  | None => true
  end.

Definition safeQuoted (v : option string) : bool :=
  match v with
  | Some s => Shell.plainInDoubleQuotes s
  | None => true
  end.

Definition shellSafe (args : RepomixArgs) (tempFilePath : string) : bool :=
  safeBare (path args) && safeQuoted (include args) && safeQuoted (ignore args)
  && safeBare (remote args) && isBareWord tempFilePath.

(** The arguments the tool is meant to receive. *)
Definition argvOf (args : RepomixArgs) (tempFilePath : string) : list string :=
  ["npx"; "repomix"] ++ pathPart args ++ stylePart args ++ compressPart args
  ++ (if JS.truthy (include args) then ["--include"; default "" (include args)] else [])
  ++ (if JS.truthy (ignore args) then ["--ignore"; default "" (ignore args)] else [])
  ++ remotePart args ++ ["--output"; tempFilePath].

(** The non-empty text and the flag a request object holds under a key. *)
Definition requestText (ps : list (string * Json)) (key : string) : option string :=
  match property key ps with
  | Some (JString s) => if String.eqb s "" then None else Some s
  | _ => None
  end.

Definition requestFlag (ps : list (string * Json)) (key : string) : bool :=
  match property key ps with
  | Some (JBool b) => b
  | _ => false
  end.

(** The words an optional text contributes to the command. *)
Definition wordsFor (v : option string) (f : string -> list string) : list string :=
  match v with
  | Some s => f s
  | None => []
  end.

Definition allDigits (s : string) : bool :=
  forallb Num.isDigit (list_ascii_of_string s).

(* ===================================================================== *)
(** * Theorems *)
(* ===================================================================== *)

(** ** Running programs *)

Section RunFacts.

Context {World : Type}.
Variable os : forall X : Type, Eff X -> World -> X * World.
Variable locale : Num.Locale.

(** A sequence runs its first part and, if that returns, the rest. *)
Lemma run_bind {A B : Type} (p : Prog A) (f : A -> Prog B) (w : World) :
  run os (bind p f) w =
  match run os p w with
  | (tr, Returned a, w1) =>
      let '(tr2, o, w2) := run os (f a) w1 in (tr ++ tr2, o, w2)
  | (tr, Thrown e, w1) => (tr, Thrown e, w1)
  end.
Proof.
  revert w. induction p as [a | e | X e k IH]; intros w; cbn [bind run].
  - destruct (run os (f a) w) as [[tr2 o] w2]. reflexivity.
  - reflexivity.
  - destruct (os X e w) as [x w1]. rewrite IH.
    destruct (run os (k x) w1) as [[tr o] w2]. destruct o as [a | ex].
    + destruct (run os (f a) w2) as [[tr2 o2] w3]. reflexivity.
    + reflexivity.
Qed.

(** A guarded block runs its body and, if that throws, the handler. *)
Lemma run_try_catch {A : Type} (p : Prog A) (h : Exn -> Prog A) (w : World) :
  run os (try_catch p h) w =
  match run os p w with
  | (tr, Returned a, w1) => (tr, Returned a, w1)
  | (tr, Thrown e, w1) =>
      let '(tr2, o, w2) := run os (h e) w1 in (tr ++ tr2, o, w2)
  end.
Proof.
  revert w. induction p as [a | e | X e k IH]; intros w; cbn [try_catch run].
  - reflexivity.
  - destruct (run os (h e) w) as [[tr2 o] w2]. reflexivity.
  - destruct (os X e w) as [x w1]. rewrite IH.
    destruct (run os (k x) w1) as [[tr o] w2]. destruct o as [a | ex].
    + reflexivity.
    + destruct (run os (h ex) w2) as [[tr2 o2] w3]. reflexivity.
Qed.

(** An awaited call contributes one event and returns or throws with
    the answer. *)
Lemma run_await {A : Type} (e : Eff (Result A)) (w : World) :
  run os (await e) w =
  (event_of e (fst (os _ e w)) :: [],
   match fst (os _ e w) with
   | Ok a => Returned a
   | Err x => Thrown x
   end,
   snd (os _ e w)).
Proof.
  unfold await. cbn [run]. destruct (os _ e w) as [[a | x] w1]; reflexivity.
Qed.

(** The cleanup is one forced [rm] and never throws. *)
Lemma run_cleanup (p : string) (w : World) :
  run os (cleanup p) w =
  ([EvRm p true (fst (os _ (Rm p true) w))], Returned tt, snd (os _ (Rm p true) w)).
Proof.
  unfold cleanup. rewrite run_try_catch, run_await. cbn [event_of].
  destruct (os _ (Rm p true) w) as [[[] | x] w1]; reflexivity.
Qed.

(** The whole behaviour of [isPathAllowed], by the answers of the two
    [realpath] calls. *)
Lemma run_isPathAllowed (this : RepomixMCPServer) (cwd targetPath : string) (w : World) :
  run os (isPathAllowed this cwd targetPath) w =
  let r1 := os _ (Realpath (Path.resolve cwd targetPath)) w in
  match fst r1 with
  | Err _ =>
      ([EvRealpath (Path.resolve cwd targetPath) (fst r1)], Returned false, snd r1)
  | Ok absolutePath =>
      let r2 := os _ (Realpath (allowedDirectory this)) (snd r1) in
      ([EvRealpath (Path.resolve cwd targetPath) (fst r1);
        EvRealpath (allowedDirectory this) (fst r2)],
       Returned
         match fst r2 with
         | Err _ => false
         | Ok allowedPath =>
             let relativePath := Path.relative cwd allowedPath absolutePath in
             negb (JS.startsWith relativePath "..") && negb (JS.startsWith relativePath "/")
         end,
       snd r2)
  end.
Proof.
  unfold isPathAllowed. rewrite run_try_catch, run_bind, run_await. cbn [event_of].
  destruct (os _ (Realpath (Path.resolve cwd targetPath)) w) as [[absolutePath | x] w1];
    cbn [fst snd]; [| reflexivity].
  rewrite run_bind, run_await. cbn [event_of].
  destruct (os _ (Realpath (allowedDirectory this)) w1) as [[allowedPath | x] w2];
    cbn [fst snd run app]; reflexivity.
Qed.

End RunFacts.

(** ** Strings and paths *)

Section StringFacts.

Lemma append_String (c : ascii) (a b : string) :
  String c a +:+ b = String c (a +:+ b).
Proof. reflexivity. Qed.

Lemma append_empty_l (a : string) : "" +:+ a = a.
Proof. reflexivity. Qed.

Lemma append_empty_r (a : string) : a +:+ "" = a.
Proof. induction a as [| c a IH]; [reflexivity |]. rewrite append_String, IH. reflexivity. Qed.

Lemma append_assoc (a b c : string) : (a +:+ b) +:+ c = a +:+ (b +:+ c).
Proof.
  induction a as [| x a IH]; [reflexivity |].
  rewrite !append_String, IH. reflexivity.
Qed.

(** A text that occurs in one of two strings occurs in the two put
    together. *)
Lemma startsWith_app (a b t : string) :
  JS.startsWith a t = true -> JS.startsWith (a +:+ b) t = true.
Proof.
  revert a. induction t as [| c t IH]; intros a H; [reflexivity |].
  destruct a as [| d a]; [discriminate H |].
  rewrite append_String. cbn [JS.startsWith] in H |- *.
  destruct (Ascii.eqb c d); [apply IH, H | discriminate H].
Qed.

Lemma includes_app_l (a b t : string) :
  JS.includes a t = true -> JS.includes (a +:+ b) t = true.
Proof.
  induction a as [| c a IH]; intros H.
  - cbn [JS.includes] in H. rewrite orb_false_r in H.
    destruct t as [| x t]; [| discriminate H].
    rewrite append_empty_l. destruct b; reflexivity.
  - rewrite append_String. cbn [JS.includes] in H |- *.
    apply orb_true_iff in H as [H | H]; apply orb_true_iff.
    + left. apply (startsWith_app (String c a) b t H).
    + right. apply IH, H.
Qed.

Lemma includes_app_r (a b t : string) :
  JS.includes b t = true -> JS.includes (a +:+ b) t = true.
Proof.
  intros H. induction a as [| c a IH]; [exact H |].
  rewrite append_String. cbn [JS.includes]. rewrite IH. apply orb_true_r.
Qed.

Lemma split_nonempty (sep : ascii) (s : string) : JS.split sep s <> [].
Proof.
  destruct s as [| c r]; cbn [JS.split]; [discriminate |].
  destruct (Ascii.eqb c sep); [discriminate |].
  destruct (JS.split sep r); discriminate.
Qed.

(** Splitting at a separator splits the list of segments. *)
Lemma split_app_sep (sep : ascii) (a b : string) :
  JS.split sep (a +:+ String sep b) = JS.split sep a ++ JS.split sep b.
Proof.
  induction a as [| c a IH].
  - rewrite append_empty_l. cbn [JS.split]. rewrite Ascii.eqb_refl. reflexivity.
  - rewrite append_String. cbn [JS.split]. rewrite IH.
    destruct (Ascii.eqb c sep); [reflexivity |].
    pose proof (split_nonempty sep a) as Hne.
    destruct (JS.split sep a) as [| h t]; [contradiction | reflexivity].
Qed.

(** A string without the separator is one segment. *)
Lemma split_one (sep : ascii) (s : string) :
  JS.has_char sep s = false -> JS.split sep s = [s].
Proof.
  induction s as [| c r IH]; intros H; [reflexivity |].
  cbn [JS.has_char] in H. apply orb_false_iff in H as [Hc Hr].
  cbn [JS.split]. rewrite Ascii.eqb_sym, Hc, (IH Hr). reflexivity.
Qed.

Lemma isName_no_slash (seg : string) :
  Path.isName seg = true -> JS.has_char Path.slash seg = false.
Proof.
  unfold Path.isName. intros H.
  apply andb_true_iff in H as [H _]. apply andb_true_iff in H as [H _].
  apply andb_true_iff in H as [_ H]. now apply negb_true_iff in H.
Qed.

Lemma isName_eqbs (seg : string) :
  Path.isName seg = true ->
  String.eqb seg "" = false /\ String.eqb seg "." = false /\ String.eqb seg ".." = false.
Proof.
  unfold Path.isName. intros H.
  apply andb_true_iff in H as [H H3]. apply andb_true_iff in H as [H H2].
  apply andb_true_iff in H as [H1 _].
  repeat split; now apply negb_true_iff.
Qed.

(** Joining names with slashes and splitting again gives the names. *)
Lemma split_join_names (segs : list string) :
  Forall (fun seg => Path.isName seg = true) segs ->
  segs <> [] ->
  JS.split Path.slash (JS.join "/" segs) = segs.
Proof.
  induction segs as [| x rest IH]; intros Hall Hne; [contradiction |].
  inversion Hall as [| ? ? Hx Hrest]; subst.
  destruct rest as [| y rest'].
  - cbn [JS.join]. apply split_one. now apply isName_no_slash.
  - change (JS.join "/" (x :: y :: rest')) with (x +:+ "/" +:+ JS.join "/" (y :: rest')).
    change ("/" +:+ JS.join "/" (y :: rest'))
      with (String Path.slash (JS.join "/" (y :: rest'))).
    rewrite split_app_sep, IH by (assumption || discriminate).
    rewrite split_one by now apply isName_no_slash. reflexivity.
Qed.

(** Names pass [normalizeString] unchanged. *)
Lemma fold_norm_step_names (allow : bool) (segs acc : list string) :
  Forall (fun seg => Path.isName seg = true) segs ->
  fold_left (Path.norm_step allow) segs acc = rev segs ++ acc.
Proof.
  revert acc. induction segs as [| x rest IH]; intros acc Hall; [reflexivity |].
  inversion Hall as [| ? ? Hx Hrest]; subst. cbn [fold_left].
  destruct (isName_eqbs x Hx) as (E1 & E2 & E3).
  unfold Path.norm_step at 2. rewrite E1, E2, E3. cbn [orb].
  rewrite IH by assumption. cbn [rev]. rewrite <- app_assoc. reflexivity.
Qed.

Lemma fold_norm_step_app (allow : bool) (a b acc : list string) :
  fold_left (Path.norm_step allow) (a ++ b) acc =
  fold_left (Path.norm_step allow) b (fold_left (Path.norm_step allow) a acc).
Proof. apply fold_left_app. Qed.

(** The raw string [resolve] builds from an absolute path of names, in
    segments: an empty one, the names, an empty one. *)
Lemma split_ofSegments_slash (segs : list string) :
  Forall (fun seg => Path.isName seg = true) segs ->
  JS.split Path.slash (Path.ofSegments segs +:+ "/") =
  "" :: (match segs with [] => [""] | _ => segs end) ++ [""].
Proof.
  intros Hall. unfold Path.ofSegments.
  rewrite append_assoc.
  change ("/" +:+ (JS.join "/" segs +:+ "/"))
    with ("" +:+ String Path.slash (JS.join "/" segs +:+ String Path.slash "")).
  rewrite split_app_sep, split_app_sep. cbn [JS.split app].
  destruct segs as [| x rest]; [reflexivity |].
  rewrite split_join_names by (assumption || discriminate). reflexivity.
Qed.

Lemma normalizeSegments_ofSegments (segs : list string) :
  Forall (fun seg => Path.isName seg = true) segs ->
  Path.normalizeSegments (Path.ofSegments segs +:+ "/") false = segs.
Proof.
  intros Hall. unfold Path.normalizeSegments.
  rewrite split_ofSegments_slash by assumption.
  destruct segs as [| x rest]; [reflexivity |].
  change ("" :: (x :: rest) ++ [""]) with ([""] ++ (x :: rest) ++ [""]).
  rewrite !fold_norm_step_app.
  change (fold_left (Path.norm_step false) [""] []) with (@nil string).
  rewrite (fold_norm_step_names false (x :: rest)) by assumption.
  change (fold_left (Path.norm_step false) [""] (rev (x :: rest) ++ []))
    with (rev (x :: rest) ++ []).
  rewrite app_nil_r, rev_involutive. reflexivity.
Qed.

Lemma ofSegments_not_empty (segs : list string) :
  String.eqb (Path.ofSegments segs) "" = false.
Proof. reflexivity. Qed.

Lemma ofSegments_isAbsolute (segs : list string) :
  Path.isAbsolute (Path.ofSegments segs) = true.
Proof. reflexivity. Qed.

(** [resolve] leaves an absolute path of names as it is. *)
Lemma resolve_ofSegments (cwd : string) (segs : list string) :
  Forall (fun seg => Path.isName seg = true) segs ->
  Path.resolve cwd (Path.ofSegments segs) = Path.ofSegments segs.
Proof.
  intros Hall. unfold Path.resolve, Path.resolveRaw.
  rewrite ofSegments_isAbsolute, ofSegments_not_empty. cbn [negb].
  unfold Path.normalizeString. rewrite normalizeSegments_ofSegments by assumption.
  reflexivity.
Qed.

Lemma filter_names (segs : list string) :
  Forall (fun seg => Path.isName seg = true) segs ->
  List.filter (fun seg => negb (String.eqb seg "")) segs = segs.
Proof.
  induction 1 as [| x rest Hx Hrest IH]; [reflexivity |].
  cbn [List.filter]. destruct (isName_eqbs x Hx) as (E1 & _ & _).
  rewrite E1. cbn [negb]. now rewrite IH.
Qed.

Lemma segments_ofSegments (segs : list string) :
  Forall (fun seg => Path.isName seg = true) segs ->
  Path.segments (Path.ofSegments segs) = segs.
Proof.
  intros Hall. unfold Path.segments, Path.ofSegments.
  change ("/" +:+ JS.join "/" segs) with ("" +:+ String Path.slash (JS.join "/" segs)).
  rewrite split_app_sep. cbn [JS.split app List.filter String.eqb negb].
  destruct segs as [| x rest]; [reflexivity |].
  rewrite split_join_names by (assumption || discriminate).
  now apply filter_names.
Qed.

Lemma dropCommon_prefix (a b : list string) :
  Path.dropCommon a (a ++ b) = ([], b).
Proof.
  induction a as [| x a IH]; cbn [Path.dropCommon app].
  - destruct b; reflexivity.
  - rewrite String.eqb_refl. exact IH.
Qed.

Lemma strictlyInside_prefix (a : list string) (x : string) (b : list string) :
  Path.strictlyInside a (a ++ x :: b) = true.
Proof.
  induction a as [| y a IH]; cbn [Path.strictlyInside app]; [reflexivity |].
  rewrite String.eqb_refl. exact IH.
Qed.

(** The relative path from a directory to an entry directly in it is the
    entry's name. *)
Lemma relative_child (cwd : string) (boundary : list string) (name : string) :
  Forall (fun seg => Path.isName seg = true) boundary ->
  Path.isName name = true ->
  Path.relative cwd (Path.ofSegments boundary) (Path.ofSegments (boundary ++ [name])) = name.
Proof.
  intros Hb Hn.
  assert (Hall : Forall (fun seg => Path.isName seg = true) (boundary ++ [name])).
  { apply Forall_app. split; [assumption | now constructor]. }
  assert (Hneq : String.eqb (Path.ofSegments boundary) (Path.ofSegments (boundary ++ [name])) = false).
  { apply String.eqb_neq. intros Heq.
    apply (f_equal Path.segments) in Heq.
    rewrite !segments_ofSegments in Heq by assumption.
    apply (f_equal (@List.length string)) in Heq.
    rewrite length_app in Heq. cbn in Heq. lia. }
  unfold Path.relative. rewrite Hneq.
  rewrite !resolve_ofSegments by assumption. rewrite Hneq.
  rewrite !segments_ofSegments by assumption.
  rewrite dropCommon_prefix. reflexivity.
Qed.

(** A relative path whose first segment is [..] starts with two dots. *)
Lemma firstSegment_dotdot (p : string) :
  Path.firstSegment p = ".." -> JS.startsWith p ".." = true.
Proof.
  unfold Path.firstSegment.
  destruct p as [| c1 r1]; cbn [JS.split hd]; [discriminate |].
  destruct (Ascii.eqb_spec c1 Path.slash) as [-> | N1]; cbn [hd]; [discriminate |].
  pose proof (split_nonempty Path.slash r1) as Hne1.
  destruct (JS.split Path.slash r1) as [| h1 t1] eqn:E1; [contradiction |].
  cbn [hd]. intros H. injection H as Hc Hh. subst c1 h1.
  destruct r1 as [| c2 r2]; cbn [JS.split] in E1; [discriminate |].
  destruct (Ascii.eqb_spec c2 Path.slash) as [-> | N2]; [discriminate |].
  pose proof (split_nonempty Path.slash r2) as Hne2.
  destruct (JS.split Path.slash r2) as [| h2 t2]; [contradiction |].
  injection E1 as Hc2 _ _. subst c2. reflexivity.
Qed.

End StringFacts.

(** ** The access guard *)

Section AccessGuard.

Context {World : Type}.
Variable os : forall X : Type, Eff X -> World -> X * World.
Variable locale : Num.Locale.
Variable this : RepomixMCPServer.
Variable cwd : string.

(** C1.  [isPathAllowed] never raises: whatever the operating system
    answers, it returns a boolean.  It returns [true] only if both
    [realpath] calls succeeded (on the resolved candidate and on the
    boundary) and the relative path from the resolved boundary to the
    resolved candidate does not begin with a parent-directory segment
    (it does not even start with two dots) and is not absolute.  And as
    soon as one resolution fails, whatever the reason, it returns
    [false]. *)
Theorem isPathAllowed_fail_closed (targetPath : string) (w : World) :
  let tr := trace_of os (isPathAllowed this cwd targetPath) w in
  let o := outcome_of os (isPathAllowed this cwd targetPath) w in
  (exists b : bool, o = Returned b)
  /\ (o = Returned true ->
      exists absolutePath allowedPath : string,
        tr = [EvRealpath (Path.resolve cwd targetPath) (Ok absolutePath);
              EvRealpath (allowedDirectory this) (Ok allowedPath)]
        /\ Path.firstSegment (Path.relative cwd allowedPath absolutePath) <> ".."
        /\ JS.startsWith (Path.relative cwd allowedPath absolutePath) ".." = false
        /\ Path.isAbsolute (Path.relative cwd allowedPath absolutePath) = false)
  /\ (forall (p : string) (e : Exn), In (EvRealpath p (Err e)) tr -> o = Returned false).
Proof.
  unfold trace_of, outcome_of. rewrite run_isPathAllowed. cbn zeta.
  destruct (os _ (Realpath (Path.resolve cwd targetPath)) w) as [[absolutePath | x] w1];
    cbn [fst snd].
  2:{ split; [now exists false |]. split; [discriminate | reflexivity]. }
  destruct (os _ (Realpath (allowedDirectory this)) w1) as [[allowedPath | x] w2];
    cbn [fst snd].
  2:{ split; [now exists false |]. split; [discriminate | reflexivity]. }
  split; [eexists; reflexivity |]. split.
  - intros H. exists absolutePath, allowedPath.
    split; [reflexivity |].
    pose proof (firstSegment_dotdot (Path.relative cwd allowedPath absolutePath)) as Hseg.
    unfold Path.isAbsolute.
    destruct (JS.startsWith (Path.relative cwd allowedPath absolutePath) "..");
      [discriminate H |].
    destruct (JS.startsWith (Path.relative cwd allowedPath absolutePath) "/");
      [discriminate H |].
    split; [| split; reflexivity].
    intros Hdots. specialize (Hseg Hdots). discriminate Hseg.
  - intros p e [H | [H | []]]; discriminate.
Qed.

(** C9.  The escape test looks at characters, not at segments.  Take a
    boundary made of the names [boundary] and an entry directly under it
    whose name begins with two dots (the name is a real name: not [..]
    itself).  When both paths resolve to themselves, the entry lies
    strictly inside the boundary, the relative path is the entry's name,
    and [isPathAllowed] returns [false]. *)
Theorem dotdot_entry_denied (boundary : list string) (name : string) (w : World) :
  Forall (fun seg => Path.isName seg = true) boundary ->
  Path.isName name = true ->
  JS.startsWith name ".." = true ->
  allowedDirectory this = Path.ofSegments boundary ->
  let target := Path.ofSegments (boundary ++ [name]) in
  fst (os _ (Realpath target) w) = Ok target ->
  fst (os _ (Realpath (allowedDirectory this)) (snd (os _ (Realpath target) w)))
    = Ok (allowedDirectory this) ->
  Path.strictlyInside (Path.segments (allowedDirectory this)) (Path.segments target) = true
  /\ Path.relative cwd (allowedDirectory this) target = name
  /\ outcome_of os (isPathAllowed this cwd target) w = Returned false.
Proof.
  intros Hb Hn Hdots Hdir target H1 H2.
  assert (Hall : Forall (fun seg => Path.isName seg = true) (boundary ++ [name])).
  { apply Forall_app. split; [assumption | now constructor]. }
  assert (Hrel : Path.relative cwd (allowedDirectory this) target = name).
  { rewrite Hdir. now apply relative_child. }
  split; [| split].
  - rewrite Hdir. unfold target. rewrite !segments_ofSegments by assumption.
    apply strictlyInside_prefix.
  - exact Hrel.
  - unfold outcome_of. rewrite run_isPathAllowed. cbn zeta.
    assert (Hres : Path.resolve cwd target = target)
      by (apply resolve_ofSegments; assumption).
    rewrite Hres, H1. cbn [fst snd]. rewrite H2. cbn [fst snd].
    rewrite Hrel, Hdots. reflexivity.
Qed.

End AccessGuard.

(** The scenario of C9: the directory [..cache] of the project. *)
Lemma dotdot_entry_denied_witness :
  Path.strictlyInside (Path.segments "/home/user/project")
                      (Path.segments "/home/user/project/..cache") = true
  /\ Path.relative projectCwd "/home/user/project" "/home/user/project/..cache" = "..cache"
  /\ outcome_of Sim.os (isPathAllowed projectServer projectCwd "/home/user/project/..cache")
                (Sim.project (Sim.writes "packed") false) = Returned false.
Proof.
  apply (dotdot_entry_denied Sim.os projectServer projectCwd
           ["home"; "user"; "project"] "..cache" (Sim.project (Sim.writes "packed") false)).
  - repeat constructor.
  - reflexivity.
  - reflexivity.
  - reflexivity.
  - vm_compute. reflexivity.
  - vm_compute. reflexivity.
Defined.

(** ** The execution unit, call by call *)

Section UnitExecution.

Context {World : Type}.
Variable os : forall X : Type, Eff X -> World -> X * World.
Variable locale : Num.Locale.

Lemma run_execAsync (command : string) (w : World) :
  run os (execAsync command) w =
  ([EvExec command (fst (os _ (Exec command) w))],
   match execSettled command (fst (os _ (Exec command) w)) with
   | Ok result => Returned result
   | Err error => Thrown error
   end,
   snd (os _ (Exec command) w)).
Proof.
  unfold execAsync. cbn [run event_of].
  destruct (os _ (Exec command) w) as [o w1]. cbn [fst snd].
  destruct (execSettled command o); reflexivity.
Qed.

Lemma run_outerCatch (tempFilePath captured : string) (error : Exn) (w : World) :
  run os (outerCatch tempFilePath captured error) w =
  ([EvRm tempFilePath true (fst (os _ (Rm tempFilePath true) w))],
   Returned (executionError captured error),
   snd (os _ (Rm tempFilePath true) w)).
Proof. unfold outerCatch. rewrite run_bind, run_cleanup. reflexivity. Qed.

Lemma run_estimateBranch (args : RepomixArgs) (tempFilePath captured : string) (w : World) :
  run os (estimateBranch locale args tempFilePath captured) w =
  let st := os _ (Stat tempFilePath) w in
  let rm1 := os _ (Rm tempFilePath true) (snd st) in
  match fst st with
  | Ok sizeInBytes =>
      ([EvStat tempFilePath (fst st); EvRm tempFilePath true (fst rm1)],
       Returned (estimateResult locale sizeInBytes args), snd rm1)
  | Err error =>
      ([EvStat tempFilePath (fst st); EvRm tempFilePath true (fst rm1)],
       Thrown (estimationFailure captured error), snd rm1)
  end.
Proof.
  unfold estimateBranch. rewrite run_try_catch, run_bind, run_await. cbn [event_of].
  destruct (os _ (Stat tempFilePath) w) as [[n | e] w1]; cbn [fst snd].
  - rewrite run_bind, run_cleanup. reflexivity.
  - rewrite run_bind, run_cleanup. reflexivity.
Qed.

Lemma run_retrievalBranch (tempFilePath captured : string) (w : World) :
  run os (retrievalBranch tempFilePath captured) w =
  let rd := os _ (ReadFile tempFilePath) w in
  match fst rd with
  | Ok fileContents =>
      let rm1 := os _ (Rm tempFilePath true) (snd rd) in
      ([EvReadFile tempFilePath (fst rd); EvRm tempFilePath true (fst rm1)],
       Returned (contentResult fileContents), snd rm1)
  | Err readError =>
      ([EvReadFile tempFilePath (fst rd)],
       Thrown (readFailure captured readError), snd rd)
  end.
Proof.
  unfold retrievalBranch. rewrite run_bind, run_try_catch, run_await. cbn [event_of].
  destruct (os _ (ReadFile tempFilePath) w) as [[c | e] w1]; cbn [fst snd].
  - rewrite run_bind, run_cleanup. reflexivity.
  - reflexivity.
Qed.

(** Every path through [executeAndRetrieve], by the answers of the
    operating system. *)
Lemma run_executeAndRetrieve (isEstimate : bool) (args : RepomixArgs)
      (tempFilePath command : string) (w : World) :
  run os (executeAndRetrieve locale isEstimate args tempFilePath command) w =
  let ex := os _ (Exec command) w in
  match execSettled command (fst ex) with
  | Err error =>
      let rm1 := os _ (Rm tempFilePath true) (snd ex) in
      ([EvExec command (fst ex); EvRm tempFilePath true (fst rm1)],
       Returned (executionError "" error), snd rm1)
  | Ok result =>
      if isEstimate then
        let st := os _ (Stat tempFilePath) (snd ex) in
        let rm1 := os _ (Rm tempFilePath true) (snd st) in
        match fst st with
        | Ok sizeInBytes =>
            ([EvExec command (fst ex); EvStat tempFilePath (fst st);
              EvRm tempFilePath true (fst rm1)],
             Returned (estimateResult locale sizeInBytes args), snd rm1)
        | Err error =>
            let rm2 := os _ (Rm tempFilePath true) (snd rm1) in
            ([EvExec command (fst ex); EvStat tempFilePath (fst st);
              EvRm tempFilePath true (fst rm1); EvRm tempFilePath true (fst rm2)],
             Returned (executionError (stderr result)
                         (estimationFailure (stderr result) error)),
             snd rm2)
        end
      else
        let rd := os _ (ReadFile tempFilePath) (snd ex) in
        let rm1 := os _ (Rm tempFilePath true) (snd rd) in
        ([EvExec command (fst ex); EvReadFile tempFilePath (fst rd);
          EvRm tempFilePath true (fst rm1)],
         Returned match fst rd with
                  | Ok fileContents => contentResult fileContents
                  | Err readError =>
                      executionError (stderr result) (readFailure (stderr result) readError)
                  end,
         snd rm1)
  end.
Proof.
  unfold executeAndRetrieve.
  rewrite run_bind, run_try_catch, run_bind, run_execAsync. cbn zeta.
  destruct (os _ (Exec command) w) as [o w1]. cbn [fst snd].
  destruct (execSettled command o) as [result | error]; cbn [run app].
  - rewrite run_try_catch. destruct isEstimate.
    + rewrite run_estimateBranch. cbn zeta.
      destruct (os _ (Stat tempFilePath) w1) as [[n | e] w2]; cbn [fst snd].
      * reflexivity.
      * rewrite run_outerCatch. reflexivity.
    + rewrite run_retrievalBranch. cbn zeta.
      destruct (os _ (ReadFile tempFilePath) w1) as [[c | e] w2]; cbn [fst snd].
      * reflexivity.
      * rewrite run_outerCatch. reflexivity.
  - rewrite run_outerCatch. reflexivity.
Qed.

(** The execution unit: two calls to name the artifact, then the above. *)
Lemma run_executionUnit (isEstimate : bool) (args : RepomixArgs) (w : World) :
  run os (executionUnit locale isEstimate args) w =
  let rb := os _ (RandomBytes 8) w in
  let td := os _ Tmpdir (snd rb) in
  let tempFilePath := Path.join (fst td) (tempFileNameOf (fst rb)) in
  let command := JS.join " " (commandParts args tempFilePath) in
  let '(tr, o, w') :=
    run os (executeAndRetrieve locale isEstimate args tempFilePath command) (snd td) in
  (EvRandomBytes 8 (fst rb) :: EvTmpdir (fst td) :: tr, o, w').
Proof.
  unfold executionUnit. cbn [bind run event_of]. cbn zeta.
  destruct (os _ (RandomBytes 8) w) as [bytes w1]. cbn [fst snd].
  destruct (os _ Tmpdir w1) as [tmp w2]. cbn [fst snd].
  destruct (run os _ w2) as [[tr o] w3]. reflexivity.
Qed.

Variable this : RepomixMCPServer.
Variable cwd : string.

Lemma run_securityCheck (args : RepomixArgs) (w : World) :
  run os (securityCheck this cwd args) w =
  if JS.truthy (path args) && negb (JS.truthy (remote args)) then
    run os (isPathAllowed this cwd (Path.resolve cwd (default "" (path args)))) w
  else ([], Returned true, w).
Proof.
  unfold securityCheck.
  destruct (JS.truthy (path args) && negb (JS.truthy (remote args))); reflexivity.
Qed.

(** The guard only resolves paths, and never throws. *)
Lemma securityCheck_shape (args : RepomixArgs) (w : World) :
  exists (tr : list Event) (allowed : bool) (w1 : World),
    run os (securityCheck this cwd args) w = (tr, Returned allowed, w1)
    /\ forallb isRealpath tr = true
    /\ (tr <> [] <-> JS.truthy (path args) && negb (JS.truthy (remote args)) = true).
Proof.
  rewrite run_securityCheck.
  destruct (JS.truthy (path args) && negb (JS.truthy (remote args))).
  - rewrite run_isPathAllowed. cbn zeta.
    destruct (os _ (Realpath _) w) as [[a | x] w1]; cbn [fst snd].
    + destruct (os _ (Realpath (allowedDirectory this)) w1) as [r2 w2]. cbn [fst snd].
      eexists _, _, _. split; [reflexivity |]. split; [reflexivity |].
      split; [reflexivity | discriminate].
    + eexists _, _, _. split; [reflexivity |]. split; [reflexivity |].
      split; [reflexivity | discriminate].
  - exists [], true, w. split; [reflexivity |]. split; [reflexivity |].
    split; [contradiction | discriminate].
Qed.

(** A known tool with conforming arguments: the guard, then either the
    denial or the execution unit. *)
Lemma run_callTool (toolName : string) (arguments : option Json) (args : RepomixArgs)
      (w : World) :
  In toolName ["repomix"; "repomix-estimate"] ->
  RepomixArgsSchema_parse arguments = Ok args ->
  run os (callTool this cwd locale toolName arguments) w =
  match run os (securityCheck this cwd args) w with
  | (tr, Returned true, w1) =>
      let '(tr2, o, w2) :=
        run os (executionUnit locale (String.eqb toolName "repomix-estimate") args) w1 in
      (tr ++ tr2, o, w2)
  | (tr, Returned false, w1) => (tr, Returned (accessDenied this args), w1)
  | (tr, Thrown e, w1) => (tr, Thrown e, w1)
  end.
Proof.
  intros Hname Hparse. unfold callTool.
  assert (Hguard : negb (String.eqb toolName "repomix")
                   && negb (String.eqb toolName "repomix-estimate") = false).
  { destruct Hname as [<- | [<- | []]]; reflexivity. }
  rewrite Hguard, Hparse. cbn [liftResult bind].
  rewrite run_bind.
  destruct (run os (securityCheck this cwd args) w) as [[tr [allowed | e]] w1];
    [| reflexivity].
  destruct allowed; cbn [negb].
  - reflexivity.
  - cbn [run]. rewrite app_nil_r. reflexivity.
Qed.

End UnitExecution.

(** ** The dispatcher *)

(** Symbolic execution: name the answer of the next call. *)
Ltac next_call os :=
  match goal with
  | |- context [os ?X ?e ?w] =>
      is_var w;
      let a := fresh "answer" in
      let w' := fresh "w" in
      let E := fresh "Hcall" in
      destruct (os X e w) as [a w'] eqn:E; cbn [fst snd] in *
  end.

Section Dispatcher.

Context {World : Type}.
Variable os : forall X : Type, Eff X -> World -> X * World.
Variable locale : Num.Locale.
Variable this : RepomixMCPServer.
Variable cwd : string.

Lemma executionError_not_denied (captured : string) (error : Exn) (args : RepomixArgs) :
  executionError captured error <> accessDenied this args.
Proof.
  unfold executionError, accessDenied, textBlock. intros H.
  injection H as H.
  change ("Error executing repomix: " +:+ message error +:+ stderrSuffix "Stderr" captured)
    with (String "E" ("rror executing repomix: " +:+ message error
                      +:+ stderrSuffix "Stderr" captured)) in H.
  change ("Access denied: Path " +:+ dq +:+ default "" (path args) +:+ dq
          +:+ " is outside the allowed directory (" +:+ allowedDirectory this +:+ ")")
    with (String "A" ("ccess denied: Path " +:+ dq +:+ default "" (path args) +:+ dq
          +:+ " is outside the allowed directory (" +:+ allowedDirectory this +:+ ")")) in H.
  discriminate H.
Qed.

(** The execution unit resolves no path, always returns a result, and
    that result is never the access denial. *)
Lemma executionUnit_guard_free (isEstimate : bool) (args args' : RepomixArgs) (w : World) :
  existsb isRealpath (trace_of os (executionUnit locale isEstimate args) w) = false
  /\ existsb isExec (trace_of os (executionUnit locale isEstimate args) w) = true
  /\ exists r : ToolResult,
       outcome_of os (executionUnit locale isEstimate args) w = Returned r
       /\ r <> accessDenied this args'.
Proof.
  unfold trace_of, outcome_of.
  rewrite run_executionUnit. cbn zeta. rewrite run_executeAndRetrieve. cbn zeta.
  do 3 next_call os.
  destruct (execSettled _ answer1) as [result | error].
  - destruct isEstimate.
    + do 2 next_call os. destruct answer2 as [n | e].
      * cbn [fst snd]. repeat split; try reflexivity.
        eexists. split; [reflexivity | discriminate].
      * next_call os. repeat split; try reflexivity.
        eexists. split; [reflexivity | apply executionError_not_denied].
    + do 2 next_call os. repeat split; try reflexivity.
      eexists. split; [reflexivity |].
      destruct answer2; [discriminate | apply executionError_not_denied].
  - next_call os. repeat split; try reflexivity.
    eexists. split; [reflexivity | apply executionError_not_denied].
Qed.

Lemma existsb_isRealpath_guard (tr : list Event) :
  forallb isRealpath tr = true -> existsb isRealpath tr = negb (match tr with [] => true | _ => false end).
Proof.
  destruct tr as [| ev tr]; [reflexivity |].
  cbn [forallb existsb negb]. intros H. apply andb_true_iff in H as [-> _]. reflexivity.
Qed.

(** C3, as the code has it.  For a known tool with conforming arguments:
    the access guard runs ([realpath] is called) exactly when [path] is a
    non-empty string and [remote] is absent or the empty string.  With a
    non-empty [remote], the guard is not invoked and the result is never
    the access denial.  When the guard runs and denies, the handler
    returns (it does not throw) the error-flagged result whose text
    carries the path as given and the boundary, after the guard's calls
    only: nothing is executed. *)
Theorem guard_applies_to_local_paths
        (toolName : string) (arguments : option Json) (args : RepomixArgs) (w : World) :
  In toolName ["repomix"; "repomix-estimate"] ->
  RepomixArgsSchema_parse arguments = Ok args ->
  let tr := trace_of os (callTool this cwd locale toolName arguments) w in
  let o := outcome_of os (callTool this cwd locale toolName arguments) w in
  let target := Path.resolve cwd (default "" (path args)) in
  existsb isRealpath tr = JS.truthy (path args) && negb (JS.truthy (remote args))
  /\ (JS.truthy (remote args) = true ->
      existsb isRealpath tr = false /\ o <> Returned (accessDenied this args))
  /\ (JS.truthy (path args) && negb (JS.truthy (remote args)) = true ->
      outcome_of os (isPathAllowed this cwd target) w = Returned false ->
      o = Returned (accessDenied this args)
      /\ tr = trace_of os (isPathAllowed this cwd target) w
      /\ existsb isExec tr = false
      /\ isError (accessDenied this args) = Some true
      /\ map text (content (accessDenied this args)) =
         ["Access denied: Path " +:+ dq +:+ default "" (path args) +:+ dq
          +:+ " is outside the allowed directory (" +:+ allowedDirectory this +:+ ")"]).
Proof.
  intros Hname Hparse tr o target. subst tr o.
  unfold trace_of, outcome_of.
  rewrite (run_callTool os locale this cwd toolName arguments args w Hname Hparse).
  destruct (securityCheck_shape os this cwd args w) as (tr1 & allowed & w1 & Hrun & Hreal & Hguard).
  rewrite Hrun.
  pose proof (executionUnit_guard_free (String.eqb toolName "repomix-estimate") args args w1)
    as (Hnoreal & _ & r & Hout & Hr).
  unfold trace_of, outcome_of in Hnoreal, Hout.
  assert (Hex : existsb isRealpath tr1
                = JS.truthy (path args) && negb (JS.truthy (remote args))).
  { rewrite existsb_isRealpath_guard by assumption.
    destruct (JS.truthy (path args) && negb (JS.truthy (remote args))).
    - destruct tr1; [| reflexivity]. destruct Hguard as [_ Hg].
      exfalso. now apply Hg.
    - destruct tr1 as [| ev tr1']; [reflexivity |]. destruct Hguard as [Hg _].
      discriminate Hg. discriminate. }
  assert (Htrace : existsb isRealpath
            (fst (fst (if allowed
                       then let '(tr2, o, w2) :=
                              run os (executionUnit locale (String.eqb toolName "repomix-estimate") args) w1
                            in (tr1 ++ tr2, o, w2)
                       else (tr1, Returned (accessDenied this args), w1))))
          = JS.truthy (path args) && negb (JS.truthy (remote args))).
  { destruct allowed; [| exact Hex].
    destruct (run os (executionUnit locale _ args) w1) as [[tr2 o2] w2]. cbn [fst snd] in *.
    rewrite existsb_app, Hnoreal, orb_false_r. exact Hex. }
  split; [exact Htrace |]. split.
  - intros Hremote. rewrite Htrace, Hremote, andb_false_r. split; [reflexivity |].
    destruct allowed.
    + destruct (run os (executionUnit locale _ args) w1) as [[tr2 o2] w2]. cbn [fst snd] in *.
      subst o2. intros H. injection H as H. contradiction.
    + exfalso. rewrite Hremote, andb_false_r in Hex.
      rewrite run_securityCheck, Hremote, andb_false_r in Hrun. discriminate Hrun.
  - intros Happlies Hdenied.
    rewrite run_securityCheck, Happlies in Hrun.
    unfold outcome_of in Hdenied. unfold trace_of. fold target in Hrun.
    rewrite Hrun in Hdenied |- *. cbn [fst snd] in Hdenied |- *.
    injection Hdenied as ->. cbn [fst snd].
    split; [reflexivity |]. split; [reflexivity |].
    split; [| split; reflexivity].
    clear - Hreal. induction tr1 as [| ev tr1 IH]; [reflexivity |].
    cbn [forallb] in Hreal. apply andb_true_iff in Hreal as [Hev Hrest].
    cbn [existsb]. rewrite (IH Hrest), orb_false_r.
    destruct ev; try discriminate Hev; reflexivity.
Qed.

(** C7, as the code has it.  The two advertised tools are named [repomix]
    and [repomix-estimate].  A call naming anything else throws the
    unknown-tool error (the handler raises; it does not return a result)
    whatever the arguments are, conforming or not, with an empty trace
    and the world untouched: before the schema is consulted and before
    any call to the filesystem or to a subprocess. *)
Theorem unknown_tool_raised (toolName : string) (arguments : option Json) (w : World) :
  toolName <> "repomix" ->
  toolName <> "repomix-estimate" ->
  map name listTools = ["repomix"; "repomix-estimate"]
  /\ run os (callTool this cwd locale toolName arguments) w
     = ([], Thrown (Error ("Unknown tool: " +:+ toolName)), w).
Proof.
  intros H1 H2. split; [reflexivity |].
  unfold callTool.
  apply String.eqb_neq in H1, H2. rewrite H1, H2. reflexivity.
Qed.

(** A known tool with arguments that do not conform throws the schema's
    error, again before any call. *)
Lemma schema_error_raised (toolName : string) (arguments : option Json)
      (issues : list string) (w : World) :
  In toolName ["repomix"; "repomix-estimate"] ->
  RepomixArgsSchema_parse arguments = Err (ZodError issues) ->
  run os (callTool this cwd locale toolName arguments) w = ([], Thrown (ZodError issues), w).
Proof.
  intros Hname Hparse. unfold callTool.
  assert (Hguard : negb (String.eqb toolName "repomix")
                   && negb (String.eqb toolName "repomix-estimate") = false).
  { destruct Hname as [<- | [<- | []]]; reflexivity. }
  rewrite Hguard, Hparse. reflexivity.
Qed.

End Dispatcher.

(** ** The dispatcher on the scenarios *)

(** Scenario: [{path: "/etc"}] with the boundary [/home/user/project]. *)
Lemma guard_applies_to_local_paths_witness :
  outcome_of Sim.os (callTool projectServer projectCwd Num.enUS "repomix" etcRequest)
             (Sim.project (Sim.writes "packed") false)
  = Returned (accessDenied projectServer etcArgs)
  /\ map text (content (accessDenied projectServer etcArgs))
     = ["Access denied: Path " +:+ dq +:+ "/etc" +:+ dq
        +:+ " is outside the allowed directory (/home/user/project)"].
Proof.
  destruct (guard_applies_to_local_paths Sim.os Num.enUS projectServer projectCwd
              "repomix" etcRequest etcArgs (Sim.project (Sim.writes "packed") false))
    as (_ & _ & Hdeny).
  - left. reflexivity.
  - reflexivity.
  - destruct Hdeny as (Ho & _ & _ & _ & Htext).
    + reflexivity.
    + vm_compute. reflexivity.
    + split; [exact Ho | exact Htext].
Defined.

(** C3 as stated fails: a request may carry both [path] and [remote] and
    still meet the guard.  With [remote] the empty string, [/etc] is
    resolved and the call is denied.  And a request may carry a [path] and
    no [remote] without meeting the guard: the empty path is not checked. *)
Lemma guard_runs_for_empty_remote :
  RepomixArgsSchema_parse emptyRemoteRequest = Ok emptyRemoteArgs
  /\ path emptyRemoteArgs = Some "/etc"
  /\ remote emptyRemoteArgs = Some ""
  /\ trace_of Sim.os (callTool projectServer projectCwd Num.enUS "repomix" emptyRemoteRequest)
              (Sim.project (Sim.writes "packed") false)
     = [EvRealpath "/etc" (Ok "/etc");
        EvRealpath "/home/user/project" (Ok "/home/user/project")]
  /\ outcome_of Sim.os (callTool projectServer projectCwd Num.enUS "repomix" emptyRemoteRequest)
                (Sim.project (Sim.writes "packed") false)
     = Returned (accessDenied projectServer emptyRemoteArgs)
  /\ RepomixArgsSchema_parse emptyPathRequest = Ok emptyPathArgs
  /\ path emptyPathArgs = Some ""
  /\ remote emptyPathArgs = None
  /\ existsb isRealpath
       (trace_of Sim.os (callTool projectServer projectCwd Num.enUS "repomix" emptyPathRequest)
                 (Sim.project (Sim.writes "packed") false)) = false.
Proof. repeat split; vm_compute; reflexivity. Qed.

(** With a remote repository named, the same path is not looked at. *)
Example remote_skips_guard :
  existsb isRealpath
    (trace_of Sim.os (callTool projectServer projectCwd Num.enUS "repomix" remoteRequest)
              (Sim.project (Sim.writes "packed") false)) = false
  /\ outcome_of Sim.os (callTool projectServer projectCwd Num.enUS "repomix" remoteRequest)
                (Sim.project (Sim.writes "packed") false)
     = Returned (contentResult "packed").
Proof. split; vm_compute; reflexivity. Qed.

(** A call to an unknown name with arguments that would not even pass the
    schema: the unknown-tool error wins. *)
Lemma unknown_tool_raised_witness :
  map name listTools = ["repomix"; "repomix-estimate"]
  /\ run Sim.os (callTool projectServer projectCwd Num.enUS "pack" (Some (JString "oops")))
         (Sim.project (Sim.writes "packed") false)
     = ([], Thrown (Error "Unknown tool: pack"), Sim.project (Sim.writes "packed") false).
Proof.
  apply (unknown_tool_raised Sim.os Num.enUS projectServer projectCwd "pack" (Some (JString "oops"))
           (Sim.project (Sim.writes "packed") false)).
  - discriminate.
  - discriminate.
Defined.

(** C7 as stated fails on the names: the tools are not called [pack] and
    [pack-estimate].  A call to [pack] is rejected as unknown, and a call to
    [repomix], a name outside the two the claim gives, is served. *)
Lemma pack_is_not_a_tool :
  map name listTools <> ["pack"; "pack-estimate"]
  /\ outcome_of Sim.os (callTool projectServer projectCwd Num.enUS "pack" (request []))
                (Sim.project (Sim.writes "packed") false)
     = Thrown (Error "Unknown tool: pack")
  /\ outcome_of Sim.os (callTool projectServer projectCwd Num.enUS "repomix" (request []))
                (Sim.project (Sim.writes "packed") false)
     = Returned (contentResult "packed").
Proof.
  split; [discriminate |]. split; vm_compute; reflexivity.
Qed.

(** ** The command line *)

Section CommandFacts.

Lemma join_cons2 (sep a : string) (b : string) (rest : list string) :
  JS.join sep (a :: b :: rest) = a +:+ sep +:+ JS.join sep (b :: rest).
Proof. reflexivity. Qed.

(** Joining two non-empty lists joins the joined halves. *)
Lemma join_app (sep : string) (l m : list string) :
  l <> [] -> m <> [] ->
  JS.join sep (l ++ m) = JS.join sep l +:+ sep +:+ JS.join sep m.
Proof.
  intros Hl Hm. induction l as [| a l IH]; [contradiction |].
  destruct l as [| b l'].
  - destruct m as [| c m']; [contradiction | reflexivity].
  - change ((a :: b :: l') ++ m) with (a :: (b :: l') ++ m).
    change ((b :: l') ++ m) with (b :: l' ++ m) at 1.
    rewrite join_cons2. change (b :: l' ++ m) with ((b :: l') ++ m).
    rewrite IH by discriminate. rewrite join_cons2, !append_assoc. reflexivity.
Qed.

Lemma snoc_append (cur : string) (c : ascii) (r : string) :
  Shell.snoc cur c +:+ r = cur +:+ String c r.
Proof. unfold Shell.snoc. rewrite append_assoc. reflexivity. Qed.

(** A plain value is plain character by character. *)
Lemma plainInDoubleQuotes_cons (c : ascii) (r : string) :
  Shell.plainInDoubleQuotes (String c r) = true ->
  Ascii.eqb c Shell.dquote = false /\ Ascii.eqb c Shell.backslash = false
  /\ Ascii.eqb c Shell.nul = false /\ Shell.plainInDoubleQuotes r = true.
Proof.
  unfold Shell.plainInDoubleQuotes. cbn [JS.has_char].
  rewrite (Ascii.eqb_sym c Shell.dquote), (Ascii.eqb_sym c Shell.backslash),
    (Ascii.eqb_sym c Shell.nul).
  rewrite !negb_orb, !andb_true_iff, !negb_true_iff.
  intros [[[[[Hq Hqr] [Hb Hbr]] [Hd Hdr]] [Hk Hkr]] [Hn Hnr]].
  rewrite Hqr, Hbr, Hdr, Hkr, Hnr. tauto.
Qed.

(** A plain value holds no NUL. *)
Lemma plainInDoubleQuotes_nul (v : string) :
  Shell.plainInDoubleQuotes v = true -> JS.has_char Shell.nul v = false.
Proof.
  unfold Shell.plainInDoubleQuotes. rewrite !andb_true_iff, !negb_true_iff. tauto.
Qed.

(** Inside double quotes, a value without double quote, backslash, dollar
    and backquote is read up to the closing quote as it stands. *)
Lemma scan_double_plain (v cur : string) :
  Shell.plainInDoubleQuotes v = true ->
  Shell.scan Shell.Double true cur (v +:+ dq) = Some [cur +:+ v].
Proof.
  revert cur. induction v as [| c r IH]; intros cur Hplain.
  - rewrite append_empty_r. reflexivity.
  - destruct (plainInDoubleQuotes_cons c r Hplain) as (Hq & Hb & _ & Hr).
    rewrite append_String. cbn [Shell.scan]. rewrite Hq, Hb.
    rewrite (IH _ Hr), snoc_append. reflexivity.
Qed.

(** Such a value, quoted, is one word: itself. *)
Lemma words_quoted (v : string) :
  Shell.plainInDoubleQuotes v = true -> Shell.words (quoted v) = Some [v].
Proof.
  intros Hplain. unfold Shell.words, quoted.
  change (dq +:+ v +:+ dq) with (String Shell.dquote (v +:+ dq)).
  cbn [Shell.scan]. change (Shell.isBlank Shell.dquote) with false.
  rewrite Ascii.eqb_refl. cbn match.
  rewrite scan_double_plain by assumption. reflexivity.
Qed.

Lemma hexOfByte_length (b : Byte.byte) : String.length (hexOfByte b) = 2.
Proof. reflexivity. Qed.

Lemma length_append (a b : string) :
  String.length (a +:+ b) = String.length a + String.length b.
Proof.
  induction a as [| c a IH]; [reflexivity |].
  rewrite append_String. cbn [String.length]. now rewrite IH.
Qed.

(** Hexadecimal text has two digits for each byte. *)
Lemma toStringHex_length (bytes : list Byte.byte) :
  String.length (toStringHex bytes) = 2 * List.length bytes.
Proof.
  unfold toStringHex. induction bytes as [| b rest IH]; [reflexivity |].
  destruct rest as [| b' rest'].
  - reflexivity.
  - change (map hexOfByte (b :: b' :: rest'))
      with (hexOfByte b :: hexOfByte b' :: map hexOfByte rest').
    rewrite join_cons2, append_empty_l, length_append, hexOfByte_length.
    change (hexOfByte b' :: map hexOfByte rest') with (map hexOfByte (b' :: rest')).
    rewrite IH. cbn [List.length]. lia.
Qed.

Lemma truthy_Some (v : option string) :
  JS.truthy v = true <-> exists s : string, v = Some s /\ s <> "".
Proof.
  destruct v as [s |]; cbn [JS.truthy].
  - rewrite negb_true_iff, String.eqb_neq. split.
    + intros H. now exists s.
    + intros (s' & [= <-] & H). exact H.
  - split; [discriminate | intros (s & H & _); discriminate H].
Qed.

End CommandFacts.

Section Command.

Context {World : Type}.
Variable os : forall X : Type, Eff X -> World -> X * World.
Variable locale : Num.Locale.

(** The shape of the command.  The execution unit asks for 8 random bytes
    and for the temporary directory, and then runs one command: the parts
    joined by single blanks.  The parts are the base, the optional
    arguments in order and the output option; the part pushed for
    [compress] is the flag when [compress] is [true] and nothing
    otherwise; a non-empty [include] or [ignore] value is pushed between
    double quotes, which, read on its own, is one shell word equal to the
    value when the value is plain; the command ends with the output option
    and the temporary path, which is the temporary directory joined with
    [repomix-], the sixteen hexadecimal digits of the random bytes, and
    [.txt]. *)
Lemma command_shape (isEstimate : bool) (args : RepomixArgs) (w : World) :
  let bytes := fst (os _ (RandomBytes 8) w) in
  let tmp := fst (os _ Tmpdir (snd (os _ (RandomBytes 8) w))) in
  let tempFilePath := Path.join tmp (tempFileNameOf bytes) in
  let parts := commandParts args tempFilePath in
  (exists (outcome : ExecOutcome) (rest : list Event),
      trace_of os (executionUnit locale isEstimate args) w
      = EvRandomBytes 8 bytes :: EvTmpdir tmp :: EvExec (JS.join " " parts) outcome :: rest)
  /\ parts = ["npx"; "repomix"] ++ pathPart args ++ stylePart args ++ compressPart args
             ++ includePart args ++ ignorePart args ++ remotePart args
             ++ ["--output"; tempFilePath]
  /\ (compressPart args = ["--compress"] <-> compress args = Some true)
  /\ (compress args <> Some true -> compressPart args = [])
  /\ (forall v : string, include args = Some v -> v <> "" ->
      includePart args = ["--include"; quoted v]
      /\ (Shell.plainInDoubleQuotes v = true -> Shell.words (quoted v) = Some [v]))
  /\ (forall v : string, ignore args = Some v -> v <> "" ->
      ignorePart args = ["--ignore"; quoted v]
      /\ (Shell.plainInDoubleQuotes v = true -> Shell.words (quoted v) = Some [v]))
  /\ JS.join " " parts
     = JS.join " " (["npx"; "repomix"] ++ pathPart args ++ stylePart args ++ compressPart args
                    ++ includePart args ++ ignorePart args ++ remotePart args)
       +:+ " --output " +:+ tempFilePath
  /\ tempFileNameOf bytes = "repomix-" +:+ toStringHex bytes +:+ ".txt"
  /\ String.length (toStringHex bytes) = 2 * List.length bytes.
Proof.
  intros bytes tmp tempFilePath parts.
  split; [| split; [| split; [| split; [| split; [| split; [| split; [| split]]]]]]].
  - unfold trace_of. rewrite run_executionUnit. cbn zeta.
    fold bytes. fold tmp. fold tempFilePath. fold parts.
    rewrite run_executeAndRetrieve. cbn zeta.
    destruct (os _ (RandomBytes 8) w) as [bs w1]. cbn [fst snd] in *.
    destruct (os _ Tmpdir w1) as [td w2]. cbn [fst snd] in *.
    destruct (os _ (Exec (JS.join " " parts)) w2) as [o w3]. cbn [fst snd].
    destruct (execSettled _ o) as [result | error]; [destruct isEstimate |].
    + destruct (os _ (Stat tempFilePath) w3) as [[n | x] w4]; cbn [fst snd];
        eexists _, _; reflexivity.
    + eexists _, _; reflexivity.
    + eexists _, _; reflexivity.
  - reflexivity.
  - unfold compressPart. destruct (compress args) as [[|] |]; cbn [JS.truthy_bool];
      split; intros H; try reflexivity; discriminate H.
  - unfold compressPart. destruct (compress args) as [[|] |]; cbn [JS.truthy_bool];
      intros H; try reflexivity. now contradiction H.
  - intros v Hv Hne. unfold includePart. rewrite Hv. cbn [JS.truthy default].
    apply String.eqb_neq in Hne. rewrite Hne. cbn [negb].
    split; [reflexivity | apply words_quoted].
  - intros v Hv Hne. unfold ignorePart. rewrite Hv. cbn [JS.truthy default].
    apply String.eqb_neq in Hne. rewrite Hne. cbn [negb].
    split; [reflexivity | apply words_quoted].
  - unfold parts, commandParts.
    set (pre := ["npx"; "repomix"] ++ pathPart args ++ stylePart args ++ compressPart args
                ++ includePart args ++ ignorePart args ++ remotePart args).
    replace (["npx"; "repomix"] ++ pathPart args ++ stylePart args ++ compressPart args
             ++ includePart args ++ ignorePart args ++ remotePart args
             ++ ["--output"; tempFilePath])
      with (pre ++ ["--output"; tempFilePath])
      by (unfold pre; rewrite <- !app_assoc; reflexivity).
    rewrite join_app by (unfold pre; discriminate). reflexivity.
  - reflexivity.
  - apply toStringHex_length.
Qed.

End Command.

(** C5: the code falls short of the claim.  The handler puts the include
    and ignore values between double quotes without escaping them, and
    pushes the path and the remote reference bare, so that one value
    decides how the rest of the command is read.  Three requests, run on
    the simulated system, each through the handler up to the command it
    hands to [exec] and the arguments the tool receives:
    - [{include: 'a" "b'}]: the tool receives [a] and [b] after
      [--include], not the one pattern;
    - [{path: '"', include: 'a b', remote: '"'}]: the pattern [a b], which
      holds no character special to the shell, is split all the same, and
      the options [--include] and [--remote] are lost in the words around
      it;
    - [{path: '--compress', remote: 'x'}]: [compress] is not requested,
      nothing is pushed for it, and the tool receives the compress flag. *)
Theorem command_quoting_fails :
  let world := Sim.project (Sim.writes "packed") false in
  let handed (arguments : option Json) (command : string) :=
    exists outcome : ExecOutcome,
      In (EvExec command outcome)
         (trace_of Sim.os (callTool projectServer projectCwd Num.enUS "repomix" arguments) world)
  in
  (RepomixArgsSchema_parse brokenIncludeRequest = Ok brokenIncludeArgs
   /\ include brokenIncludeArgs = Some brokenPattern
   /\ includePart brokenIncludeArgs = ["--include"; quoted brokenPattern]
   /\ handed brokenIncludeRequest (JS.join " " (commandParts brokenIncludeArgs scenarioTemp))
   /\ Shell.delivered (JS.join " " (commandParts brokenIncludeArgs scenarioTemp))
      = Some ["npx"; "repomix"; "--include"; "a"; "b"; "--output"; scenarioTemp])
  /\ (RepomixArgsSchema_parse strayQuoteRequest = Ok strayQuoteArgs
      /\ include strayQuoteArgs = Some "a b"
      /\ Shell.plainInDoubleQuotes "a b" = true
      /\ handed strayQuoteRequest (JS.join " " (commandParts strayQuoteArgs scenarioTemp))
      /\ Shell.delivered (JS.join " " (commandParts strayQuoteArgs scenarioTemp))
         = Some ["npx"; "repomix"; " --include a"; "b --remote "; "--output"; scenarioTemp])
  /\ (RepomixArgsSchema_parse flagPathRequest = Ok flagPathArgs
      /\ compress flagPathArgs = None
      /\ compressPart flagPathArgs = []
      /\ handed flagPathRequest (JS.join " " (commandParts flagPathArgs scenarioTemp))
      /\ JS.join " " (commandParts flagPathArgs scenarioTemp)
         = "npx repomix --compress --remote x --output " +:+ scenarioTemp
      /\ Shell.delivered (JS.join " " (commandParts flagPathArgs scenarioTemp))
         = Some ["npx"; "repomix"; "--compress"; "--remote"; "x"; "--output"; scenarioTemp]).
Proof.
  cbv zeta.
  repeat split; try (vm_compute; reflexivity);
    exists (Exited 0 "" ""); vm_compute; tauto.
Qed.

(** A comma-and-glob pattern goes through as one word. *)
Example glob_command :
  Shell.words (JS.join " " (commandParts globArgs scenarioTemp))
  = Some ["npx"; "repomix"; "src"; "--style"; "markdown"; "--compress";
          "--include"; "*.ts,*.md"; "--ignore"; "dist/**"; "--output"; scenarioTemp].
Proof. vm_compute. reflexivity. Qed.

(** C10.  The command is the parts joined by single blanks; the path, the
    style and the remote reference are pushed as they are, without quotes,
    while include and ignore go between double quotes.  So a path with a
    blank is not one argument: for the directory [my dir] of the project
    the guard lets the request through, the command run is
    [npx repomix my dir --output ...], and the tool receives the two words
    [my] and [dir] and nowhere the path. *)
Theorem unquoted_path_splits :
  (forall (args : RepomixArgs) (p : string),
      path args = Some p -> p <> "" -> pathPart args = [p])
  /\ (forall (args : RepomixArgs) (s : Style),
      style args = Some s -> stylePart args = ["--style"; Style_toString s])
  /\ (forall (args : RepomixArgs) (r : string),
      remote args = Some r -> r <> "" -> remotePart args = ["--remote"; r])
  /\ (forall (args : RepomixArgs) (v : string),
      include args = Some v -> v <> "" -> includePart args = ["--include"; quoted v])
  /\ (forall (args : RepomixArgs) (v : string),
      ignore args = Some v -> v <> "" -> ignorePart args = ["--ignore"; quoted v])
  /\ RepomixArgsSchema_parse blankPathRequest = Ok blankPathArgs
  /\ path blankPathArgs = Some "my dir"
  /\ exists (command : string) (outcome : ExecOutcome) (argv : list string),
       In (EvExec command outcome)
          (trace_of Sim.os (callTool projectServer projectCwd Num.enUS "repomix" blankPathRequest)
                    (Sim.project (Sim.writes "packed") false))
       /\ command = JS.join " " (commandParts blankPathArgs scenarioTemp)
       /\ command = "npx repomix my dir --output " +:+ scenarioTemp
       /\ Shell.words command = Some argv
       /\ argv = ["npx"; "repomix"; "my"; "dir"; "--output"; scenarioTemp]
       /\ ~ In "my dir" argv.
Proof.
  split; [| split; [| split; [| split; [| split; [| split; [| split]]]]]].
  - intros args p Hp Hne. unfold pathPart. rewrite Hp. cbn [JS.truthy default].
    apply String.eqb_neq in Hne. now rewrite Hne.
  - intros args s Hs. unfold stylePart. now rewrite Hs.
  - intros args r Hr Hne. unfold remotePart. rewrite Hr. cbn [JS.truthy default].
    apply String.eqb_neq in Hne. now rewrite Hne.
  - intros args v Hv Hne. unfold includePart. rewrite Hv. cbn [JS.truthy default].
    apply String.eqb_neq in Hne. now rewrite Hne.
  - intros args v Hv Hne. unfold ignorePart. rewrite Hv. cbn [JS.truthy default].
    apply String.eqb_neq in Hne. now rewrite Hne.
  - reflexivity.
  - reflexivity.
  - exists ("npx repomix my dir --output " +:+ scenarioTemp), (Exited 0 "" ""),
      ["npx"; "repomix"; "my"; "dir"; "--output"; scenarioTemp].
    split; [vm_compute; tauto |]. split; [vm_compute; reflexivity |].
    split; [reflexivity |]. split; [vm_compute; reflexivity |].
    split; [reflexivity |].
    intros H. vm_compute in H. repeat destruct H as [H | H]; try discriminate H. exact H.
Qed.

(** ** The outcomes of the execution unit *)

Section UnitOutcomes.

Context {World : Type}.
Variable os : forall X : Type, Eff X -> World -> X * World.
Variable locale : Num.Locale.

(** [executeAndRetrieve] always returns a result, along one of the five
    ways of [UnitRun]; its last call is the forced removal of the
    artifact, and the world it leaves is the one that removal left. *)
Lemma executeAndRetrieve_runs (isEstimate : bool) (args : RepomixArgs)
      (tempFilePath command : string) (w : World) :
  exists (tr pre : list Event) (r : ToolResult) (w0 : World),
    run os (executeAndRetrieve locale isEstimate args tempFilePath command) w
    = (tr, Returned r, snd (os _ (Rm tempFilePath true) w0))
    /\ UnitRun locale isEstimate args tempFilePath command tr r
    /\ tr = pre ++ [EvRm tempFilePath true (fst (os _ (Rm tempFilePath true) w0))]
    /\ hd_error pre = Some (EvExec command (fst (os _ (Exec command) w))).
Proof.
  rewrite run_executeAndRetrieve. cbn zeta.
  destruct (os _ (Exec command) w) as [o w1] eqn:Hexec. cbn [fst snd].
  destruct (execSettled command o) as [result | error] eqn:Hsettled.
  - destruct isEstimate.
    + destruct (os _ (Stat tempFilePath) w1) as [[n | e] w2] eqn:Hstat; cbn [fst snd].
      * exists [EvExec command o; EvStat tempFilePath (Ok n);
                EvRm tempFilePath true (fst (os _ (Rm tempFilePath true) w2))],
          [EvExec command o; EvStat tempFilePath (Ok n)], (estimateResult locale n args), w2.
        split; [reflexivity |]. split; [now apply RunEstimated with (result := result) |].
        split; reflexivity.
      * exists [EvExec command o; EvStat tempFilePath (Err e);
                EvRm tempFilePath true (fst (os _ (Rm tempFilePath true) w2));
                EvRm tempFilePath true
                     (fst (os _ (Rm tempFilePath true) (snd (os _ (Rm tempFilePath true) w2))))],
          [EvExec command o; EvStat tempFilePath (Err e);
           EvRm tempFilePath true (fst (os _ (Rm tempFilePath true) w2))],
          (executionError (stderr result) (estimationFailure (stderr result) e)),
          (snd (os _ (Rm tempFilePath true) w2)).
        split; [reflexivity |]. split; [now apply RunStatFailed |].
        split; reflexivity.
    + destruct (os _ (ReadFile tempFilePath) w1) as [[c | e] w2] eqn:Hread; cbn [fst snd].
      * exists [EvExec command o; EvReadFile tempFilePath (Ok c);
                EvRm tempFilePath true (fst (os _ (Rm tempFilePath true) w2))],
          [EvExec command o; EvReadFile tempFilePath (Ok c)], (contentResult c), w2.
        split; [reflexivity |]. split; [now apply RunRetrieved with (result := result) |].
        split; reflexivity.
      * exists [EvExec command o; EvReadFile tempFilePath (Err e);
                EvRm tempFilePath true (fst (os _ (Rm tempFilePath true) w2))],
          [EvExec command o; EvReadFile tempFilePath (Err e)],
          (executionError (stderr result) (readFailure (stderr result) e)), w2.
        split; [reflexivity |]. split; [now apply RunReadFailed |].
        split; reflexivity.
  - exists [EvExec command o; EvRm tempFilePath true (fst (os _ (Rm tempFilePath true) w1))],
      [EvExec command o], (executionError "" error), w1.
    split; [reflexivity |]. split; [now apply RunExecFailed |].
    split; reflexivity.
Qed.

(** Refusing every removal changes neither what is returned nor the
    calls made before the first removal. *)
Lemma executeAndRetrieve_rmRefusing (x : Exn) (isEstimate : bool) (args : RepomixArgs)
      (tempFilePath command : string) (w : World) :
  outcome_of (rmRefusing os x) (executeAndRetrieve locale isEstimate args tempFilePath command) w
  = outcome_of os (executeAndRetrieve locale isEstimate args tempFilePath command) w.
Proof.
  unfold outcome_of. rewrite !run_executeAndRetrieve. cbn zeta.
  change (rmRefusing os x _ (Exec command) w) with (os _ (Exec command) w).
  destruct (os _ (Exec command) w) as [o w1]. cbn [fst snd].
  destruct (execSettled command o) as [result | error]; [| reflexivity].
  destruct isEstimate.
  - change (rmRefusing os x _ (Stat tempFilePath) w1) with (os _ (Stat tempFilePath) w1).
    destruct (os _ (Stat tempFilePath) w1) as [[n | e] w2]; reflexivity.
  - change (rmRefusing os x _ (ReadFile tempFilePath) w1)
      with (os _ (ReadFile tempFilePath) w1).
    destruct (os _ (ReadFile tempFilePath) w1) as [[c | e] w2]; reflexivity.
Qed.

Variable this : RepomixMCPServer.
Variable cwd : string.

Lemma securityCheck_rmRefusing (x : Exn) (args : RepomixArgs) (w : World) :
  run (rmRefusing os x) (securityCheck this cwd args) w
  = run os (securityCheck this cwd args) w.
Proof.
  rewrite !run_securityCheck.
  destruct (JS.truthy (path args) && negb (JS.truthy (remote args))); [| reflexivity].
  rewrite !run_isPathAllowed. reflexivity.
Qed.

Lemma executionUnit_rmRefusing (x : Exn) (isEstimate : bool) (args : RepomixArgs) (w : World) :
  outcome_of (rmRefusing os x) (executionUnit locale isEstimate args) w
  = outcome_of os (executionUnit locale isEstimate args) w.
Proof.
  unfold outcome_of. rewrite !run_executionUnit. cbn zeta.
  change (rmRefusing os x _ (RandomBytes 8) w) with (os _ (RandomBytes 8) w).
  destruct (os _ (RandomBytes 8) w) as [bytes w1]. cbn [fst snd].
  change (rmRefusing os x _ Tmpdir w1) with (os _ Tmpdir w1).
  destruct (os _ Tmpdir w1) as [tmp w2]. cbn [fst snd].
  pose proof (executeAndRetrieve_rmRefusing x isEstimate args
                (Path.join tmp (tempFileNameOf bytes))
                (JS.join " " (commandParts args (Path.join tmp (tempFileNameOf bytes)))) w2)
    as H.
  unfold outcome_of in H.
  destruct (run (rmRefusing os x) _ w2) as [[tr1 o1] w3].
  destruct (run os (executeAndRetrieve locale _ _ _ _) w2) as [[tr2 o2] w4].
  exact H.
Qed.

(** The handler, whatever the name and the arguments. *)
Lemma callTool_rmRefusing (x : Exn) (toolName : string) (arguments : option Json) (w : World) :
  outcome_of (rmRefusing os x) (callTool this cwd locale toolName arguments) w
  = outcome_of os (callTool this cwd locale toolName arguments) w.
Proof.
  unfold outcome_of, callTool.
  destruct (negb (String.eqb toolName "repomix")
            && negb (String.eqb toolName "repomix-estimate")); [reflexivity |].
  destruct (RepomixArgsSchema_parse arguments) as [args | e]; [| reflexivity].
  cbn [liftResult bind]. rewrite !run_bind, securityCheck_rmRefusing.
  destruct (run os (securityCheck this cwd args) w) as [[tr [allowed | e]] w1];
    [| reflexivity].
  destruct allowed; cbn [negb]; [| reflexivity].
  pose proof (executionUnit_rmRefusing x (String.eqb toolName "repomix-estimate") args w1)
    as H.
  unfold outcome_of in H.
  destruct (run (rmRefusing os x) _ w1) as [[tr1 o1] w3].
  destruct (run os (executionUnit locale _ _) w1) as [[tr2 o2] w4].
  exact H.
Qed.

(** Every run of the handler, sorted: it throws before any call (unknown
    name, arguments off the schema); or the guard denies; or the
    execution unit runs, after the guard's calls, the two calls that name
    the artifact and one of the ways of [UnitRun]. *)
Lemma callTool_runs (toolName : string) (arguments : option Json) (w : World) :
  (exists e : Exn, run os (callTool this cwd locale toolName arguments) w = ([], Thrown e, w))
  \/ (exists (args : RepomixArgs) (guard : list Event) (w1 : World),
         RepomixArgsSchema_parse arguments = Ok args
         /\ forallb isRealpath guard = true
         /\ run os (callTool this cwd locale toolName arguments) w
            = (guard, Returned (accessDenied this args), w1))
  \/ (exists (args : RepomixArgs) (guard unit pre : list Event) (bytes : list Byte.byte)
             (tmp : string) (r : ToolResult) (w0 : World),
         let tempFilePath := Path.join tmp (tempFileNameOf bytes) in
         let command := JS.join " " (commandParts args tempFilePath) in
         In toolName ["repomix"; "repomix-estimate"]
         /\ RepomixArgsSchema_parse arguments = Ok args
         /\ forallb isRealpath guard = true
         /\ run os (callTool this cwd locale toolName arguments) w
            = (guard ++ EvRandomBytes 8 bytes :: EvTmpdir tmp :: unit, Returned r,
               snd (os _ (Rm tempFilePath true) w0))
         /\ UnitRun locale (String.eqb toolName "repomix-estimate") args tempFilePath command unit r
         /\ unit = pre ++ [EvRm tempFilePath true (fst (os _ (Rm tempFilePath true) w0))]
         /\ (exists o : ExecOutcome, hd_error pre = Some (EvExec command o))).
Proof.
  destruct (negb (String.eqb toolName "repomix")
            && negb (String.eqb toolName "repomix-estimate")) eqn:Hname.
  { left. unfold callTool. rewrite Hname. eexists. reflexivity. }
  assert (Hknown : In toolName ["repomix"; "repomix-estimate"]).
  { apply andb_false_iff in Hname as [H | H]; apply negb_false_iff, String.eqb_eq in H;
      subst; cbn; auto. }
  destruct (RepomixArgsSchema_parse arguments) as [args | e] eqn:Hparse.
  2:{ left. unfold callTool. rewrite Hname, Hparse. eexists. reflexivity. }
  rewrite (run_callTool os locale this cwd toolName arguments args w Hknown Hparse).
  destruct (securityCheck_shape os this cwd args w) as (guard & allowed & w1 & Hrun & Hreal & _).
  rewrite Hrun. destruct allowed.
  - right. right. rewrite run_executionUnit. cbn zeta.
    destruct (os _ (RandomBytes 8) w1) as [bytes w2]. cbn [fst snd].
    destruct (os _ Tmpdir w2) as [tmp w3]. cbn [fst snd].
    destruct (executeAndRetrieve_runs (String.eqb toolName "repomix-estimate") args
                (Path.join tmp (tempFileNameOf bytes))
                (JS.join " " (commandParts args (Path.join tmp (tempFileNameOf bytes)))) w3)
      as (unit & pre & r & w0 & Hunit & Hway & Hlast & Hfirst).
    rewrite Hunit.
    exists args, guard, unit, pre, bytes, tmp, r, w0. cbn zeta.
    repeat (split; [assumption || reflexivity |]). eexists. exact Hfirst.
  - right. left. exists args, guard, w1. repeat split; assumption || reflexivity.
Qed.

End UnitOutcomes.

(** ** The figures of the estimate *)

Section Figures.

(** [Math.ceil(n / 4)] is the least integer not below [n / 4]. *)
Lemma ceil_div4_spec (n : N) :
  (n <= 4 * Num.ceil_div4 n /\ 4 * Num.ceil_div4 n < n + 4)%N.
Proof.
  unfold Num.ceil_div4.
  pose proof (N.div_mod (n + 3) 4 ltac:(discriminate)) as Hdm.
  pose proof (N.mod_lt (n + 3) 4 ltac:(discriminate)) as Hlt.
  revert Hdm Hlt.
  generalize ((n + 3) / 4)%N as q, ((n + 3) mod 4)%N as r. intros q r Hdm Hlt. lia.
Qed.

(** The hundredths are the nearest to [n / d], halves going up: twice
    the distance between [h / 100] and [n / d] is at most [1 / 100]. *)
Lemma hundredths_spec (n d : N) :
  (0 < d)%N ->
  (2 * d * Num.hundredths n d <= 200 * n + d
   /\ 200 * n + d < 2 * d * Num.hundredths n d + 2 * d)%N.
Proof.
  intros Hd. unfold Num.hundredths.
  pose proof (N.div_mod (200 * n + d) (2 * d) ltac:(lia)) as Hdm.
  pose proof (N.mod_lt (200 * n + d) (2 * d) ltac:(lia)) as Hlt.
  revert Hdm Hlt.
  generalize ((200 * n + d) / (2 * d))%N as q, ((200 * n + d) mod (2 * d))%N as r.
  intros q r Hdm Hlt. nia.
Qed.

Lemma string_of_uint_digits (d : Decimal.uint) :
  forallb Num.isDigit (list_ascii_of_string (NilEmpty.string_of_uint d)) = true.
Proof. induction d; cbn [NilEmpty.string_of_uint list_ascii_of_string forallb]; auto. Qed.

Lemma decimal_digits (n : N) :
  forallb Num.isDigit (list_ascii_of_string (Num.decimal n)) = true.
Proof.
  unfold Num.decimal, NilZero.string_of_uint.
  destruct (N.to_uint n); try reflexivity; apply string_of_uint_digits.
Qed.

(** A separator that is no digit differs from every digit. *)
Lemma digit_not_separator (sep c : ascii) :
  Num.isDigit sep = false -> Num.isDigit c = true -> Ascii.eqb c sep = false.
Proof.
  intros Hsep H. destruct (Ascii.eqb_spec c sep) as [-> | _]; [congruence | reflexivity].
Qed.

Lemma ungroup_app (sep : ascii) (a b : string) :
  Num.ungroup sep (a +:+ b) = Num.ungroup sep a +:+ Num.ungroup sep b.
Proof.
  induction a as [| c a IH]; [reflexivity |].
  rewrite append_String. cbn [Num.ungroup].
  destruct (Ascii.eqb c sep); [exact IH |].
  rewrite append_String, IH. reflexivity.
Qed.

Lemma string_of_list_ascii_app (a b : list ascii) :
  string_of_list_ascii (a ++ b) = string_of_list_ascii a +:+ string_of_list_ascii b.
Proof.
  induction a as [| c a IH]; [reflexivity |].
  cbn [app string_of_list_ascii]. rewrite append_String, IH. reflexivity.
Qed.

(** Taking the separators out of the grouped digits gives the digits back. *)
Lemma ungroup_group3 (sep : ascii) (digits : list ascii) (k : nat) :
  Num.isDigit sep = false ->
  forallb Num.isDigit digits = true ->
  Num.ungroup sep (string_of_list_ascii (rev (Num.group3 sep digits k)))
  = string_of_list_ascii (rev digits).
Proof.
  intros Hsep.
  revert k. induction digits as [| d rest IH]; intros k Hd; [reflexivity |].
  cbn [forallb] in Hd. apply andb_true_iff in Hd as [Hd Hrest].
  cbn [Num.group3].
  destruct (Nat.eqb k 3).
  - change (sep :: d :: Num.group3 sep rest 1)
      with ([sep] ++ [d] ++ Num.group3 sep rest 1).
    rewrite !rev_app_distr, !string_of_list_ascii_app, !ungroup_app, IH by assumption.
    cbn [rev app string_of_list_ascii Num.ungroup]. rewrite Ascii.eqb_refl.
    rewrite (digit_not_separator sep d Hsep Hd), append_empty_r, string_of_list_ascii_app.
    reflexivity.
  - cbn [rev]. rewrite !string_of_list_ascii_app, ungroup_app, IH by assumption.
    cbn [string_of_list_ascii Num.ungroup]. rewrite (digit_not_separator sep d Hsep Hd).
    reflexivity.
Qed.

Lemma forallb_reversed {A : Type} (p : A -> bool) (l : list A) :
  forallb p l = true -> forallb p (rev l) = true.
Proof.
  rewrite !forallb_forall. intros H x Hx. apply H. now apply in_rev.
Qed.

(** A grouped token count shows the decimal digits of the count, whatever
    the separator of the locale, as long as it is no digit. *)
Lemma ungroup_grouped (sep : ascii) (n : N) :
  Num.isDigit sep = false ->
  Num.ungroup sep (Num.grouped sep n) = Num.decimal n.
Proof.
  intros Hsep. unfold Num.grouped. cbn zeta.
  rewrite ungroup_group3.
  - rewrite rev_involutive. apply string_of_list_ascii_of_string.
  - exact Hsep.
  - apply forallb_reversed, decimal_digits.
Qed.

End Figures.

(** ** Cleanup, estimate and failure *)

Ltac in_cases :=
  repeat match goal with
         | H : In _ (_ :: _) |- _ => destruct H as [H | H]
         | H : In _ [] |- _ => destruct H
         end.

Section UnitClaims.

Context {World : Type}.
Variable os : forall X : Type, Eff X -> World -> X * World.
Variable locale : Num.Locale.
Variable this : RepomixMCPServer.
Variable cwd : string.

Lemma guard_event (guard : list Event) (ev : Event) :
  forallb isRealpath guard = true -> In ev guard -> isRealpath ev = true.
Proof. rewrite forallb_forall. auto. Qed.

(** An event that is no [realpath] lies after the guard's calls. *)
Lemma after_guard (guard rest : list Event) (ev : Event) :
  forallb isRealpath guard = true -> isRealpath ev = false ->
  In ev (guard ++ rest) -> In ev rest.
Proof.
  intros Hg Hev Hin. apply in_app_or in Hin as [Hin | Hin]; [| exact Hin].
  rewrite (guard_event guard ev Hg Hin) in Hev. discriminate Hev.
Qed.

Lemma existsb_guard (p : Event -> bool) (guard : list Event) :
  forallb isRealpath guard = true ->
  (forall ev : Event, isRealpath ev = true -> p ev = false) ->
  existsb p guard = false.
Proof.
  intros Hg Hp. induction guard as [| ev guard IH]; [reflexivity |].
  cbn [forallb] in Hg. apply andb_true_iff in Hg as [Hev Hrest].
  cbn [existsb]. now rewrite (Hp ev Hev), (IH Hrest).
Qed.

(** C2.  Take any operating system and any way of telling which files
    exist, such that a forced [rm] that succeeds leaves no file under the
    path.  Every run of the handler that reached the execution unit (it
    drew random bytes for the temporary name) returns a result and does
    not throw; the last call of the run is the forced removal of the
    temporary file, after the command was executed; if that removal
    succeeded the file does not exist when the handler returns; and the
    result is the same when every removal fails instead: a failed
    removal is swallowed and changes nothing in what is returned.  The
    run went one of the five ways of [UnitRun], which cover the failed
    command (launch failure or non-zero exit), both ends of the estimate
    and both ends of the retrieval. *)
Theorem artifact_always_removed (fileExists : World -> string -> bool)
        (toolName : string) (arguments : option Json) (w : World) :
  (forall (p : string) (w0 : World),
      fst (os _ (Rm p true) w0) = Ok tt ->
      fileExists (snd (os _ (Rm p true) w0)) p = false) ->
  existsb isRandomBytes (trace_of os (callTool this cwd locale toolName arguments) w) = true ->
  exists (args : RepomixArgs) (bytes : list Byte.byte) (tmp : string)
         (guard body pre : list Event) (removal : Result unit) (r : ToolResult),
    let tempFilePath := Path.join tmp (tempFileNameOf bytes) in
    let command := JS.join " " (commandParts args tempFilePath) in
    trace_of os (callTool this cwd locale toolName arguments) w
    = guard ++ EvRandomBytes 8 bytes :: EvTmpdir tmp :: body
    /\ forallb isRealpath guard = true
    /\ body = pre ++ [EvRm tempFilePath true removal]
    /\ existsb isExec pre = true
    /\ UnitRun locale (String.eqb toolName "repomix-estimate") args tempFilePath command body r
    /\ outcome_of os (callTool this cwd locale toolName arguments) w = Returned r
    /\ (removal = Ok tt ->
        fileExists (world_after os (callTool this cwd locale toolName arguments) w) tempFilePath
        = false)
    /\ (forall x : Exn,
           outcome_of (rmRefusing os x) (callTool this cwd locale toolName arguments) w
           = Returned r).
Proof.
  intros Hrm Hreached.
  destruct (callTool_runs os locale this cwd toolName arguments w)
    as [(e & Hrun) | [(args & guard & w1 & Hparse & Hguard & Hrun)
                     | (args & guard & unit & pre & bytes & tmp & r & w0 & Hrest)]].
  - unfold trace_of in Hreached. rewrite Hrun in Hreached. discriminate Hreached.
  - unfold trace_of in Hreached. rewrite Hrun in Hreached. cbn [fst] in Hreached.
    rewrite existsb_guard in Hreached; [discriminate Hreached | assumption |].
    intros ev Hev. destruct ev; try discriminate Hev; reflexivity.
  - cbn zeta in Hrest.
    destruct Hrest as (Hknown & Hparse & Hguard & Hrun & Hway & Hlast & (o & Hfirst)).
    exists args, bytes, tmp, guard, unit, pre,
      (fst (os _ (Rm (Path.join tmp (tempFileNameOf bytes)) true) w0)), r.
    cbn zeta. unfold trace_of, outcome_of, world_after. rewrite Hrun. cbn [fst snd].
    split; [reflexivity |]. split; [assumption |]. split; [assumption |].
    split; [| split; [assumption | split; [reflexivity | split]]].
    + destruct pre as [| ev pre']; [discriminate Hfirst |].
      injection Hfirst as ->. reflexivity.
    + apply Hrm.
    + intros x.
      change (outcome_of (rmRefusing os x) (callTool this cwd locale toolName arguments) w
              = Returned r).
      rewrite callTool_rmRefusing. unfold outcome_of. rewrite Hrun. reflexivity.
Qed.

(** A successful [stat] in a run of the estimate tool: the run returned
    the estimate of that size and read no file. *)
Lemma estimate_success (arguments : option Json) (args : RepomixArgs) (w : World)
      (p : string) (n : N) :
  RepomixArgsSchema_parse arguments = Ok args ->
  In (EvStat p (Ok n)) (trace_of os (callTool this cwd locale "repomix-estimate" arguments) w) ->
  outcome_of os (callTool this cwd locale "repomix-estimate" arguments) w
  = Returned (estimateResult locale n args)
  /\ existsb isReadFile (trace_of os (callTool this cwd locale "repomix-estimate" arguments) w)
     = false.
Proof.
  intros Hparse Hstat.
  destruct (callTool_runs os locale this cwd "repomix-estimate" arguments w)
    as [(e & Hrun) | [(args' & guard & w1 & Hparse' & Hguard & Hrun)
                     | (args' & guard & unit & pre & bytes & tmp & r & w0 & Hrest)]];
    unfold trace_of, outcome_of in *.
  - rewrite Hrun in Hstat. destruct Hstat.
  - rewrite Hrun in Hstat. cbn [fst] in Hstat.
    apply (guard_event guard _ Hguard) in Hstat. discriminate Hstat.
  - cbn zeta in Hrest.
    destruct Hrest as (_ & Hparse' & Hguard & Hrun & Hway & _ & _).
    rewrite Hparse in Hparse'. injection Hparse' as <-.
    rewrite Hrun in Hstat |- *. cbn [fst snd] in Hstat |- *.
    apply after_guard in Hstat; [| assumption | reflexivity].
    destruct Hstat as [Hstat | [Hstat | Hstat]]; [discriminate Hstat | discriminate Hstat |].
    assert (Hnoguard : existsb isReadFile guard = false).
    { apply existsb_guard; [assumption |].
      intros ev Hev. destruct ev; try discriminate Hev; reflexivity. }
    rewrite existsb_app, Hnoguard. cbn [existsb isReadFile orb].
    inversion Hway as [o error rm1 Hs | o result sz rm1 Hest Hs | o result error rm1 rm2 Hest Hs
                      | o result c rm1 Hest Hs | o result re rm1 Hest Hs];
      subst; in_cases; try discriminate.
    injection Hstat as -> ->. split; reflexivity.
Qed.

(** C4, as the code has it.  In a run of the estimate tool in which the command
    exited with status 0 and the [stat] of the artifact gave [n] bytes (a
    size binary64 holds exactly), the handler returns one block of type
    [text] and no error flag.  The text reads: the size in KB and in MB,
    each the number of hundredths nearest to [n / 1024] and [n / 1048576]
    (halves up) printed with two decimals; the least integer not below
    [n / 4], written as the default locale of the process renders it (its
    decimal digits once the separators are taken out, where the locale
    groups Western digits by threes); and [enabled] exactly when the
    request's [compress] is [true].  For 5396 bytes and [compress] true the
    text contains [Size: 5.27 KB (0.01 MB)] and [Compression: enabled] in
    every locale, and [Estimated tokens: ~1,349] where the locale renders
    the count as en-US does. *)
Theorem estimate_figures (arguments : option Json) (args : RepomixArgs) (w : World)
        (command out err p : string) (n : N) :
  (n < 2 ^ 53)%N ->
  RepomixArgsSchema_parse arguments = Ok args ->
  In (EvExec command (Exited 0 out err))
     (trace_of os (callTool this cwd locale "repomix-estimate" arguments) w) ->
  In (EvStat p (Ok n)) (trace_of os (callTool this cwd locale "repomix-estimate" arguments) w) ->
  let tokens := Num.ceil_div4 n in
  let kb := Num.hundredths n 1024 in
  let mb := Num.hundredths n (1024 * 1024) in
  outcome_of os (callTool this cwd locale "repomix-estimate" arguments) w
  = Returned {| content := [{| type := "text"; text := estimateText locale n args |}];
                isError := None |}
  /\ estimateText locale n args
     = "Repomix output size estimate:" +:+ JS.nl
       +:+ "- Size: " +:+ Num.toFixed2 n 1024 +:+ " KB ("
       +:+ Num.toFixed2 n (1024 * 1024) +:+ " MB)" +:+ JS.nl
       +:+ "- Estimated tokens: ~" +:+ locale tokens +:+ JS.nl
       +:+ "- Compression: "
       +:+ (if JS.truthy_bool (compress args) then "enabled" else "disabled")
       +:+ JS.nl +:+ JS.nl
       +:+ "Use the repomix tool with these same parameters to retrieve the actual content."
  /\ (n <= 4 * tokens /\ 4 * tokens < n + 4)%N
  /\ (forall sep : ascii,
        Num.isDigit sep = false -> locale tokens = Num.grouped sep tokens ->
        Num.ungroup sep (locale tokens) = Num.decimal tokens)
  /\ Num.toFixed2 n 1024
     = Num.decimal (kb / 100) +:+ "." +:+ Num.two_digits (kb mod 100)
  /\ (2048 * kb <= 200 * n + 1024 /\ 200 * n + 1024 < 2048 * kb + 2048)%N
  /\ Num.toFixed2 n (1024 * 1024)
     = Num.decimal (mb / 100) +:+ "." +:+ Num.two_digits (mb mod 100)
  /\ (2097152 * mb <= 200 * n + 1048576 /\ 200 * n + 1048576 < 2097152 * mb + 2097152)%N
  /\ (JS.truthy_bool (compress args) = true <-> compress args = Some true)
  /\ (n = 5396%N -> compress args = Some true ->
      JS.includes (estimateText locale n args) "Size: 5.27 KB (0.01 MB)" = true
      /\ JS.includes (estimateText locale n args) "Compression: enabled" = true
      /\ (locale tokens = Num.enUS tokens ->
          JS.includes (estimateText locale n args) "Estimated tokens: ~1,349" = true)).
Proof.
  intros Hsize Hparse Hexec Hstat tokens kb mb.
  destruct (estimate_success arguments args w p n Hparse Hstat) as [Hout _].
  split; [exact Hout |]. split; [reflexivity |].
  split; [apply ceil_div4_spec |].
  split; [intros sep Hsep ->; apply ungroup_grouped, Hsep |].
  split; [reflexivity |].
  split; [pose proof (hundredths_spec n 1024 ltac:(reflexivity)) as H; unfold kb; lia |].
  split; [reflexivity |].
  split; [pose proof (hundredths_spec n (1024 * 1024) ltac:(reflexivity)) as H;
          unfold mb; lia |].
  split.
  - destruct (compress args) as [[|] |]; cbn [JS.truthy_bool]; split; intros H;
      try reflexivity; discriminate H.
  - intros Hn Hc. subst n.
    assert (Htext : estimateText locale 5396 args
                    = ("Repomix output size estimate:" +:+ JS.nl
                       +:+ "- Size: 5.27 KB (0.01 MB)" +:+ JS.nl +:+ "- Estimated tokens: ~")
                      +:+ (locale tokens
                           +:+ (JS.nl +:+ "- Compression: enabled" +:+ JS.nl +:+ JS.nl
                                +:+ "Use the repomix tool with these same parameters to retrieve the actual content."))).
    { unfold estimateText. rewrite Hc. reflexivity. }
    rewrite Htext. split; [| split].
    + apply includes_app_l. vm_compute. reflexivity.
    + apply includes_app_r, includes_app_r. vm_compute. reflexivity.
    + intros ->. vm_compute. reflexivity.
Qed.

End UnitClaims.

(** C8.  Two runs of the estimate tool in processes of the same default
    locale, on any two operating systems, servers and requests: if the
    [stat] of the artifact gave the same size in both and the two requests
    carry the same [compress], both return one and the same result, a
    single block of type [text] whose text is computed from the size and
    the flag alone; and neither run ever read a file. *)
Theorem estimate_reveals_only_size {World World' : Type}
        (os : forall X : Type, Eff X -> World -> X * World)
        (os' : forall X : Type, Eff X -> World' -> X * World')
        (locale : Num.Locale)
        (this this' : RepomixMCPServer) (cwd cwd' : string)
        (arguments arguments' : option Json) (args args' : RepomixArgs)
        (w : World) (w' : World') (p p' : string) (n : N) :
  RepomixArgsSchema_parse arguments = Ok args ->
  RepomixArgsSchema_parse arguments' = Ok args' ->
  compress args = compress args' ->
  In (EvStat p (Ok n)) (trace_of os (callTool this cwd locale "repomix-estimate" arguments) w) ->
  In (EvStat p' (Ok n))
     (trace_of os' (callTool this' cwd' locale "repomix-estimate" arguments') w') ->
  exists r : ToolResult,
    outcome_of os (callTool this cwd locale "repomix-estimate" arguments) w = Returned r
    /\ outcome_of os' (callTool this' cwd' locale "repomix-estimate" arguments') w' = Returned r
    /\ r = {| content := [{| type := "text"; text := estimateText locale n args |}];
              isError := None |}
    /\ estimateText locale n args = estimateText locale n args'
    /\ existsb isReadFile (trace_of os (callTool this cwd locale "repomix-estimate" arguments) w)
       = false
    /\ existsb isReadFile
         (trace_of os' (callTool this' cwd' locale "repomix-estimate" arguments') w')
       = false.
Proof.
  intros Hparse Hparse' Hcompress Hstat Hstat'.
  destruct (estimate_success os locale this cwd arguments args w p n Hparse Hstat) as [Hout Hread].
  destruct (estimate_success os' locale this' cwd' arguments' args' w' p' n Hparse' Hstat')
    as [Hout' Hread'].
  assert (Heq : estimateText locale n args = estimateText locale n args').
  { unfold estimateText. rewrite Hcompress. reflexivity. }
  exists (estimateResult locale n args).
  split; [exact Hout |]. split.
  - rewrite Hout'. unfold estimateResult. rewrite Heq. reflexivity.
  - repeat split; assumption.
Qed.

(** ** The execution unit on the scenarios *)

(** In the simulated system a forced removal that succeeds leaves no file. *)
Lemma Sim_rm_removes (p : string) (w0 : Sim.World) :
  fst (Sim.os _ (Rm p true) w0) = Ok tt ->
  Sim.exists_ (snd (Sim.os _ (Rm p true) w0)) p = false.
Proof.
  unfold Sim.os, Sim.exists_. destruct (Sim.rmRefused w0); [discriminate |].
  destruct (Sim.files w0 !! p) as [c |] eqn:Hfile; intros _; cbn [snd Sim.files Sim.withFiles].
  - now rewrite lookup_delete_eq.
  - now rewrite Hfile.
Qed.

(** Scenario: [{path: ".", compress: true}] on the estimate tool, the tool
    writing 5396 bytes. *)
Lemma artifact_always_removed_witness :
  exists (args : RepomixArgs) (bytes : list Byte.byte) (tmp : string)
         (guard body pre : list Event) (removal : Result unit) (r : ToolResult),
    let tempFilePath := Path.join tmp (tempFileNameOf bytes) in
    let command := JS.join " " (commandParts args tempFilePath) in
    trace_of Sim.os (callTool projectServer projectCwd Num.enUS "repomix-estimate" estimateRequest)
             (Sim.project (Sim.writes scenarioArtifact) false)
    = guard ++ EvRandomBytes 8 bytes :: EvTmpdir tmp :: body
    /\ forallb isRealpath guard = true
    /\ body = pre ++ [EvRm tempFilePath true removal]
    /\ existsb isExec pre = true
    /\ UnitRun Num.enUS (String.eqb "repomix-estimate" "repomix-estimate") args tempFilePath command
               body r
    /\ outcome_of Sim.os (callTool projectServer projectCwd Num.enUS "repomix-estimate" estimateRequest)
                  (Sim.project (Sim.writes scenarioArtifact) false)
       = Returned r
    /\ (removal = Ok tt ->
        Sim.exists_
          (world_after Sim.os
             (callTool projectServer projectCwd Num.enUS "repomix-estimate" estimateRequest)
             (Sim.project (Sim.writes scenarioArtifact) false))
          tempFilePath = false)
    /\ (forall x : Exn,
           outcome_of (rmRefusing Sim.os x)
             (callTool projectServer projectCwd Num.enUS "repomix-estimate" estimateRequest)
             (Sim.project (Sim.writes scenarioArtifact) false)
           = Returned r).
Proof.
  apply (artifact_always_removed Sim.os Num.enUS projectServer projectCwd Sim.exists_
           "repomix-estimate" estimateRequest
           (Sim.project (Sim.writes scenarioArtifact) false)).
  - exact Sim_rm_removes.
  - vm_compute. reflexivity.
Defined.

(** The artifact is gone after each of the six outcomes, and is still
    there, with the same result returned, when the removal is refused. *)
Example cleanup_on_every_outcome :
  let gone p t := Sim.exists_ (world_after Sim.os p (Sim.project t false)) scenarioTemp in
  let estimate := callTool projectServer projectCwd Num.enUS "repomix-estimate" estimateRequest in
  let retrieve := callTool projectServer projectCwd Num.enUS "repomix" (request []) in
  gone estimate (Sim.writes "packed") = false
  /\ gone estimate (Sim.forgets "warning") = false
  /\ gone retrieve (Sim.writes "packed") = false
  /\ gone retrieve (Sim.forgets "warning") = false
  /\ gone retrieve Sim.unlaunchable = false
  /\ gone retrieve (Sim.crashes 1 "glob error" "partial") = false
  /\ Sim.exists_ (world_after Sim.os retrieve (Sim.project (Sim.crashes 1 "glob error" "partial") true))
                 scenarioTemp = true
  /\ outcome_of Sim.os retrieve (Sim.project (Sim.crashes 1 "glob error" "partial") true)
     = outcome_of Sim.os retrieve (Sim.project (Sim.crashes 1 "glob error" "partial") false).
Proof. repeat split; vm_compute; reflexivity. Qed.

Lemma estimate_figures_witness :
  outcome_of Sim.os (callTool projectServer projectCwd Num.enUS "repomix-estimate" estimateRequest)
             (Sim.project (Sim.writes scenarioArtifact) false)
  = Returned {| content := [{| type := "text";
                               text := estimateText Num.enUS 5396 estimateArgs |}];
                isError := None |}
  /\ JS.includes (estimateText Num.enUS 5396 estimateArgs) "Size: 5.27 KB (0.01 MB)" = true
  /\ JS.includes (estimateText Num.enUS 5396 estimateArgs) "Compression: enabled" = true
  /\ JS.includes (estimateText Num.enUS 5396 estimateArgs) "Estimated tokens: ~1,349" = true.
Proof.
  destruct (estimate_figures Sim.os Num.enUS projectServer projectCwd estimateRequest estimateArgs
              (Sim.project (Sim.writes scenarioArtifact) false)
              ("npx repomix . --compress --output " +:+ scenarioTemp) "" "" scenarioTemp 5396)
    as (Hout & _ & _ & _ & _ & _ & _ & _ & _ & Hscenario).
  - reflexivity.
  - reflexivity.
  - vm_compute. tauto.
  - vm_compute. tauto.
  - split; [exact Hout |].
    destruct (Hscenario eq_refl eq_refl) as (Hsize & Hcompress & Htokens).
    split; [exact Hsize |]. split; [exact Hcompress |]. apply Htokens. reflexivity.
Defined.

(** C4 as stated fails on the locale: the same run in a process whose
    default locale is de-DE shows the count as [1.349], and the line
    [Estimated tokens: ~1,349] is not in the text. *)
Lemma estimate_tokens_follow_locale :
  exists t : string,
    outcome_of Sim.os
      (callTool projectServer projectCwd Num.deDE "repomix-estimate" estimateRequest)
      (Sim.project (Sim.writes scenarioArtifact) false)
    = Returned {| content := [{| type := "text"; text := t |}]; isError := None |}
    /\ JS.includes t "Size: 5.27 KB (0.01 MB)" = true
    /\ JS.includes t "Compression: enabled" = true
    /\ JS.includes t "Estimated tokens: ~1.349" = true
    /\ JS.includes t "Estimated tokens: ~1,349" = false.
Proof.
  exists (estimateText Num.deDE 5396 estimateArgs).
  repeat split; vm_compute; reflexivity.
Qed.

(** Two artifacts of four bytes with different contents, asked for with
    different paths and styles but the same [compress]. *)
Lemma estimate_reveals_only_size_witness :
  exists r : ToolResult,
    outcome_of Sim.os (callTool projectServer projectCwd Num.enUS "repomix-estimate" estimateRequest)
               (Sim.project (Sim.writes "aaaa") false) = Returned r
    /\ outcome_of Sim.os
         (callTool projectServer projectCwd Num.enUS "repomix-estimate" srcEstimateRequest)
         (Sim.project (Sim.writes "bbbb") true) = Returned r
    /\ r = {| content := [{| type := "text"; text := estimateText Num.enUS 4 estimateArgs |}];
              isError := None |}
    /\ estimateText Num.enUS 4 estimateArgs = estimateText Num.enUS 4 srcEstimateArgs
    /\ existsb isReadFile
         (trace_of Sim.os (callTool projectServer projectCwd Num.enUS "repomix-estimate" estimateRequest)
                   (Sim.project (Sim.writes "aaaa") false)) = false
    /\ existsb isReadFile
         (trace_of Sim.os
            (callTool projectServer projectCwd Num.enUS "repomix-estimate" srcEstimateRequest)
            (Sim.project (Sim.writes "bbbb") true)) = false.
Proof.
  apply (estimate_reveals_only_size Sim.os Sim.os Num.enUS projectServer projectServer
           projectCwd projectCwd estimateRequest srcEstimateRequest
           estimateArgs srcEstimateArgs
           (Sim.project (Sim.writes "aaaa") false) (Sim.project (Sim.writes "bbbb") true)
           scenarioTemp scenarioTemp 4).
  - reflexivity.
  - reflexivity.
  - reflexivity.
  - vm_compute. tauto.
  - vm_compute. tauto.
Defined.

(** The retrieval, for contrast, returns the content. *)
Example retrieval_returns_content :
  outcome_of Sim.os (callTool projectServer projectCwd Num.enUS "repomix" (request [("path", JString ".")]))
             (Sim.project (Sim.writes "aaaa") false)
  = Returned {| content := [textBlock "aaaa"]; isError := None |}.
Proof. vm_compute. reflexivity. Qed.

Section Failure.

Context {World : Type}.
Variable os : forall X : Type, Eff X -> World -> X * World.
Variable locale : Num.Locale.

(** When the command exits with a status other than 0, whatever the
    mode, the result is error-flagged and its text is the prefix
    followed by the message of the rejection: [Command failed: ], the
    command, a line feed and the captured standard error.  The variable
    [stderr] is still empty at that point, so no [Stderr: ] line
    follows. *)
Lemma nonzero_exit_result (isEstimate : bool) (args : RepomixArgs)
      (tempFilePath command : string) (w : World) (code : Z) (out err : string) :
  fst (os _ (Exec command) w) = Exited code out err ->
  code <> 0%Z ->
  outcome_of os (executeAndRetrieve locale isEstimate args tempFilePath command) w
  = Returned {| content := [textBlock ("Error executing repomix: Command failed: "
                                       +:+ command +:+ JS.nl +:+ err)];
                isError := Some true |}.
Proof.
  intros Hexec Hcode. unfold outcome_of. rewrite run_executeAndRetrieve. cbn zeta.
  rewrite Hexec. unfold execSettled. apply Z.eqb_neq in Hcode. rewrite Hcode.
  cbn [fst snd]. unfold executionError, stderrSuffix. cbn [JS.truthy String.eqb negb message].
  rewrite append_empty_r. reflexivity.
Qed.

(** When the command exited with status 0 and the read fails afterwards,
    the captured standard error is reported, twice. *)
Lemma read_failure_result (args : RepomixArgs) (tempFilePath command : string) (w : World)
      (out err : string) (readError : Exn) :
  fst (os _ (Exec command) w) = Exited 0 out err ->
  fst (os _ (ReadFile tempFilePath) (snd (os _ (Exec command) w))) = Err readError ->
  outcome_of os (executeAndRetrieve locale false args tempFilePath command) w
  = Returned {| content :=
                  [textBlock ("Error executing repomix: Failed to read output file: "
                              +:+ message readError
                              +:+ stderrSuffix "Repomix stderr" err
                              +:+ stderrSuffix "Stderr" err)];
                isError := Some true |}.
Proof.
  intros Hexec Hread. unfold outcome_of. rewrite run_executeAndRetrieve. cbn zeta.
  rewrite Hexec. cbn [execSettled Z.eqb fst snd]. rewrite Hread.
  unfold executionError, readFailure. cbn [message stderr].
  rewrite !append_assoc. reflexivity.
Qed.

End Failure.

(** C6.  The request [{}] on [repomix], the command exiting with status 1
    and [glob error] on its standard error.  The result is error-flagged
    and its text is [Error executing repomix: Command failed: ] followed by
    the command, a line feed and [glob error]: it contains the prefix and
    the words of the standard error, but not [Stderr: glob error]. *)
Theorem glob_error_text :
  let run := callTool projectServer projectCwd Num.enUS "repomix" (request []) in
  let w := Sim.project (Sim.fails 1 "glob error") false in
  let shown := "Error executing repomix: Command failed: npx repomix --output "
               +:+ scenarioTemp +:+ JS.nl +:+ "glob error" in
  trace_of Sim.os run w
  = [EvRandomBytes 8 Sim.someBytes; EvTmpdir "/tmp";
     EvExec ("npx repomix --output " +:+ scenarioTemp) (Exited 1 "" "glob error");
     EvRm scenarioTemp true (Ok tt)]
  /\ outcome_of Sim.os run w
     = Returned {| content := [textBlock shown]; isError := Some true |}
  /\ JS.includes shown "Error executing repomix:" = true
  /\ JS.includes shown "glob error" = true
  /\ JS.includes shown "Stderr: glob error" = false.
Proof. repeat split; vm_compute; reflexivity. Qed.

(** ** The schema and the listing *)

Section Schema.

Lemma Style_roundtrip (s : Style) : Style_ofString (Style_toString s) = Some s.
Proof. destruct s; reflexivity. Qed.

Lemma Style_ofString_inv (str : string) (s : Style) :
  Style_ofString str = Some s -> str = Style_toString s.
Proof.
  unfold Style_ofString.
  destruct (String.eqb_spec str "xml") as [-> | _]; [intros [= <-]; reflexivity |].
  destruct (String.eqb_spec str "markdown") as [-> | _]; [intros [= <-]; reflexivity |].
  destruct (String.eqb_spec str "plain") as [-> | _]; [intros [= <-]; reflexivity |].
  discriminate.
Qed.

(** X1.  Parsing is a left inverse of serialising: the request object
    that carries exactly the fields of [args] (absent fields left out, the
    style by its name) parses, and parses to [args]. *)
Theorem parse_toArguments (args : RepomixArgs) :
  RepomixArgsSchema_parse (toArguments args) = Ok args.
Proof.
  destruct args as [p s c i g r].
  destruct p, s as [[| |] |], c, i, g, r; reflexivity.
Qed.

Lemma property_filter_known (key : string) (ps : list (string * Json)) :
  isSchemaKey key = true ->
  property key (List.filter (fun kv => isSchemaKey (fst kv)) ps) = property key ps.
Proof.
  intros Hkey. induction ps as [| [k v] ps IH]; [reflexivity |].
  cbn [List.filter fst property].
  destruct (isSchemaKey k) eqn:Hk.
  - cbn [property]. destruct (String.eqb k key); [reflexivity | exact IH].
  - destruct (String.eqb_spec k key) as [-> | _]; [congruence | exact IH].
Qed.

(** X2.  Properties the schema does not declare are dropped: an object
    parses exactly as the object without them does, whatever their names,
    their values and their places. *)
Theorem parse_ignores_unknown (ps : list (string * Json)) :
  RepomixArgsSchema_parse (Some (JObject ps))
  = RepomixArgsSchema_parse
      (Some (JObject (List.filter (fun kv => isSchemaKey (fst kv)) ps))).
Proof.
  unfold RepomixArgsSchema_parse.
  rewrite !property_filter_known by reflexivity. reflexivity.
Qed.

Lemma offending_parseString (key : string) (ps : list (string * Json)) :
  String.eqb key "compress" = false -> String.eqb key "style" = false ->
  offending ps key = match parseString (property key ps) with Some _ => false | None => true end.
Proof.
  intros H1 H2. unfold offending, conforms. rewrite H1, H2.
  destruct (property key ps) as [[] |]; reflexivity.
Qed.

Lemma offending_parseStyle (ps : list (string * Json)) :
  offending ps "style"
  = match parseStyle (property "style" ps) with Some _ => false | None => true end.
Proof.
  unfold offending, conforms. cbn [String.eqb Ascii.eqb Bool.eqb].
  destruct (property "style" ps) as [[| | | s | |] |]; try reflexivity.
  cbn [parseStyle]. destruct (Style_ofString s); reflexivity.
Qed.

Lemma offending_parseBoolean (ps : list (string * Json)) :
  offending ps "compress"
  = match parseBoolean (property "compress" ps) with Some _ => false | None => true end.
Proof.
  unfold offending, conforms. cbn [String.eqb Ascii.eqb Bool.eqb].
  destruct (property "compress" ps) as [[] |]; reflexivity.
Qed.

(** X3.  What the schema rejects, and how: an object is rejected exactly
    when some declared field holds a value off its type (a non-string for
    the four text fields, a non-boolean for [compress], anything but one of
    the three style names for [style]); the error then lists every
    offending field, in the order of the schema, and no other; an accepted
    object has none. *)
Theorem parse_reports_offending_fields (ps : list (string * Json)) :
  match RepomixArgsSchema_parse (Some (JObject ps)) with
  | Ok _ => List.filter (offending ps) schemaKeys = []
  | Err e =>
      e = ZodError (List.filter (offending ps) schemaKeys)
      /\ List.filter (offending ps) schemaKeys <> []
  end.
Proof.
  unfold RepomixArgsSchema_parse, schemaKeys. cbn [List.filter].
  rewrite (offending_parseString "path" ps eq_refl eq_refl),
    (offending_parseString "include" ps eq_refl eq_refl),
    (offending_parseString "ignore" ps eq_refl eq_refl),
    (offending_parseString "remote" ps eq_refl eq_refl),
    offending_parseStyle, offending_parseBoolean.
  destruct (parseString (property "path" ps)) as [p |];
    destruct (parseStyle (property "style" ps)) as [s |];
    destruct (parseBoolean (property "compress" ps)) as [c |];
    destruct (parseString (property "include" ps)) as [i |];
    destruct (parseString (property "ignore" ps)) as [g |];
    destruct (parseString (property "remote" ps)) as [r |];
    first [reflexivity | split; [reflexivity | discriminate]].
Qed.

(** Anything that is not an object, and the absence of arguments, is
    rejected. *)
Lemma parse_rejects_non_objects (arguments : option Json) :
  (forall ps : list (string * Json), arguments <> Some (JObject ps)) ->
  RepomixArgsSchema_parse arguments = Err (ZodError ["arguments"]).
Proof.
  intros H. destruct arguments as [[| | | | | ps] |]; try reflexivity.
  now contradiction (H ps).
Qed.

Lemma parse_error_is_ZodError (arguments : option Json) (e : Exn) :
  RepomixArgsSchema_parse arguments = Err e ->
  exists issues : list string, e = ZodError issues /\ issues <> [].
Proof.
  destruct arguments as [[| | | | | ps] |];
    try (intros [= <-]; eexists; split; [reflexivity | discriminate]).
  pose proof (parse_reports_offending_fields ps) as H.
  destruct (RepomixArgsSchema_parse (Some (JObject ps))) as [args | e']; [discriminate |].
  intros [= <-]. destruct H as [-> Hne]. eexists. split; [reflexivity | exact Hne].
Qed.

(** X4.  The listing and the schema agree on [style]: for each of the two
    tools, the style names the listing advertises are exactly the strings
    the schema accepts for the field, and an accepted name comes back as the
    style of that name. *)
Theorem advertised_styles_are_accepted (t : Tool) (s : string) :
  In t listTools ->
  (In s (advertisedStyles t) <->
   exists st : Style,
     RepomixArgsSchema_parse (Some (JObject [("style", JString s)]))
     = Ok {| path := None; style := Some st; compress := None;
             include := None; ignore := None; remote := None |}
     /\ Style_toString st = s).
Proof.
  intros Ht.
  assert (Hadv : advertisedStyles t = ["xml"; "markdown"; "plain"]).
  { destruct Ht as [<- | [<- | []]]; reflexivity. }
  rewrite Hadv. split.
  - intros [<- | [<- | [<- | []]]].
    + now exists xml.
    + now exists markdown.
    + now exists plain.
  - intros (st & _ & <-). destruct st; cbn; auto.
Qed.

End Schema.

Lemma advertised_styles_are_accepted_witness :
  In "markdown" (advertisedStyles {| name := "repomix"; inputSchema := toolProperties |}) <->
  exists st : Style,
    RepomixArgsSchema_parse (Some (JObject [("style", JString "markdown")]))
    = Ok {| path := None; style := Some st; compress := None;
            include := None; ignore := None; remote := None |}
    /\ Style_toString st = "markdown".
Proof.
  apply (advertised_styles_are_accepted
           {| name := "repomix"; inputSchema := toolProperties |} "markdown").
  left. reflexivity.
Defined.

Section SchemaInHandler.

Context {World : Type}.
Variable os : forall X : Type, Eff X -> World -> X * World.
Variable locale : Num.Locale.
Variable this : RepomixMCPServer.
Variable cwd : string.

Lemma parse_error_run (toolName : string) (arguments : option Json) (e : Exn) (w : World) :
  In toolName (map name listTools) ->
  RepomixArgsSchema_parse arguments = Err e ->
  run os (callTool this cwd locale toolName arguments) w = ([], Thrown e, w).
Proof.
  intros Hname Hparse. unfold callTool.
  assert (Hguard : negb (String.eqb toolName "repomix")
                   && negb (String.eqb toolName "repomix-estimate") = false).
  { destruct Hname as [<- | [<- | []]]; reflexivity. }
  rewrite Hguard, Hparse. reflexivity.
Qed.

(** X5.  Validation comes before every action: when the arguments of a
    call to one of the two tools do not pass the schema, the handler throws
    the schema's error, which lists at least one issue, after no call at
    all and with the world as it was. *)
Theorem invalid_arguments_raise_first
        (toolName : string) (arguments : option Json) (e : Exn) (w : World) :
  In toolName (map name listTools) ->
  RepomixArgsSchema_parse arguments = Err e ->
  run os (callTool this cwd locale toolName arguments) w = ([], Thrown e, w)
  /\ exists issues : list string, e = ZodError issues /\ issues <> [].
Proof.
  intros Hname Hparse.
  split; [now apply parse_error_run | now apply parse_error_is_ZodError with arguments].
Qed.

(** X6.  The listing and the dispatcher agree on the names: a call throws
    the unknown-tool error if and only if its name is not one of the names
    the listing advertises, whatever the arguments and the operating
    system. *)
Theorem advertised_names_are_served (toolName : string) (arguments : option Json) (w : World) :
  outcome_of os (callTool this cwd locale toolName arguments) w
  = Thrown (Error ("Unknown tool: " +:+ toolName))
  <-> ~ In toolName (map name listTools).
Proof.
  split.
  - intros Hthrown Hname.
    destruct (RepomixArgsSchema_parse arguments) as [args | e] eqn:Hparse.
    + unfold outcome_of in Hthrown.
      rewrite (run_callTool os locale this cwd toolName arguments args w Hname Hparse) in Hthrown.
      destruct (securityCheck_shape os this cwd args w) as (tr & allowed & w1 & Hrun & _ & _).
      rewrite Hrun in Hthrown. destruct allowed; [| discriminate Hthrown].
      pose proof (executionUnit_guard_free os locale this
                    (String.eqb toolName "repomix-estimate") args args w1)
        as (_ & _ & r & Hout & _).
      unfold outcome_of in Hout.
      destruct (run os (executionUnit locale _ args) w1) as [[tr2 o2] w2]. cbn [fst snd] in *.
      congruence.
    + unfold outcome_of in Hthrown.
      destruct (parse_error_is_ZodError arguments e Hparse) as (issues & -> & _).
      rewrite (parse_error_run toolName arguments _ w Hname Hparse) in Hthrown.
      discriminate Hthrown.
  - intros Hname. unfold outcome_of, callTool.
    assert (H1 : String.eqb toolName "repomix" = false).
    { apply String.eqb_neq. intros ->. apply Hname. cbn. auto. }
    assert (H2 : String.eqb toolName "repomix-estimate" = false).
    { apply String.eqb_neq. intros ->. apply Hname. cbn. auto. }
    rewrite H1, H2. reflexivity.
Qed.

End SchemaInHandler.

Lemma invalid_arguments_raise_first_witness :
  run Sim.os (callTool projectServer projectCwd Num.enUS "repomix-estimate"
                (request [("compress", JString "yes"); ("style", JString "html")]))
      (Sim.project (Sim.writes "packed") false)
  = ([], Thrown (ZodError ["style"; "compress"]), Sim.project (Sim.writes "packed") false)
  /\ exists issues : list string,
       ZodError ["style"; "compress"] = ZodError issues /\ issues <> [].
Proof.
  apply (invalid_arguments_raise_first Sim.os Num.enUS projectServer projectCwd "repomix-estimate"
           (request [("compress", JString "yes"); ("style", JString "html")])
           (ZodError ["style"; "compress"]) (Sim.project (Sim.writes "packed") false)).
  - right. left. reflexivity.
  - reflexivity.
Defined.

(** ** The access guard, decided on segments *)

Section GuardBySegments.

Lemma dropCommon_stripPrefix (boundary p : list string) :
  match stripPrefix boundary p with
  | Some rest => Path.dropCommon boundary p = ([], rest)
  | None => exists (x : string) (f t : list string), Path.dropCommon boundary p = (x :: f, t)
  end.
Proof.
  revert p. induction boundary as [| b boundary IH]; intros p.
  - cbn [stripPrefix Path.dropCommon]. destruct p; reflexivity.
  - destruct p as [| x p]; cbn [stripPrefix Path.dropCommon].
    + eexists _, _, _. reflexivity.
    + destruct (String.eqb b x); [apply IH | eexists _, _, _; reflexivity].
Qed.

Lemma stripPrefix_refl (p : list string) : stripPrefix p p = Some [].
Proof.
  induction p as [| x p IH]; [reflexivity |].
  cbn [stripPrefix]. now rewrite String.eqb_refl.
Qed.

(** A name that is followed by more text starts with two dots exactly
    when the name does. *)
Lemma startsWith_dots_append (x s : string) :
  x <> "" -> x <> "." ->
  JS.startsWith (x +:+ s) ".." = JS.startsWith x "..".
Proof.
  intros H0 H1. destruct x as [| c1 [| c2 r]]; [contradiction | |].
  - rewrite append_String, append_empty_l. cbn [JS.startsWith].
    destruct (Ascii.eqb_spec "."%char c1) as [<- | _]; [contradiction | reflexivity].
  - rewrite !append_String. cbn [JS.startsWith].
    destruct (Ascii.eqb "."%char c1), (Ascii.eqb "."%char c2); reflexivity.
Qed.

Lemma name_not_absolute (x s : string) :
  Path.isName x = true -> JS.startsWith (x +:+ s) "/" = false.
Proof.
  intros Hx. pose proof (isName_no_slash x Hx) as Hs.
  destruct (isName_eqbs x Hx) as (He & _ & _).
  destruct x as [| c r]; [discriminate He |].
  rewrite append_String. cbn [JS.startsWith JS.has_char] in *.
  apply orb_false_iff in Hs as [Hc _]. unfold Path.slash in Hc. now rewrite Hc.
Qed.

(** The relative path between two resolved paths, decided on segments. *)
Lemma relative_allowed (cwd : string) (boundary p : list string) :
  Forall (fun seg => Path.isName seg = true) boundary ->
  Forall (fun seg => Path.isName seg = true) p ->
  negb (JS.startsWith (Path.relative cwd (Path.ofSegments boundary) (Path.ofSegments p)) "..")
  && negb (JS.startsWith (Path.relative cwd (Path.ofSegments boundary) (Path.ofSegments p)) "/")
  = allowedBySegments boundary p.
Proof.
  intros Hb Hp. unfold Path.relative.
  destruct (String.eqb_spec (Path.ofSegments boundary) (Path.ofSegments p)) as [Heq | Hneq].
  - apply (f_equal Path.segments) in Heq.
    rewrite !segments_ofSegments in Heq by assumption. subst p.
    unfold allowedBySegments. now rewrite stripPrefix_refl.
  - rewrite !resolve_ofSegments by assumption.
    apply String.eqb_neq in Hneq. rewrite Hneq.
    rewrite !segments_ofSegments by assumption.
    unfold allowedBySegments.
    pose proof (dropCommon_stripPrefix boundary p) as Hdrop.
    destruct (stripPrefix boundary p) as [rest |] eqn:Hstrip.
    + rewrite Hdrop. cbn [map app].
      destruct rest as [| x rest']; [reflexivity |].
      assert (Hx : Path.isName x = true).
      { assert (Hin : In x p).
        { clear - Hstrip. revert p Hstrip.
          induction boundary as [| b boundary IH]; intros p Hstrip.
          - cbn in Hstrip. injection Hstrip as ->. now left.
          - destruct p as [| y p]; [discriminate Hstrip |].
            cbn [stripPrefix] in Hstrip.
            destruct (String.eqb b y); [right; now apply IH | discriminate Hstrip]. }
        exact (proj1 (List.Forall_forall _ p) Hp x Hin). }
      destruct (isName_eqbs x Hx) as (He & Hd & _).
      apply String.eqb_neq in He, Hd.
      destruct rest' as [| y rest''].
      * cbn [JS.join].
        rewrite <- (append_empty_r x) at 2. rewrite name_not_absolute by assumption.
        now rewrite andb_true_r.
      * rewrite join_cons2, startsWith_dots_append, name_not_absolute by assumption.
        now rewrite andb_true_r.
    + destruct Hdrop as (x & f & t & ->). cbn [map app].
      destruct (map (fun _ : string => "..") f ++ t) as [| y l]; reflexivity.
Qed.

Context {World : Type}.
Variable os : forall X : Type, Eff X -> World -> X * World.
Variable locale : Num.Locale.
Variable this : RepomixMCPServer.
Variable cwd : string.

(** X7.  The guard decides on real paths, by segments.  Whatever the
    candidate and the boundary look like before resolution (relative
    paths, symbolic links), once [realpath] has answered with the real path
    of the candidate (segments [p]) and of the boundary (segments
    [boundary]), [isPathAllowed] returns [true] exactly when the candidate
    is the boundary itself, or lies under it through a first segment that
    does not begin with two dots. *)
Theorem guard_decides_by_segments (targetPath : string) (boundary p : list string) (w : World) :
  Forall (fun seg => Path.isName seg = true) boundary ->
  Forall (fun seg => Path.isName seg = true) p ->
  fst (os _ (Realpath (Path.resolve cwd targetPath)) w) = Ok (Path.ofSegments p) ->
  fst (os _ (Realpath (allowedDirectory this))
          (snd (os _ (Realpath (Path.resolve cwd targetPath)) w)))
  = Ok (Path.ofSegments boundary) ->
  outcome_of os (isPathAllowed this cwd targetPath) w
  = Returned (allowedBySegments boundary p).
Proof.
  intros Hb Hp H1 H2. unfold outcome_of. rewrite run_isPathAllowed. cbn zeta.
  rewrite H1. cbn [fst snd]. rewrite H2. cbn [fst snd].
  now rewrite relative_allowed.
Qed.

(** X8.  The same decision governs the handler: for a call to one of the
    two tools with a non-empty [path] and no (or an empty) [remote], the
    command is executed if [allowedBySegments] holds of the two real paths,
    and otherwise the access denial is returned and nothing is executed. *)
Theorem tool_runs_iff_path_allowed
        (toolName : string) (arguments : option Json) (args : RepomixArgs)
        (boundary p : list string) (w : World) :
  In toolName (map name listTools) ->
  RepomixArgsSchema_parse arguments = Ok args ->
  JS.truthy (path args) && negb (JS.truthy (remote args)) = true ->
  Forall (fun seg => Path.isName seg = true) boundary ->
  Forall (fun seg => Path.isName seg = true) p ->
  let target := Path.resolve cwd (Path.resolve cwd (default "" (path args))) in
  fst (os _ (Realpath target) w) = Ok (Path.ofSegments p) ->
  fst (os _ (Realpath (allowedDirectory this)) (snd (os _ (Realpath target) w)))
  = Ok (Path.ofSegments boundary) ->
  existsb isExec (trace_of os (callTool this cwd locale toolName arguments) w)
  = allowedBySegments boundary p
  /\ (allowedBySegments boundary p = false ->
      outcome_of os (callTool this cwd locale toolName arguments) w
      = Returned (accessDenied this args)).
Proof.
  intros Hname Hparse Happlies Hb Hp target H1 H2.
  assert (Hguard : outcome_of os (isPathAllowed this cwd
                                    (Path.resolve cwd (default "" (path args)))) w
                   = Returned (allowedBySegments boundary p)).
  { unfold outcome_of. rewrite run_isPathAllowed. cbn zeta.
    fold target. rewrite H1. cbn [fst snd]. rewrite H2. cbn [fst snd].
    now rewrite relative_allowed. }
  unfold trace_of, outcome_of in *.
  rewrite (run_callTool os locale this cwd toolName arguments args w Hname Hparse).
  rewrite run_securityCheck, Happlies.
  destruct (securityCheck_shape os this cwd args w) as (tr & allowed & w1 & Hrun & Hreal & _).
  rewrite run_securityCheck, Happlies in Hrun. rewrite Hrun in Hguard |- *.
  cbn [fst snd] in Hguard. injection Hguard as <-.
  assert (Hnoexec : existsb isExec tr = false).
  { apply existsb_guard; [assumption |].
    intros ev Hev. destruct ev; try discriminate Hev; reflexivity. }
  destruct allowed.
  - pose proof (executionUnit_guard_free os locale this
                  (String.eqb toolName "repomix-estimate") args args w1) as (_ & Hexec & _).
    unfold trace_of in Hexec.
    destruct (run os (executionUnit locale _ args) w1) as [[tr2 o2] w2]. cbn [fst snd] in *.
    rewrite existsb_app, Hexec, orb_true_r. split; [reflexivity | discriminate].
  - cbn [fst snd]. split; [exact Hnoexec | reflexivity].
Qed.

End GuardBySegments.

(** The directory [src] of the project, asked for by its relative name. *)
Lemma guard_decides_by_segments_witness :
  outcome_of Sim.os (isPathAllowed projectServer projectCwd "src")
             (Sim.project (Sim.writes "packed") false)
  = Returned (allowedBySegments ["home"; "user"; "project"] ["home"; "user"; "project"; "src"]).
Proof.
  apply (guard_decides_by_segments Sim.os projectServer projectCwd "src"
           ["home"; "user"; "project"] ["home"; "user"; "project"; "src"]
           (Sim.project (Sim.writes "packed") false)).
  - repeat constructor.
  - repeat constructor.
  - vm_compute. reflexivity.
  - vm_compute. reflexivity.
Defined.

Lemma tool_runs_iff_path_allowed_witness :
  existsb isExec (trace_of Sim.os (callTool projectServer projectCwd Num.enUS "repomix" etcRequest)
                           (Sim.project (Sim.writes "packed") false))
  = allowedBySegments ["home"; "user"; "project"] ["etc"]
  /\ (allowedBySegments ["home"; "user"; "project"] ["etc"] = false ->
      outcome_of Sim.os (callTool projectServer projectCwd Num.enUS "repomix" etcRequest)
                 (Sim.project (Sim.writes "packed") false)
      = Returned (accessDenied projectServer etcArgs)).
Proof.
  apply (tool_runs_iff_path_allowed Sim.os Num.enUS projectServer projectCwd "repomix" etcRequest
           etcArgs ["home"; "user"; "project"] ["etc"]
           (Sim.project (Sim.writes "packed") false)).
  - left. reflexivity.
  - reflexivity.
  - reflexivity.
  - repeat constructor.
  - repeat constructor.
  - vm_compute. reflexivity.
  - vm_compute. reflexivity.
Defined.

(** The three answers of the guard on the project: a directory inside, a
    directory outside, and the boundary itself by the name [.]. *)
Example guard_on_project :
  outcome_of Sim.os (isPathAllowed projectServer projectCwd "src")
             (Sim.project (Sim.writes "packed") false) = Returned true
  /\ outcome_of Sim.os (isPathAllowed projectServer projectCwd "../../../etc")
                (Sim.project (Sim.writes "packed") false) = Returned false
  /\ outcome_of Sim.os (isPathAllowed projectServer projectCwd ".")
                (Sim.project (Sim.writes "packed") false) = Returned true
  /\ outcome_of Sim.os (isPathAllowed projectServer projectCwd "missing")
                (Sim.project (Sim.writes "packed") false) = Returned false.
Proof. repeat split; vm_compute; reflexivity. Qed.

(** ** The handler, path by path *)

Section HandlerPaths.

Context {World : Type}.
Variable os : forall X : Type, Eff X -> World -> X * World.
Variable locale : Num.Locale.
Variable this : RepomixMCPServer.
Variable cwd : string.

(** The events of the execution unit, one by one. *)
Lemma UnitRun_events (isEstimate : bool) (args : RepomixArgs) (tempFilePath command : string)
      (body : list Event) (r : ToolResult) :
  UnitRun locale isEstimate args tempFilePath command body r ->
  (exists (o : ExecOutcome) (rest : list Event),
      body = EvExec command o :: rest
      /\ existsb isExec rest = false
      /\ (forall ev : Event, In ev rest ->
          touchedPath ev = Some tempFilePath /\ isUnforcedRm ev = false)
      /\ (isEstimate = true -> existsb isReadFile rest = false)
      /\ (isEstimate = false -> existsb isStat rest = false)).
Proof.
  intros Hway.
  destruct Hway; eexists _, _; (split; [reflexivity |]); (split; [reflexivity |]);
    (split; [intros ev Hin; in_cases; subst; split; reflexivity |]);
    split; intros Hmode; try reflexivity; congruence.
Qed.

(** The events of a whole run that are no [realpath] belong to the
    execution unit, which is then the tail of the run. *)
Lemma callTool_unit (toolName : string) (arguments : option Json) (w : World) (ev : Event) :
  In ev (trace_of os (callTool this cwd locale toolName arguments) w) ->
  isRealpath ev = false ->
  exists (args : RepomixArgs) (guard body : list Event) (bytes : list Byte.byte)
         (tmp : string) (r : ToolResult) (tempFilePath command : string),
    In toolName (map name listTools)
    /\ RepomixArgsSchema_parse arguments = Ok args
    /\ forallb isRealpath guard = true
    /\ trace_of os (callTool this cwd locale toolName arguments) w
       = guard ++ EvRandomBytes 8 bytes :: EvTmpdir tmp :: body
    /\ outcome_of os (callTool this cwd locale toolName arguments) w = Returned r
    /\ tempFilePath = Path.join tmp (tempFileNameOf bytes)
    /\ command = JS.join " " (commandParts args tempFilePath)
    /\ UnitRun locale (String.eqb toolName "repomix-estimate") args tempFilePath command body r.
Proof.
  intros Hin Hev.
  destruct (callTool_runs os locale this cwd toolName arguments w)
    as [(e & Hrun) | [(args & guard & w1 & Hparse & Hguard & Hrun)
                     | (args & guard & body & pre & bytes & tmp & r & w0 & Hrest)]];
    unfold trace_of, outcome_of in *.
  - rewrite Hrun in Hin. destruct Hin.
  - rewrite Hrun in Hin. cbn [fst] in Hin.
    rewrite (guard_event guard ev Hguard Hin) in Hev. discriminate Hev.
  - cbn zeta in Hrest. destruct Hrest as (Hknown & Hparse & Hguard & Hrun & Hway & _ & _).
    exists args, guard, body, bytes, tmp, r, (Path.join tmp (tempFileNameOf bytes)),
      (JS.join " " (commandParts args (Path.join tmp (tempFileNameOf bytes)))).
    rewrite Hrun. cbn [fst snd].
    repeat (split; [assumption || reflexivity |]). exact Hway.
Qed.

(** X9.  The retrieval returns what it read: in a run of [repomix] in
    which [readFile] answered with the text [fileContents], the handler
    returns that text as its single block, without error flag, and never
    asked for the size of a file. *)
Theorem retrieval_returns_what_was_read
        (arguments : option Json) (w : World) (p fileContents : string) :
  In (EvReadFile p (Ok fileContents))
     (trace_of os (callTool this cwd locale "repomix" arguments) w) ->
  outcome_of os (callTool this cwd locale "repomix" arguments) w
  = Returned {| content := [{| type := "text"; text := fileContents |}]; isError := None |}
  /\ existsb isStat (trace_of os (callTool this cwd locale "repomix" arguments) w) = false.
Proof.
  intros Hread.
  destruct (callTool_unit "repomix" arguments w _ Hread eq_refl)
    as (args & guard & body & bytes & tmp & r & tfp & cmd
        & _ & _ & Hguard & Htr & Hout & _ & _ & Hway).
  rewrite Htr in Hread |- *. rewrite Hout.
  apply after_guard in Hread; [| assumption | reflexivity].
  destruct Hread as [Hread | [Hread | Hread]]; [discriminate Hread | discriminate Hread |].
  assert (Hnostat : existsb isStat guard = false).
  { apply existsb_guard; [assumption |].
    intros ev Hev. destruct ev; try discriminate Hev; reflexivity. }
  rewrite existsb_app, Hnostat. cbn [existsb isStat orb].
  inversion Hway as [o error rm1 Hs | o result sz rm1 Hest Hs | o result error rm1 rm2 Hest Hs
                    | o result c rm1 Hest Hs | o result re rm1 Hest Hs];
    subst; in_cases; try discriminate.
  injection Hread as -> ->. split; reflexivity.
Qed.

(** X10.  A command that fails is reported the same way in both modes:
    when the promise of [exec] rejects (the command exits with a status
    other than 0, or cannot be run), the handler returns an error-flagged
    result whose text is [Error executing repomix: ] followed by the
    message of the rejection and nothing else, makes no [stat] and no
    [readFile], and removes the temporary file once. *)
Theorem command_failure_result
        (toolName : string) (arguments : option Json) (w : World)
        (command : string) (o : ExecOutcome) (error : Exn) :
  In (EvExec command o) (trace_of os (callTool this cwd locale toolName arguments) w) ->
  execSettled command o = Err error ->
  outcome_of os (callTool this cwd locale toolName arguments) w
  = Returned {| content := [{| type := "text";
                               text := "Error executing repomix: " +:+ message error |}];
                isError := Some true |}
  /\ existsb isStat (trace_of os (callTool this cwd locale toolName arguments) w) = false
  /\ existsb isReadFile (trace_of os (callTool this cwd locale toolName arguments) w) = false
  /\ List.length (List.filter isAnyRm (trace_of os (callTool this cwd locale toolName arguments) w)) = 1.
Proof.
  intros Hexec Hsettled.
  destruct (callTool_unit toolName arguments w _ Hexec eq_refl)
    as (args & guard & body & bytes & tmp & r & tfp & cmd
        & _ & _ & Hguard & Htr & Hout & _ & _ & Hway).
  rewrite Htr in Hexec |- *. rewrite Hout.
  apply after_guard in Hexec; [| assumption | reflexivity].
  destruct Hexec as [Hexec | [Hexec | Hexec]]; [discriminate Hexec | discriminate Hexec |].
  assert (Hg1 : existsb isStat guard = false).
  { apply existsb_guard; [assumption |].
    intros ev Hev. destruct ev; try discriminate Hev; reflexivity. }
  assert (Hg2 : existsb isReadFile guard = false).
  { apply existsb_guard; [assumption |].
    intros ev Hev. destruct ev; try discriminate Hev; reflexivity. }
  assert (Hg3 : List.filter isAnyRm guard = []).
  { clear - Hguard. induction guard as [| ev guard IH]; [reflexivity |].
    cbn [forallb] in Hguard. apply andb_true_iff in Hguard as [Hev Hrest].
    cbn [List.filter]. destruct ev; try discriminate Hev. cbn [isAnyRm]. now apply IH. }
  rewrite !existsb_app, Hg1, Hg2, List.filter_app, Hg3.
  inversion Hway as [o' error' rm1 Hs | o' result sz rm1 Hest Hs
                    | o' result error' rm1 rm2 Hest Hs
                    | o' result c rm1 Hest Hs | o' result re rm1 Hest Hs];
    subst; in_cases; try discriminate; injection Hexec as -> ->; try congruence.
  rewrite Hsettled in Hs. injection Hs as <-.
  unfold executionError, stderrSuffix, textBlock. cbn [JS.truthy String.eqb negb].
  rewrite append_empty_r. repeat split; reflexivity.
Qed.

(** X11.  A failed [stat] in the estimate: when the command exited with
    status 0 and the [stat] of the artifact is then rejected with [error],
    the handler returns an error-flagged result whose text chains both
    catch clauses: the outer prefix, [Failed to estimate size: ], the
    message of the rejection, and the captured standard error of the
    command twice when it is not empty (once under [Repomix stderr:], once
    under [Stderr:]); the temporary file is removed twice. *)
Theorem stat_failure_result
        (arguments : option Json) (w : World)
        (command out err p : string) (error : Exn) :
  In (EvExec command (Exited 0 out err))
     (trace_of os (callTool this cwd locale "repomix-estimate" arguments) w) ->
  In (EvStat p (Err error))
     (trace_of os (callTool this cwd locale "repomix-estimate" arguments) w) ->
  outcome_of os (callTool this cwd locale "repomix-estimate" arguments) w
  = Returned {| content :=
                  [{| type := "text";
                      text := "Error executing repomix: Failed to estimate size: "
                              +:+ message error
                              +:+ stderrSuffix "Repomix stderr" err
                              +:+ stderrSuffix "Stderr" err |}];
                isError := Some true |}
  /\ List.length (List.filter isAnyRm
                    (trace_of os (callTool this cwd locale "repomix-estimate" arguments) w)) = 2.
Proof.
  intros Hexec Hstat.
  destruct (callTool_unit "repomix-estimate" arguments w _ Hexec eq_refl)
    as (args & guard & body & bytes & tmp & r & tfp & cmd
        & _ & _ & Hguard & Htr & Hout & _ & _ & Hway).
  rewrite Htr in Hexec, Hstat |- *. rewrite Hout.
  apply after_guard in Hexec; [| assumption | reflexivity].
  apply after_guard in Hstat; [| assumption | reflexivity].
  destruct Hexec as [Hexec | [Hexec | Hexec]]; [discriminate Hexec | discriminate Hexec |].
  destruct Hstat as [Hstat | [Hstat | Hstat]]; [discriminate Hstat | discriminate Hstat |].
  assert (Hg3 : List.filter isAnyRm guard = []).
  { clear - Hguard. induction guard as [| ev guard IH]; [reflexivity |].
    cbn [forallb] in Hguard. apply andb_true_iff in Hguard as [Hev Hrest].
    cbn [List.filter]. destruct ev; try discriminate Hev. cbn [isAnyRm]. now apply IH. }
  rewrite List.filter_app, Hg3.
  inversion Hway as [o' error' rm1 Hs | o' result sz rm1 Hest Hs
                    | o' result error' rm1 rm2 Hest Hs
                    | o' result c rm1 Hest Hs | o' result re rm1 Hest Hs];
    subst; in_cases; try discriminate.
  injection Hexec as -> ->. injection Hstat as _ ->.
  cbn [execSettled Z.eqb] in Hs. injection Hs as <-.
  unfold executionError, estimationFailure, textBlock. cbn [message stderr].
  rewrite !append_assoc. split; reflexivity.
Qed.

(** X12.  A failed read in the retrieval: when the command exited with
    status 0 and [readFile] is then rejected with [error], the handler
    returns an error-flagged result whose text is the outer prefix,
    [Failed to read output file: ], the message of the rejection, and the
    captured standard error twice when it is not empty; the temporary file
    is removed once, by the outer catch. *)
Theorem read_failure_reported
        (arguments : option Json) (w : World)
        (command out err p : string) (error : Exn) :
  In (EvExec command (Exited 0 out err))
     (trace_of os (callTool this cwd locale "repomix" arguments) w) ->
  In (EvReadFile p (Err error))
     (trace_of os (callTool this cwd locale "repomix" arguments) w) ->
  outcome_of os (callTool this cwd locale "repomix" arguments) w
  = Returned {| content :=
                  [{| type := "text";
                      text := "Error executing repomix: Failed to read output file: "
                              +:+ message error
                              +:+ stderrSuffix "Repomix stderr" err
                              +:+ stderrSuffix "Stderr" err |}];
                isError := Some true |}
  /\ List.length (List.filter isAnyRm
                    (trace_of os (callTool this cwd locale "repomix" arguments) w)) = 1.
Proof.
  intros Hexec Hread.
  destruct (callTool_unit "repomix" arguments w _ Hexec eq_refl)
    as (args & guard & body & bytes & tmp & r & tfp & cmd
        & _ & _ & Hguard & Htr & Hout & _ & _ & Hway).
  rewrite Htr in Hexec, Hread |- *. rewrite Hout.
  apply after_guard in Hexec; [| assumption | reflexivity].
  apply after_guard in Hread; [| assumption | reflexivity].
  destruct Hexec as [Hexec | [Hexec | Hexec]]; [discriminate Hexec | discriminate Hexec |].
  destruct Hread as [Hread | [Hread | Hread]]; [discriminate Hread | discriminate Hread |].
  assert (Hg3 : List.filter isAnyRm guard = []).
  { clear - Hguard. induction guard as [| ev guard IH]; [reflexivity |].
    cbn [forallb] in Hguard. apply andb_true_iff in Hguard as [Hev Hrest].
    cbn [List.filter]. destruct ev; try discriminate Hev. cbn [isAnyRm]. now apply IH. }
  rewrite List.filter_app, Hg3.
  inversion Hway as [o' error' rm1 Hs | o' result sz rm1 Hest Hs
                    | o' result error' rm1 rm2 Hest Hs
                    | o' result c rm1 Hest Hs | o' result re rm1 Hest Hs];
    subst; in_cases; try discriminate.
  injection Hexec as -> ->. injection Hread as _ ->.
  cbn [execSettled Z.eqb] in Hs. injection Hs as <-.
  unfold executionError, readFailure, textBlock. cbn [message stderr].
  rewrite !append_assoc. split; reflexivity.
Qed.

End HandlerPaths.

Section HandlerShape.

Context {World : Type}.
Variable os : forall X : Type, Eff X -> World -> X * World.
Variable locale : Num.Locale.
Variable this : RepomixMCPServer.
Variable cwd : string.

(** The paths the guard resolves. *)
Lemma securityCheck_paths (args : RepomixArgs) (w : World) (p : string) (a : Result string) :
  In (EvRealpath p a) (trace_of os (securityCheck this cwd args) w) ->
  p = Path.resolve cwd (Path.resolve cwd (default "" (path args)))
  \/ p = allowedDirectory this.
Proof.
  unfold trace_of. rewrite run_securityCheck.
  destruct (JS.truthy (path args) && negb (JS.truthy (remote args))); [| intros []].
  rewrite run_isPathAllowed. cbn zeta.
  destruct (os _ (Realpath _) w) as [[q | x] w1]; cbn [fst snd]; intros Hin; in_cases;
    try (injection Hin as <- _); auto.
Qed.

(** When the handler throws, it has done nothing. *)
Lemma callTool_throws (toolName : string) (arguments : option Json) (w w' : World)
      (tr : list Event) (e : Exn) :
  run os (callTool this cwd locale toolName arguments) w = (tr, Thrown e, w') ->
  tr = [] /\ w' = w
  /\ ((~ In toolName (map name listTools) /\ e = Error ("Unknown tool: " +:+ toolName))
      \/ (In toolName (map name listTools)
          /\ exists issues : list string,
               e = ZodError issues /\ RepomixArgsSchema_parse arguments = Err e)).
Proof.
  intros Hrun.
  destruct (in_dec string_dec toolName (map name listTools)) as [Hname | Hname].
  - destruct (RepomixArgsSchema_parse arguments) as [args | e0] eqn:Hparse.
    + rewrite (run_callTool os locale this cwd toolName arguments args w Hname Hparse) in Hrun.
      destruct (securityCheck_shape os this cwd args w) as (g & allowed & w1 & Hg & _ & _).
      rewrite Hg in Hrun. destruct allowed; [| discriminate Hrun].
      pose proof (executionUnit_guard_free os locale this
                    (String.eqb toolName "repomix-estimate") args args w1)
        as (_ & _ & r & Hout & _).
      unfold outcome_of in Hout.
      destruct (run os (executionUnit locale _ args) w1) as [[tr2 o2] w2]. cbn [fst snd] in *.
      subst o2. discriminate Hrun.
    + destruct (parse_error_is_ZodError arguments e0 Hparse) as (issues & -> & _).
      rewrite (parse_error_run os locale this cwd toolName arguments _ w Hname Hparse) in Hrun.
      injection Hrun as <- <- <-.
      split; [reflexivity |]. split; [reflexivity |]. right. split; [assumption |].
      eexists. split; reflexivity.
  - assert (H1 : String.eqb toolName "repomix" = false).
    { apply String.eqb_neq. intros ->. apply Hname. cbn. auto. }
    assert (H2 : String.eqb toolName "repomix-estimate" = false).
    { apply String.eqb_neq. intros ->. apply Hname. cbn. auto. }
    unfold callTool in Hrun. rewrite H1, H2 in Hrun. cbn [negb andb run] in Hrun.
    injection Hrun as <- <- <-. auto.
Qed.

(** X13.  The handler either throws before it has done anything, or
    returns a well-formed result.  If it throws, no call was made, the world
    is as it was, and the error is the unknown-tool error (for a name that is
    not advertised) or the schema's error (for an advertised name).  If it
    returns, the result has exactly one block, of type [text]; the error
    flag is either absent or [true], and a flagged text begins with
    [Access denied: Path ] or with [Error executing repomix: ]. *)
Theorem handler_throws_early_or_returns_text
        (toolName : string) (arguments : option Json) (w : World) :
  match outcome_of os (callTool this cwd locale toolName arguments) w with
  | Thrown e =>
      trace_of os (callTool this cwd locale toolName arguments) w = []
      /\ world_after os (callTool this cwd locale toolName arguments) w = w
      /\ (e = Error ("Unknown tool: " +:+ toolName) \/ exists issues, e = ZodError issues)
  | Returned r =>
      exists t : string,
        content r = [{| type := "text"; text := t |}]
        /\ (isError r = None
            \/ (isError r = Some true
                /\ (JS.startsWith t "Access denied: Path " = true
                    \/ JS.startsWith t "Error executing repomix: " = true)))
  end.
Proof.
  unfold outcome_of, trace_of, world_after.
  destruct (run os (callTool this cwd locale toolName arguments) w) as [[tr [r | e]] w'] eqn:Hrun;
    cbn [fst snd].
  - destruct (callTool_runs os locale this cwd toolName arguments w)
      as [(e & Hrun') | [(args & guard & w1 & _ & _ & Hrun')
                        | (args & guard & body & pre & bytes & tmp & r' & w0 & Hrest)]].
    + rewrite Hrun' in Hrun. discriminate Hrun.
    + rewrite Hrun' in Hrun. injection Hrun as _ <- _.
      eexists. split; [reflexivity |]. right. split; [reflexivity |]. left. reflexivity.
    + cbn zeta in Hrest. destruct Hrest as (_ & _ & _ & Hrun' & Hway & _ & _).
      rewrite Hrun' in Hrun. injection Hrun as _ <- _.
      destruct Hway; eexists; (split; [reflexivity |]);
        first [left; reflexivity
              | right; split; [reflexivity |]; right; reflexivity].
  - destruct (callTool_throws toolName arguments w w' tr e Hrun)
      as (-> & -> & [[_ ->] | [_ (issues & -> & _)]]).
    + auto.
    + split; [reflexivity |]. split; [reflexivity |]. right. now exists issues.
Qed.

(** X14.  The handler stays on its own file.  In every run: each [stat],
    [readFile] and [rm] acts on the temporary path, which is the temporary
    directory of the run joined with the name made from the random bytes of
    the run, and each [rm] is forced; at most one command is executed, so a
    failed command is never retried; and every [realpath] is on the
    requested path, resolved, or on the boundary. *)
Theorem handler_touches_only_artifact
        (toolName : string) (arguments : option Json) (w : World) :
  let tr := trace_of os (callTool this cwd locale toolName arguments) w in
  (forall (ev : Event) (p : string),
      In ev tr -> touchedPath ev = Some p ->
      isUnforcedRm ev = false
      /\ exists (bytes : list Byte.byte) (tmp : string),
           In (EvRandomBytes 8 bytes) tr /\ In (EvTmpdir tmp) tr
           /\ p = Path.join tmp (tempFileNameOf bytes))
  /\ (List.length (List.filter isExec tr) <= 1)%nat
  /\ (forall (p : string) (a : Result string),
         In (EvRealpath p a) tr ->
         exists args : RepomixArgs,
           RepomixArgsSchema_parse arguments = Ok args
           /\ (p = Path.resolve cwd (Path.resolve cwd (default "" (path args)))
               \/ p = allowedDirectory this)).
Proof.
  intros tr. subst tr. split; [| split].
  - intros ev p Hin Hp.
    assert (Hev : isRealpath ev = false) by (destruct ev; try discriminate Hp; reflexivity).
    destruct (callTool_unit os locale this cwd toolName arguments w ev Hin Hev)
      as (args & guard & body & bytes & tmp & r & tfp & cmd
          & _ & _ & Hguard & Htr & _ & Htfp & _ & Hway).
    rewrite Htr in Hin |- *.
    apply after_guard in Hin; [| assumption | assumption].
    destruct Hin as [<- | [<- | Hin]]; [discriminate Hp | discriminate Hp |].
    destruct (UnitRun_events _ _ _ _ _ _ _ Hway) as (o & rest & -> & _ & Hrest & _ & _).
    destruct Hin as [<- | Hin]; [discriminate Hp |].
    destruct (Hrest ev Hin) as [Hpath Hforced].
    split; [exact Hforced |]. exists bytes, tmp.
    split; [apply in_or_app; right; left; reflexivity |].
    split; [apply in_or_app; right; right; left; reflexivity |].
    congruence.
  - unfold trace_of.
    destruct (callTool_runs os locale this cwd toolName arguments w)
      as [(e & Hrun) | [(args & guard & w1 & _ & Hguard & Hrun)
                       | (args & guard & body & pre & bytes & tmp & r & w0 & Hrest)]].
    + rewrite Hrun. cbn. lia.
    + rewrite Hrun. cbn [fst].
      assert (Hno : List.filter isExec guard = []).
      { clear - Hguard. induction guard as [| ev guard IH]; [reflexivity |].
        cbn [forallb] in Hguard. apply andb_true_iff in Hguard as [Hev Hrest].
        cbn [List.filter]. destruct ev; try discriminate Hev. cbn [isExec]. now apply IH. }
      rewrite Hno. cbn. lia.
    + cbn zeta in Hrest. destruct Hrest as (_ & _ & Hguard & Hrun & Hway & _ & _).
      rewrite Hrun. cbn [fst].
      assert (Hno : List.filter isExec guard = []).
      { clear - Hguard. induction guard as [| ev guard IH]; [reflexivity |].
        cbn [forallb] in Hguard. apply andb_true_iff in Hguard as [Hev Hrest].
        cbn [List.filter]. destruct ev; try discriminate Hev. cbn [isExec]. now apply IH. }
      rewrite List.filter_app, Hno. cbn [app List.filter isExec].
      destruct Hway; cbn; lia.
  - intros p a Hin. unfold trace_of in Hin.
    destruct (in_dec string_dec toolName (map name listTools)) as [Hname | Hname].
    + destruct (RepomixArgsSchema_parse arguments) as [args | e0] eqn:Hparse.
      * exists args. split; [reflexivity |].
        rewrite (run_callTool os locale this cwd toolName arguments args w Hname Hparse) in Hin.
        pose proof (securityCheck_paths args w p a) as Hpaths. unfold trace_of in Hpaths.
        destruct (run os (securityCheck this cwd args) w) as [[g [allowed | e]] w1];
          cbn [fst] in *; [| now apply Hpaths].
        destruct allowed; [| now apply Hpaths].
        pose proof (executionUnit_guard_free os locale this
                      (String.eqb toolName "repomix-estimate") args args w1) as (Hno & _).
        unfold trace_of in Hno.
        destruct (run os (executionUnit locale _ args) w1) as [[tr2 o2] w2]. cbn [fst snd] in *.
        apply in_app_or in Hin as [Hin | Hin]; [now apply Hpaths |].
        exfalso. apply Bool.not_true_iff_false in Hno. apply Hno.
        apply existsb_exists. exists (EvRealpath p a). split; [exact Hin | reflexivity].
      * rewrite (parse_error_run os locale this cwd toolName arguments e0 w Hname Hparse) in Hin.
        destruct Hin.
    + assert (Hrun : run os (callTool this cwd locale toolName arguments) w
                     = ([], Thrown (Error ("Unknown tool: " +:+ toolName)), w)).
      { assert (H1 : String.eqb toolName "repomix" = false).
        { apply String.eqb_neq. intros ->. apply Hname. cbn. auto. }
        assert (H2 : String.eqb toolName "repomix-estimate" = false).
        { apply String.eqb_neq. intros ->. apply Hname. cbn. auto. }
        unfold callTool. rewrite H1, H2. reflexivity. }
      rewrite Hrun in Hin. destruct Hin.
Qed.

(** X15.  A remote reference does not replace the path.  For a call with a
    non-empty [path] and a non-empty [remote], the handler resolves nothing
    (its first call draws the random bytes) and the command it executes
    still carries the path, as given, as the positional argument, followed
    later by [--remote] and the reference. *)
Theorem remote_keeps_path_in_command
        (toolName : string) (arguments : option Json) (args : RepomixArgs)
        (p0 r0 : string) (w : World) :
  In toolName (map name listTools) ->
  RepomixArgsSchema_parse arguments = Ok args ->
  path args = Some p0 -> p0 <> "" ->
  remote args = Some r0 -> r0 <> "" ->
  exists (bytes : list Byte.byte) (tmp : string) (o : ExecOutcome) (rest : list Event),
    trace_of os (callTool this cwd locale toolName arguments) w
    = EvRandomBytes 8 bytes :: EvTmpdir tmp
      :: EvExec (JS.join " " ("npx" :: "repomix" :: p0
                              :: stylePart args ++ compressPart args
                                 ++ includePart args ++ ignorePart args
                                 ++ ["--remote"; r0; "--output";
                                     Path.join tmp (tempFileNameOf bytes)])) o
      :: rest.
Proof.
  intros Hname Hparse Hp Hp0 Hr Hr0.
  assert (Htp : JS.truthy (path args) = true) by (apply truthy_Some; eauto).
  assert (Htr : JS.truthy (remote args) = true) by (apply truthy_Some; eauto).
  unfold trace_of.
  rewrite (run_callTool os locale this cwd toolName arguments args w Hname Hparse).
  rewrite run_securityCheck, Htp, Htr. cbn [negb andb].
  rewrite run_executionUnit. cbn zeta.
  destruct (os _ (RandomBytes 8) w) as [bytes w1]. cbn [fst snd].
  destruct (os _ Tmpdir w1) as [tmp w2]. cbn [fst snd].
  destruct (executeAndRetrieve_runs os locale (String.eqb toolName "repomix-estimate") args
              (Path.join tmp (tempFileNameOf bytes))
              (JS.join " " (commandParts args (Path.join tmp (tempFileNameOf bytes)))) w2)
    as (body & pre & r & w0 & Hrun & Hway & _ & _).
  rewrite Hrun. cbn [app fst].
  destruct (UnitRun_events _ _ _ _ _ _ _ Hway) as (o & rest & -> & _).
  exists bytes, tmp, o, rest.
  unfold commandParts, pathPart, remotePart. rewrite Htp, Htr, Hp, Hr. reflexivity.
Qed.

End HandlerShape.

Lemma retrieval_returns_what_was_read_witness :
  outcome_of Sim.os (callTool projectServer projectCwd Num.enUS "repomix" srcRequest)
             (Sim.project (Sim.writes "packed") false)
  = Returned {| content := [{| type := "text"; text := "packed" |}]; isError := None |}
  /\ existsb isStat (trace_of Sim.os (callTool projectServer projectCwd Num.enUS "repomix" srcRequest)
                              (Sim.project (Sim.writes "packed") false)) = false.
Proof.
  apply (retrieval_returns_what_was_read Sim.os Num.enUS projectServer projectCwd srcRequest
           (Sim.project (Sim.writes "packed") false) scenarioTemp "packed").
  vm_compute. tauto.
Defined.

Lemma command_failure_result_witness :
  outcome_of Sim.os (callTool projectServer projectCwd Num.enUS "repomix-estimate" srcRequest)
             (Sim.project Sim.unlaunchable false)
  = Returned {| content := [{| type := "text";
                               text := "Error executing repomix: "
                                       +:+ message (SystemError "spawn /bin/sh ENOENT") |}];
                isError := Some true |}
  /\ existsb isStat (trace_of Sim.os (callTool projectServer projectCwd Num.enUS "repomix-estimate" srcRequest)
                              (Sim.project Sim.unlaunchable false)) = false
  /\ existsb isReadFile
       (trace_of Sim.os (callTool projectServer projectCwd Num.enUS "repomix-estimate" srcRequest)
                 (Sim.project Sim.unlaunchable false)) = false
  /\ List.length
       (List.filter isAnyRm
          (trace_of Sim.os (callTool projectServer projectCwd Num.enUS "repomix-estimate" srcRequest)
                    (Sim.project Sim.unlaunchable false))) = 1.
Proof.
  apply (command_failure_result Sim.os Num.enUS projectServer projectCwd "repomix-estimate" srcRequest
           (Sim.project Sim.unlaunchable false)
           ("npx repomix src --output " +:+ scenarioTemp)
           (ExecFailed "spawn /bin/sh ENOENT") (SystemError "spawn /bin/sh ENOENT")).
  - vm_compute. tauto.
  - reflexivity.
Defined.

Lemma stat_failure_result_witness :
  outcome_of Sim.os (callTool projectServer projectCwd Num.enUS "repomix-estimate" srcRequest)
             (Sim.project (Sim.forgets "warning") false)
  = Returned {| content :=
                  [{| type := "text";
                      text := "Error executing repomix: Failed to estimate size: "
                              +:+ message (Sim.enoent "stat" scenarioTemp)
                              +:+ stderrSuffix "Repomix stderr" "warning"
                              +:+ stderrSuffix "Stderr" "warning" |}];
                isError := Some true |}
  /\ List.length
       (List.filter isAnyRm
          (trace_of Sim.os (callTool projectServer projectCwd Num.enUS "repomix-estimate" srcRequest)
                    (Sim.project (Sim.forgets "warning") false))) = 2.
Proof.
  apply (stat_failure_result Sim.os Num.enUS projectServer projectCwd srcRequest
           (Sim.project (Sim.forgets "warning") false)
           ("npx repomix src --output " +:+ scenarioTemp) "" "warning" scenarioTemp
           (Sim.enoent "stat" scenarioTemp)).
  - vm_compute. tauto.
  - vm_compute. tauto.
Defined.

Lemma read_failure_reported_witness :
  outcome_of Sim.os (callTool projectServer projectCwd Num.enUS "repomix" srcRequest)
             (Sim.project (Sim.forgets "") false)
  = Returned {| content :=
                  [{| type := "text";
                      text := "Error executing repomix: Failed to read output file: "
                              +:+ message (Sim.enoent "open" scenarioTemp)
                              +:+ stderrSuffix "Repomix stderr" ""
                              +:+ stderrSuffix "Stderr" "" |}];
                isError := Some true |}
  /\ List.length
       (List.filter isAnyRm
          (trace_of Sim.os (callTool projectServer projectCwd Num.enUS "repomix" srcRequest)
                    (Sim.project (Sim.forgets "") false))) = 1.
Proof.
  apply (read_failure_reported Sim.os Num.enUS projectServer projectCwd srcRequest
           (Sim.project (Sim.forgets "") false)
           ("npx repomix src --output " +:+ scenarioTemp) "" "" scenarioTemp
           (Sim.enoent "open" scenarioTemp)).
  - vm_compute. tauto.
  - vm_compute. tauto.
Defined.

Lemma remote_keeps_path_in_command_witness :
  exists (bytes : list Byte.byte) (tmp : string) (o : ExecOutcome) (rest : list Event),
    trace_of Sim.os (callTool projectServer projectCwd Num.enUS "repomix" remoteRequest)
             (Sim.project (Sim.writes "packed") false)
    = EvRandomBytes 8 bytes :: EvTmpdir tmp
      :: EvExec (JS.join " " ("npx" :: "repomix" :: "/etc"
                              :: stylePart remoteArgs ++ compressPart remoteArgs
                                 ++ includePart remoteArgs ++ ignorePart remoteArgs
                                 ++ ["--remote"; "https://github.com/user/repo"; "--output";
                                     Path.join tmp (tempFileNameOf bytes)])) o
      :: rest.
Proof.
  apply (remote_keeps_path_in_command Sim.os Num.enUS projectServer projectCwd "repomix" remoteRequest
           remoteArgs "/etc" "https://github.com/user/repo"
           (Sim.project (Sim.writes "packed") false)).
  - left. reflexivity.
  - reflexivity.
  - reflexivity.
  - discriminate.
  - reflexivity.
  - discriminate.
Defined.

(** ** The temporary file *)

Section TempName.

Lemma toStringHex_cons (b : Byte.byte) (bytes : list Byte.byte) :
  toStringHex (b :: bytes) = hexOfByte b +:+ toStringHex bytes.
Proof.
  unfold toStringHex. destruct bytes as [| b' rest].
  - cbn [map JS.join]. now rewrite append_empty_r.
  - change (map hexOfByte (b :: b' :: rest))
      with (hexOfByte b :: hexOfByte b' :: map hexOfByte rest).
    rewrite join_cons2. reflexivity.
Qed.

Lemma fromHex_hexOfByte (b : Byte.byte) (r : string) :
  fromHex (hexOfByte b +:+ r) = option_map (fun bytes => b :: bytes) (fromHex r).
Proof.
  destruct b;
    match goal with
    | |- context [hexOfByte ?b] =>
        let h := eval vm_compute in (hexOfByte b) in change (hexOfByte b) with h
    end;
    rewrite !append_String, append_empty_l; cbn [fromHex];
    generalize (fromHex r); intros f; vm_compute; destruct f; reflexivity.
Qed.

(** Hexadecimal text reads back as the bytes it was made from. *)
Lemma fromHex_toStringHex (bytes : list Byte.byte) :
  fromHex (toStringHex bytes) = Some bytes.
Proof.
  induction bytes as [| b rest IH]; [reflexivity |].
  rewrite toStringHex_cons, fromHex_hexOfByte, IH. reflexivity.
Qed.

Lemma append_inj_l (a x y : string) : a +:+ x = a +:+ y -> x = y.
Proof.
  induction a as [| c a IH]; [trivial |].
  rewrite !append_String. intros [= H]. now apply IH.
Qed.

Lemma append_inj_r (x y c : string) : x +:+ c = y +:+ c -> x = y.
Proof.
  intros H.
  assert (Hlen : String.length x = String.length y).
  { apply (f_equal String.length) in H. rewrite !length_append in H. lia. }
  revert y H Hlen. induction x as [| a x IH]; intros [| b y] H Hlen;
    try discriminate Hlen; [reflexivity |].
  rewrite !append_String in H. injection H as -> H.
  f_equal. apply IH; [exact H | now injection Hlen].
Qed.

Lemma has_char_append (c : ascii) (a b : string) :
  JS.has_char c (a +:+ b) = JS.has_char c a || JS.has_char c b.
Proof.
  induction a as [| d a IH]; [reflexivity |].
  rewrite append_String. cbn [JS.has_char]. now rewrite IH, orb_assoc.
Qed.

Lemma toStringHex_no_slash (bytes : list Byte.byte) :
  JS.has_char Path.slash (toStringHex bytes) = false.
Proof.
  induction bytes as [| b rest IH]; [reflexivity |].
  rewrite toStringHex_cons, has_char_append, IH, orb_false_r.
  destruct b; reflexivity.
Qed.

(** The temporary name is a file name. *)
Lemma tempFileNameOf_isName (bytes : list Byte.byte) :
  Path.isName (tempFileNameOf bytes) = true.
Proof.
  unfold Path.isName, tempFileNameOf.
  rewrite !has_char_append, toStringHex_no_slash. reflexivity.
Qed.

Lemma endsWithSlash_append (a b : string) :
  b <> "" -> Path.endsWithSlash (a +:+ b) = Path.endsWithSlash b.
Proof.
  intros Hb. induction a as [| c a IH]; [reflexivity |].
  rewrite append_String. cbn [Path.endsWithSlash].
  destruct (a +:+ b) as [| d r] eqn:E; [| exact IH].
  destruct a; [rewrite append_empty_l in E; contradiction | discriminate E].
Qed.

Lemma tempFileNameOf_no_trailing_slash (bytes : list Byte.byte) :
  Path.endsWithSlash (tempFileNameOf bytes) = false.
Proof.
  unfold tempFileNameOf.
  rewrite endsWithSlash_append by (intros H; apply (f_equal String.length) in H;
                                   rewrite length_append in H; cbn in H; lia).
  rewrite endsWithSlash_append by discriminate. reflexivity.
Qed.

(** Joining a directory given by its names with a file name adds the name
    as the last segment. *)
Lemma join_child (segs : list string) (n : string) :
  Forall (fun seg => Path.isName seg = true) segs ->
  Path.isName n = true ->
  Path.endsWithSlash n = false ->
  Path.join (Path.ofSegments segs) n = Path.ofSegments (segs ++ [n]).
Proof.
  intros Hsegs Hn Hend.
  destruct (isName_eqbs n Hn) as (Hne & _ & _).
  assert (Hne' : n <> "") by now apply String.eqb_neq.
  assert (Hall : Forall (fun seg => Path.isName seg = true) (segs ++ [n])).
  { apply Forall_app. split; [assumption | now constructor]. }
  unfold Path.join. rewrite ofSegments_not_empty, Hne.
  set (p := Path.ofSegments segs +:+ "/" +:+ n).
  assert (Hsplit : JS.split Path.slash p
                   = "" :: (match segs with [] => [""] | _ => segs end) ++ [n]).
  { unfold p, Path.ofSegments. rewrite append_assoc.
    change ("/" +:+ JS.join "/" segs +:+ "/" +:+ n)
      with ("" +:+ String Path.slash (JS.join "/" segs +:+ String Path.slash n)).
    rewrite !split_app_sep. cbn [JS.split app].
    rewrite (split_one Path.slash n) by now apply isName_no_slash.
    destruct segs as [| x rest]; [reflexivity |].
    rewrite split_join_names by (assumption || discriminate). reflexivity. }
  assert (Hnorm : Path.normalizeSegments p false = segs ++ [n]).
  { unfold Path.normalizeSegments. rewrite Hsplit.
    destruct segs as [| x rest].
    - change ("" :: [""] ++ [n]) with ([""; ""] ++ [n]).
      rewrite fold_norm_step_app.
      change (fold_left (Path.norm_step false) [""; ""] []) with (@nil string).
      rewrite (fold_norm_step_names false [n]) by now constructor. reflexivity.
    - change ("" :: (x :: rest) ++ [n]) with ([""] ++ ((x :: rest) ++ [n])).
      rewrite fold_norm_step_app.
      change (fold_left (Path.norm_step false) [""] []) with (@nil string).
      rewrite fold_norm_step_names by assumption.
      now rewrite app_nil_r, rev_involutive. }
  unfold Path.normalize.
  assert (Hp : String.eqb p "" = false) by reflexivity.
  assert (Habs : Path.isAbsolute p = true) by reflexivity.
  assert (Htrail : Path.endsWithSlash p = false).
  { unfold p. rewrite <- append_assoc. rewrite endsWithSlash_append by assumption.
    exact Hend. }
  rewrite Hp, Habs, Htrail. cbn [negb]. unfold Path.normalizeString. rewrite Hnorm.
  assert (Hq : String.eqb (JS.join "/" (segs ++ [n])) "" = false).
  { apply String.eqb_neq. intros Hq.
    pose proof (split_join_names (segs ++ [n]) Hall) as Hs.
    rewrite Hq in Hs. cbn [JS.split] in Hs.
    destruct segs as [| x [| y rest]]; cbn [app] in Hs.
    - specialize (Hs ltac:(discriminate)). injection Hs as <-. contradiction.
    - specialize (Hs ltac:(discriminate)). discriminate Hs.
    - specialize (Hs ltac:(discriminate)). discriminate Hs. }
  rewrite Hq. reflexivity.
Qed.

Lemma tempFileNameOf_inj (bytes bytes' : list Byte.byte) :
  tempFileNameOf bytes = tempFileNameOf bytes' -> bytes = bytes'.
Proof.
  unfold tempFileNameOf. intros H.
  apply append_inj_l in H. apply append_inj_r in H.
  apply (f_equal fromHex) in H. rewrite !fromHex_toStringHex in H. now injection H.
Qed.

(** X16.  Temporary names do not collide: two draws of random bytes give
    the same file name only if they are the same bytes, because the name
    reads back (between the prefix and the extension) as the bytes; the
    name is sixteen digits long for eight bytes and holds no slash. *)
Theorem temp_names_do_not_collide (bytes bytes' : list Byte.byte) :
  (tempFileNameOf bytes = tempFileNameOf bytes' <-> bytes = bytes')
  /\ fromHex (toStringHex bytes) = Some bytes
  /\ String.length (tempFileNameOf bytes) = 12 + 2 * List.length bytes
  /\ JS.has_char Path.slash (tempFileNameOf bytes) = false.
Proof.
  split; [| split; [apply fromHex_toStringHex | split]].
  - split; [apply tempFileNameOf_inj | now intros ->].
  - unfold tempFileNameOf. rewrite !length_append, toStringHex_length. cbn. lia.
  - apply isName_no_slash, tempFileNameOf_isName.
Qed.

(** X17.  The artifact sits directly in the temporary directory: when
    [os.tmpdir()] is an absolute path of plain names, the temporary path is
    that path with the temporary name as one more segment, and two
    temporary paths in the same directory are equal only for the same
    random bytes. *)
Theorem artifact_sits_in_tmpdir (segs : list string) (bytes bytes' : list Byte.byte) :
  Forall (fun seg => Path.isName seg = true) segs ->
  Path.join (Path.ofSegments segs) (tempFileNameOf bytes)
  = Path.ofSegments (segs ++ [tempFileNameOf bytes])
  /\ Path.segments (Path.join (Path.ofSegments segs) (tempFileNameOf bytes))
     = segs ++ [tempFileNameOf bytes]
  /\ (Path.join (Path.ofSegments segs) (tempFileNameOf bytes)
      = Path.join (Path.ofSegments segs) (tempFileNameOf bytes') -> bytes = bytes').
Proof.
  intros Hsegs.
  assert (Hjoin : forall bs, Path.join (Path.ofSegments segs) (tempFileNameOf bs)
                             = Path.ofSegments (segs ++ [tempFileNameOf bs])).
  { intros bs. apply join_child; [assumption | apply tempFileNameOf_isName
                                  | apply tempFileNameOf_no_trailing_slash]. }
  assert (Hall : forall bs, Forall (fun seg => Path.isName seg = true)
                                   (segs ++ [tempFileNameOf bs])).
  { intros bs. apply Forall_app. split; [assumption |].
    constructor; [apply tempFileNameOf_isName | constructor]. }
  split; [apply Hjoin |]. split.
  - rewrite Hjoin. now apply segments_ofSegments.
  - rewrite !Hjoin. intros H. apply (f_equal Path.segments) in H.
    rewrite !segments_ofSegments in H by apply Hall.
    apply app_inv_head in H. apply tempFileNameOf_inj. congruence.
Qed.

End TempName.

Lemma artifact_sits_in_tmpdir_witness :
  Path.join (Path.ofSegments ["tmp"]) (tempFileNameOf Sim.someBytes)
  = Path.ofSegments (["tmp"] ++ [tempFileNameOf Sim.someBytes])
  /\ Path.segments (Path.join (Path.ofSegments ["tmp"]) (tempFileNameOf Sim.someBytes))
     = ["tmp"] ++ [tempFileNameOf Sim.someBytes]
  /\ (Path.join (Path.ofSegments ["tmp"]) (tempFileNameOf Sim.someBytes)
      = Path.join (Path.ofSegments ["tmp"]) (tempFileNameOf [Byte.x00])
      -> Sim.someBytes = [Byte.x00]).
Proof.
  apply (artifact_sits_in_tmpdir ["tmp"] Sim.someBytes [Byte.x00]).
  repeat constructor.
Defined.

(** ** What the tool receives *)

Section ShellWords.

Lemma ordinary_char (c : ascii) :
  isOrdinaryChar c = true ->
  Shell.isBlank c = false /\ Ascii.eqb c Shell.dquote = false
  /\ Ascii.eqb c Shell.squote = false /\ Ascii.eqb c Shell.backslash = false.
Proof.
  unfold isOrdinaryChar, shellSpecials, Shell.isBlank. cbn [existsb].
  rewrite negb_true_iff, !orb_false_iff. tauto.
Qed.

(** Ordinary characters join the word under construction. *)
Lemma scan_ordinary (w cur tail : string) :
  allOrdinary w = true ->
  Shell.scan Shell.Bare true cur (w +:+ tail) = Shell.scan Shell.Bare true (cur +:+ w) tail.
Proof.
  revert cur. induction w as [| c r IH]; intros cur Hw.
  - now rewrite append_empty_l, append_empty_r.
  - cbn [allOrdinary] in Hw. apply andb_true_iff in Hw as [Hc Hr].
    destruct (ordinary_char c Hc) as (H1 & H2 & H3 & H4).
    rewrite append_String. cbn [Shell.scan]. rewrite H1, H2, H3, H4.
    rewrite (IH _ Hr), snoc_append. reflexivity.
Qed.

(** A bare word is read in full, wherever the scan stands. *)
Lemma scan_bare_word (b : bool) (w tail : string) :
  isBareWord w = true ->
  Shell.scan Shell.Bare b "" (w +:+ tail) = Shell.scan Shell.Bare true w tail.
Proof.
  unfold isBareWord. intros H. apply andb_true_iff in H as [Hne Hw].
  destruct w as [| c r]; [discriminate Hne |].
  cbn [allOrdinary] in Hw. apply andb_true_iff in Hw as [Hc Hr].
  destruct (ordinary_char c Hc) as (H1 & H2 & H3 & H4).
  rewrite append_String. cbn [Shell.scan]. rewrite H1, H2, H3, H4.
  rewrite scan_ordinary by assumption. reflexivity.
Qed.

(** Inside double quotes a plain value is read up to the closing quote,
    and the scan goes on after it. *)
Lemma scan_double_then (v cur tail : string) :
  Shell.plainInDoubleQuotes v = true ->
  Shell.scan Shell.Double true cur (v +:+ dq +:+ tail)
  = Shell.scan Shell.Bare true (cur +:+ v) tail.
Proof.
  revert cur. induction v as [| c r IH]; intros cur Hplain.
  - rewrite append_empty_l, append_empty_r.
    change (dq +:+ tail) with (String Shell.dquote tail).
    cbn [Shell.scan]. now rewrite Ascii.eqb_refl.
  - destruct (plainInDoubleQuotes_cons c r Hplain) as (Hq & Hb & _ & Hr).
    rewrite append_String. cbn [Shell.scan]. rewrite Hq, Hb.
    rewrite (IH _ Hr), snoc_append. reflexivity.
Qed.

(** A part of the command is read as its word. *)
Lemma scan_token (b : bool) (part word tail : string) :
  ShellToken part word ->
  Shell.scan Shell.Bare b "" (part +:+ tail) = Shell.scan Shell.Bare true word tail.
Proof.
  intros [w Hw | v Hv].
  - now apply scan_bare_word.
  - unfold quoted. rewrite !append_assoc.
    change (dq +:+ v +:+ dq +:+ tail) with (String Shell.dquote (v +:+ dq +:+ tail)).
    cbn [Shell.scan]. change (Shell.isBlank Shell.dquote) with false.
    rewrite Ascii.eqb_refl. cbn match.
    rewrite scan_double_then by assumption. reflexivity.
Qed.

(** Parts joined by single blanks are read as their words, in order. *)
Lemma words_of_tokens (parts ws : list string) :
  Forall2 ShellToken parts ws ->
  parts <> [] ->
  forall b : bool, Shell.scan Shell.Bare b "" (JS.join " " parts) = Some ws.
Proof.
  induction 1 as [| p w ps ws' Hpw Hrest IH]; intros Hne b; [contradiction |].
  destruct ps as [| p' ps'].
  - inversion Hrest; subst. cbn [JS.join].
    rewrite <- (append_empty_r p), (scan_token b p w "" Hpw). reflexivity.
  - rewrite join_cons2, (scan_token b p w _ Hpw).
    change (" " +:+ JS.join " " (p' :: ps')) with (String " "%char (JS.join " " (p' :: ps'))).
    cbn [Shell.scan]. change (Shell.isBlank " "%char) with true. cbn match.
    rewrite (IH ltac:(discriminate) false). reflexivity.
Qed.

Lemma token_literal (w : string) : isBareWord w = true -> Forall2 ShellToken [w] [w].
Proof. intros H. constructor; [now apply TokenBare | constructor]. Qed.

Lemma tokens_bare (flag : list string) (v : option string) :
  Forall (fun w => isBareWord w = true) flag ->
  safeBare v = true ->
  Forall2 ShellToken (if JS.truthy v then flag ++ [default "" v] else [])
                     (if JS.truthy v then flag ++ [default "" v] else []).
Proof.
  intros Hflag Hv. destruct v as [s |]; cbn [JS.truthy default]; [| constructor].
  cbn [safeBare] in Hv. destruct (String.eqb s ""); cbn [negb orb] in *; [constructor |].
  apply List.Forall2_app; [| now apply token_literal].
  induction Hflag; constructor; [now apply TokenBare | assumption].
Qed.

Lemma tokens_quoted (flag : string) (v : option string) :
  isBareWord flag = true ->
  safeQuoted v = true ->
  Forall2 ShellToken (if JS.truthy v then [flag; quoted (default "" v)] else [])
                     (if JS.truthy v then [flag; default "" v] else []).
Proof.
  intros Hflag Hv. destruct v as [s |]; cbn [JS.truthy default]; [| constructor].
  destruct (negb (String.eqb s "")); [| constructor].
  constructor; [now apply TokenBare |]. constructor; [now apply TokenQuoted | constructor].
Qed.

(** The parts of a shell-safe request are read as the intended arguments. *)
Lemma tokens_commandParts (args : RepomixArgs) (tempFilePath : string) :
  shellSafe args tempFilePath = true ->
  Forall2 ShellToken (commandParts args tempFilePath) (argvOf args tempFilePath).
Proof.
  unfold shellSafe. intros H.
  apply andb_true_iff in H as [H Htmp]. apply andb_true_iff in H as [H Hremote].
  apply andb_true_iff in H as [H Hignore]. apply andb_true_iff in H as [Hpath Hinclude].
  unfold commandParts, argvOf.
  repeat apply List.Forall2_app.
  - constructor; [now apply TokenBare |]. now apply token_literal.
  - exact (tokens_bare [] (path args) ltac:(constructor) Hpath).
  - unfold stylePart. destruct (style args) as [[| |] |]; repeat constructor.
  - unfold compressPart. destruct (JS.truthy_bool (compress args)); repeat constructor.
  - exact (tokens_quoted "--include" (include args) eq_refl Hinclude).
  - exact (tokens_quoted "--ignore" (ignore args) eq_refl Hignore).
  - exact (tokens_bare ["--remote"] (remote args) ltac:(repeat constructor) Hremote).
  - constructor; [now apply TokenBare |]. now apply token_literal.
Qed.

Lemma has_char_app (c : ascii) (a b : string) :
  JS.has_char c (a +:+ b) = JS.has_char c a || JS.has_char c b.
Proof.
  induction a as [| d a IH]; [reflexivity |].
  rewrite append_String. cbn [JS.has_char]. rewrite IH. apply orb_assoc.
Qed.

(** No part of a command that the shell reads as intended holds a NUL. *)
Lemma ordinary_nul (s : string) :
  allOrdinary s = true -> JS.has_char Shell.nul s = false.
Proof.
  induction s as [| c r IH]; [reflexivity |].
  cbn [allOrdinary JS.has_char]. intros H. apply andb_true_iff in H as [Hc Hr].
  rewrite (IH Hr), orb_false_r.
  unfold isOrdinaryChar, shellSpecials in Hc. cbn [existsb] in Hc.
  rewrite negb_true_iff, !orb_false_iff in Hc.
  rewrite Ascii.eqb_sym. tauto.
Qed.

Lemma token_nul (part word : string) :
  ShellToken part word -> JS.has_char Shell.nul part = false.
Proof.
  intros [w Hw | v Hv].
  - unfold isBareWord in Hw. apply andb_true_iff in Hw as [_ Hw]. now apply ordinary_nul.
  - unfold quoted. rewrite !has_char_app, (plainInDoubleQuotes_nul v Hv). reflexivity.
Qed.

Lemma join_nul (parts ws : list string) :
  Forall2 ShellToken parts ws -> JS.has_char Shell.nul (JS.join " " parts) = false.
Proof.
  induction 1 as [| p w ps ws' Hpw Hrest IH]; [reflexivity |].
  destruct ps as [| p' ps'].
  - cbn [JS.join]. exact (token_nul p w Hpw).
  - rewrite join_cons2, !has_char_app, (token_nul p w Hpw), IH. reflexivity.
Qed.

Lemma words_commandParts (args : RepomixArgs) (tempFilePath : string) :
  shellSafe args tempFilePath = true ->
  Shell.words (JS.join " " (commandParts args tempFilePath))
  = Some (argvOf args tempFilePath).
Proof.
  intros H. unfold Shell.words.
  apply words_of_tokens; [now apply tokens_commandParts | discriminate].
Qed.

(** [exec] takes the command of a shell-safe request, and the shell reads
    it as the intended arguments. *)
Lemma delivered_commandParts (args : RepomixArgs) (tempFilePath : string) :
  shellSafe args tempFilePath = true ->
  Shell.delivered (JS.join " " (commandParts args tempFilePath))
  = Some (argvOf args tempFilePath).
Proof.
  intros H. unfold Shell.delivered.
  rewrite (join_nul _ _ (tokens_commandParts args tempFilePath H)).
  now apply words_commandParts.
Qed.

Lemma last_argvOf (args : RepomixArgs) (tempFilePath : string) :
  List.last (argvOf args tempFilePath) "" = tempFilePath.
Proof.
  unfold argvOf. rewrite !app_assoc.
  change ["--output"; tempFilePath] with (["--output"] ++ [tempFilePath]).
  rewrite app_assoc. apply last_last.
Qed.

(** X18.  What the tool receives.  When the values of a request survive
    the shell (a path and a remote reference of ordinary characters,
    include and ignore patterns without double quote, backslash, dollar,
    backquote and NUL, which may hold blanks, commas and glob characters),
    the command holds no NUL, so that [exec] takes it, and the shell hands
    the tool exactly the intended arguments: the base, the path as one
    argument, the style, the flag, each pattern as one argument after its
    option and without its quotes, the remote reference, and the output
    option with the temporary path as the last argument. *)
Theorem shell_delivers_arguments (args : RepomixArgs) (tempFilePath : string) :
  shellSafe args tempFilePath = true ->
  JS.has_char Shell.nul (JS.join " " (commandParts args tempFilePath)) = false
  /\ Shell.delivered (JS.join " " (commandParts args tempFilePath))
     = Some (["npx"; "repomix"] ++ pathPart args ++ stylePart args ++ compressPart args
             ++ (if JS.truthy (include args) then ["--include"; default "" (include args)] else [])
             ++ (if JS.truthy (ignore args) then ["--ignore"; default "" (ignore args)] else [])
             ++ remotePart args ++ ["--output"; tempFilePath])
  /\ List.last (argvOf args tempFilePath) "" = tempFilePath.
Proof.
  intros H. split; [| split].
  - exact (join_nul _ _ (tokens_commandParts args tempFilePath H)).
  - now apply delivered_commandParts.
  - apply last_argvOf.
Qed.

End ShellWords.

Lemma shell_delivers_arguments_witness :
  JS.has_char Shell.nul (JS.join " " (commandParts globArgs scenarioTemp)) = false
  /\ Shell.delivered (JS.join " " (commandParts globArgs scenarioTemp))
     = Some (["npx"; "repomix"] ++ pathPart globArgs ++ stylePart globArgs
             ++ compressPart globArgs
             ++ (if JS.truthy (include globArgs)
                 then ["--include"; default "" (include globArgs)] else [])
             ++ (if JS.truthy (ignore globArgs)
                 then ["--ignore"; default "" (ignore globArgs)] else [])
             ++ remotePart globArgs ++ ["--output"; scenarioTemp])
  /\ List.last (argvOf globArgs scenarioTemp) "" = scenarioTemp.
Proof.
  apply (shell_delivers_arguments globArgs scenarioTemp). reflexivity.
Defined.

(** ** From the request to the artifact and back *)

Section EndToEnd.

Variable locale : Num.Locale.
Variable artifact : string.
Variable args : RepomixArgs.

Let w0 : Sim.World := Sim.project (Sim.writes artifact) false.
Let w1 : Sim.World := Sim.withEntropy w0 [].
Let w2 : Sim.World := Sim.withFiles w1 (<[scenarioTemp := artifact]> ∅).
Let command : string := JS.join " " (commandParts args scenarioTemp).

Lemma sim_names_artifact : Path.join "/tmp" (tempFileNameOf Sim.someBytes) = scenarioTemp.
Proof. vm_compute. reflexivity. Qed.

Lemma sim_exec_writes :
  shellSafe args scenarioTemp = true ->
  Sim.os _ (Exec command) w1 = (Exited 0 "" "", w2).
Proof.
  intros Hsafe. unfold Sim.os, command.
  rewrite (join_nul _ _ (tokens_commandParts args scenarioTemp Hsafe)).
  rewrite words_commandParts by assumption.
  cbn [Sim.tool w1 w0 Sim.project Sim.withEntropy]. unfold Sim.writes.
  rewrite last_argvOf. reflexivity.
Qed.

Lemma sim_unit_run (isEstimate : bool) :
  shellSafe args scenarioTemp = true ->
  run Sim.os (executionUnit locale isEstimate args) w0
  = ([EvRandomBytes 8 Sim.someBytes; EvTmpdir "/tmp"; EvExec command (Exited 0 "" "");
      if isEstimate then EvStat scenarioTemp (Ok (N.of_nat (String.length artifact)))
      else EvReadFile scenarioTemp (Ok (JS.utf8Decode artifact));
      EvRm scenarioTemp true (Ok tt)],
     Returned (if isEstimate then estimateResult locale (N.of_nat (String.length artifact)) args
               else contentResult (JS.utf8Decode artifact)),
     Sim.withFiles w2 (delete scenarioTemp (<[scenarioTemp := artifact]> ∅))).
Proof.
  intros Hsafe. rewrite run_executionUnit. cbn zeta.
  change (Sim.os _ (RandomBytes 8) w0) with (Sim.someBytes, w1). cbn [fst snd].
  change (Sim.os _ Tmpdir w1) with ("/tmp", w1). cbn [fst snd].
  rewrite sim_names_artifact. fold command.
  rewrite run_executeAndRetrieve. cbn zeta.
  rewrite (sim_exec_writes Hsafe). cbn [fst snd execSettled Z.eqb].
  assert (Hlook : Sim.files w2 !! scenarioTemp = Some artifact).
  { cbn [Sim.files w2 Sim.withFiles]. apply lookup_insert_eq. }
  assert (Hrm : Sim.os _ (Rm scenarioTemp true) w2
                = (Ok tt, Sim.withFiles w2 (delete scenarioTemp (<[scenarioTemp := artifact]> ∅)))).
  { unfold Sim.os. rewrite Hlook. reflexivity. }
  destruct isEstimate.
  - assert (Hstat : Sim.os _ (Stat scenarioTemp) w2
                    = (Ok (N.of_nat (String.length artifact)), w2)).
    { unfold Sim.os. rewrite Hlook. reflexivity. }
    rewrite Hstat. cbn [fst snd]. rewrite Hrm. reflexivity.
  - assert (Hread : Sim.os _ (ReadFile scenarioTemp) w2 = (Ok (JS.utf8Decode artifact), w2)).
    { unfold Sim.os. rewrite Hlook. reflexivity. }
    rewrite Hread. cbn [fst snd]. rewrite Hrm. reflexivity.
Qed.

(** Decoding leaves seven-bit text as it stands. *)
Lemma utf8Decode_ascii (s : string) : JS.isAscii s = true -> JS.utf8Decode s = s.
Proof.
  unfold JS.utf8Decode. induction s as [| c r IH]; [reflexivity |].
  cbn [JS.isAscii]. intros H. apply andb_true_iff in H as [Hc Hr].
  cbn [JS.utf8Scan]. unfold JS.utf8Lead.
  replace (N_of_ascii c <=? 127)%N with true
    by (symmetry; apply N.leb_le; apply N.ltb_lt in Hc; lia).
  rewrite (IH Hr). reflexivity.
Qed.

(** X19.  The output option names the file the handler reads.  In the
    simulated system, in a process of any default locale, take a tool that
    writes its artifact to the path it receives after [--output], and any
    request that survives the shell and does not meet the guard (no path,
    or a remote reference).  Sent as the request object of its fields, the
    retrieval returns the bytes of the artifact decoded as UTF-8, which is
    the artifact itself when it is seven-bit text; the estimate returns the
    estimate of its length in bytes; and the temporary file is gone
    afterwards. *)
Theorem written_artifact_is_returned :
  shellSafe args scenarioTemp = true ->
  JS.truthy (path args) && negb (JS.truthy (remote args)) = false ->
  outcome_of Sim.os (callTool projectServer projectCwd locale "repomix" (toArguments args))
             (Sim.project (Sim.writes artifact) false)
  = Returned {| content := [{| type := "text"; text := JS.utf8Decode artifact |}];
                isError := None |}
  /\ (JS.isAscii artifact = true -> JS.utf8Decode artifact = artifact)
  /\ outcome_of Sim.os
       (callTool projectServer projectCwd locale "repomix-estimate" (toArguments args))
       (Sim.project (Sim.writes artifact) false)
     = Returned {| content :=
                     [{| type := "text";
                         text := estimateText locale (N.of_nat (String.length artifact)) args |}];
                   isError := None |}
  /\ Sim.exists_
       (world_after Sim.os (callTool projectServer projectCwd locale "repomix" (toArguments args))
                    (Sim.project (Sim.writes artifact) false))
       scenarioTemp = false.
Proof.
  intros Hsafe Hguard.
  assert (Hrun : forall toolName,
             In toolName ["repomix"; "repomix-estimate"] ->
             run Sim.os (callTool projectServer projectCwd locale toolName (toArguments args)) w0
             = run Sim.os (executionUnit locale (String.eqb toolName "repomix-estimate") args) w0).
  { intros toolName Hname.
    assert (Hparse : RepomixArgsSchema_parse (toArguments args) = Ok args).
    { clear. destruct args as [p s c i g r].
      destruct p, s as [[| |] |], c, i, g, r; reflexivity. }
    rewrite (run_callTool Sim.os locale projectServer projectCwd toolName (toArguments args) args w0
               Hname Hparse).
    rewrite run_securityCheck, Hguard.
    destruct (run Sim.os (executionUnit locale _ args) w0) as [[tr o] w']. reflexivity. }
  unfold outcome_of, world_after. fold w0.
  rewrite (Hrun "repomix" ltac:(left; reflexivity)).
  rewrite (Hrun "repomix-estimate" ltac:(right; left; reflexivity)).
  change (String.eqb "repomix" "repomix-estimate") with false.
  change (String.eqb "repomix-estimate" "repomix-estimate") with true.
  rewrite !sim_unit_run by assumption. cbn [fst snd].
  split; [reflexivity |]. split; [apply utf8Decode_ascii |]. split; [reflexivity |].
  unfold Sim.exists_. cbn [Sim.files Sim.withFiles]. now rewrite lookup_delete_eq.
Qed.

End EndToEnd.

(** A remote request in a de-DE process, the artifact holding a byte that
    begins no UTF-8 sequence: the text returned has U+FFFD in its place. *)
Lemma written_artifact_is_returned_witness :
  outcome_of Sim.os (callTool projectServer projectCwd Num.deDE "repomix" (toArguments remoteArgs))
             (Sim.project (Sim.writes strayByteArtifact) false)
  = Returned {| content := [{| type := "text"; text := JS.utf8Decode strayByteArtifact |}];
                isError := None |}
  /\ (JS.isAscii strayByteArtifact = true -> JS.utf8Decode strayByteArtifact = strayByteArtifact)
  /\ outcome_of Sim.os
       (callTool projectServer projectCwd Num.deDE "repomix-estimate" (toArguments remoteArgs))
       (Sim.project (Sim.writes strayByteArtifact) false)
     = Returned {| content :=
                     [{| type := "text";
                         text := estimateText Num.deDE
                                   (N.of_nat (String.length strayByteArtifact)) remoteArgs |}];
                   isError := None |}
  /\ Sim.exists_
       (world_after Sim.os
          (callTool projectServer projectCwd Num.deDE "repomix" (toArguments remoteArgs))
          (Sim.project (Sim.writes strayByteArtifact) false))
       scenarioTemp = false.
Proof.
  apply (written_artifact_is_returned Num.deDE strayByteArtifact remoteArgs).
  - reflexivity.
  - reflexivity.
Defined.

(** The decoder on bytes that are no UTF-8: a byte that begins nothing, a
    sequence cut short by a seven-bit character and by the end of the
    file, a surrogate, an overlong form; and on well-formed sequences of
    two, three and four bytes, which it keeps. *)
Example utf8Decode_examples :
  let b (n : nat) := String (ascii_of_nat n) "" in
  JS.utf8Decode strayByteArtifact = "pack" +:+ JS.replacement +:+ "ed"
  /\ JS.utf8Decode (b 195 +:+ "a") = JS.replacement +:+ "a"
  /\ JS.utf8Decode (b 226 +:+ b 130) = JS.replacement
  /\ JS.utf8Decode (b 237 +:+ b 160 +:+ b 128)
     = JS.replacement +:+ JS.replacement +:+ JS.replacement
  /\ JS.utf8Decode (b 192 +:+ b 128) = JS.replacement +:+ JS.replacement
  /\ JS.utf8Decode (b 195 +:+ b 169) = b 195 +:+ b 169
  /\ JS.utf8Decode (b 226 +:+ b 130 +:+ b 172) = b 226 +:+ b 130 +:+ b 172
  /\ JS.utf8Decode (b 240 +:+ b 159 +:+ b 152 +:+ b 128)
     = b 240 +:+ b 159 +:+ b 152 +:+ b 128.
Proof. repeat split; vm_compute; reflexivity. Qed.

(** ** More on the figures and on the command of a request *)

Section MoreFigures.

(** X20.  The estimate grows with the artifact: a larger size never gives
    fewer tokens nor a smaller KB or MB figure; the token count is zero
    only for the empty artifact and never exceeds the size; and the MB
    figure never exceeds the KB figure. *)
Theorem estimate_is_monotone (n m : N) :
  (n <= m)%N ->
  (Num.ceil_div4 n <= Num.ceil_div4 m)%N
  /\ (Num.hundredths n 1024 <= Num.hundredths m 1024)%N
  /\ (Num.hundredths n (1024 * 1024) <= Num.hundredths m (1024 * 1024))%N
  /\ (Num.ceil_div4 n = 0%N <-> n = 0%N)
  /\ (Num.ceil_div4 n <= n)%N
  /\ (Num.hundredths n (1024 * 1024) <= Num.hundredths n 1024)%N.
Proof.
  intros Hle.
  pose proof (ceil_div4_spec n) as [Hn1 Hn2].
  pose proof (ceil_div4_spec m) as [Hm1 Hm2].
  pose proof (hundredths_spec n 1024 ltac:(reflexivity)) as [Ha1 Ha2].
  pose proof (hundredths_spec m 1024 ltac:(reflexivity)) as [Hb1 Hb2].
  pose proof (hundredths_spec n (1024 * 1024) ltac:(reflexivity)) as [Hc1 Hc2].
  pose proof (hundredths_spec m (1024 * 1024) ltac:(reflexivity)) as [Hd1 Hd2].
  revert Hn1 Hn2 Hm1 Hm2 Ha1 Ha2 Hb1 Hb2 Hc1 Hc2 Hd1 Hd2.
  generalize (Num.ceil_div4 n) as tn, (Num.ceil_div4 m) as tm,
    (Num.hundredths n 1024) as kn, (Num.hundredths m 1024) as km,
    (Num.hundredths n (1024 * 1024)) as gn, (Num.hundredths m (1024 * 1024)) as gm.
  intros. repeat split; lia.
Qed.

Lemma below_hundred (m : N) :
  (m < 100)%N -> In m (map N.of_nat (seq 0 100)).
Proof.
  intros H. rewrite <- (N2Nat.id m). apply in_map, in_seq. lia.
Qed.

Lemma two_digits_shape (m : N) :
  (m < 100)%N ->
  String.length (Num.two_digits m) = 2 /\ allDigits (Num.two_digits m) = true.
Proof.
  intros H. apply below_hundred in H.
  assert (Hall : forallb (fun k => Nat.eqb (String.length (Num.two_digits k)) 2
                                   && allDigits (Num.two_digits k))
                         (map N.of_nat (seq 0 100)) = true) by (vm_compute; reflexivity).
  rewrite forallb_forall in Hall. specialize (Hall m H).
  apply andb_true_iff in Hall as [H1 H2]. apply Nat.eqb_eq in H1. auto.
Qed.

Lemma decimal_not_empty (n : N) : Num.decimal n <> "".
Proof.
  unfold Num.decimal, NilZero.string_of_uint.
  destruct (N.to_uint n); discriminate.
Qed.

(** X21.  The size figures always show two decimals: [(n / d).toFixed(2)]
    is a non-empty run of digits, a point, and exactly two digits, whatever
    the size. *)
Theorem figures_show_two_decimals (n d : N) :
  (0 < d)%N ->
  exists whole frac : string,
    Num.toFixed2 n d = whole +:+ "." +:+ frac
    /\ whole <> "" /\ allDigits whole = true
    /\ String.length frac = 2 /\ allDigits frac = true.
Proof.
  intros Hd. unfold Num.toFixed2. cbn zeta.
  exists (Num.decimal (Num.hundredths n d / 100)),
    (Num.two_digits (Num.hundredths n d mod 100)).
  split; [reflexivity |]. split; [apply decimal_not_empty |].
  split; [apply decimal_digits |].
  apply two_digits_shape, N.mod_lt. discriminate.
Qed.

Lemma parse_fields (ps : list (string * Json)) (args : RepomixArgs) :
  RepomixArgsSchema_parse (Some (JObject ps)) = Ok args ->
  parseString (property "path" ps) = Some (path args)
  /\ parseStyle (property "style" ps) = Some (style args)
  /\ parseBoolean (property "compress" ps) = Some (compress args)
  /\ parseString (property "include" ps) = Some (include args)
  /\ parseString (property "ignore" ps) = Some (ignore args)
  /\ parseString (property "remote" ps) = Some (remote args).
Proof.
  unfold RepomixArgsSchema_parse.
  destruct (parseString (property "path" ps)) as [p |];
    destruct (parseStyle (property "style" ps)) as [s |];
    destruct (parseBoolean (property "compress" ps)) as [c |];
    destruct (parseString (property "include" ps)) as [i |];
    destruct (parseString (property "ignore" ps)) as [g |];
    destruct (parseString (property "remote" ps)) as [r |];
    try discriminate.
  intros [= <-]. repeat split; reflexivity.
Qed.

Lemma text_field (ps : list (string * Json)) (key : string) (v : option string)
      (f : string -> list string) :
  parseString (property key ps) = Some v ->
  (if JS.truthy v then f (default "" v) else []) = wordsFor (requestText ps key) f.
Proof.
  unfold requestText, parseString.
  destruct (property key ps) as [[| | | s | |] |]; try discriminate; intros [= <-];
    cbn [JS.truthy default wordsFor]; [| reflexivity].
  destruct (String.eqb s ""); reflexivity.
Qed.

(** X22.  The command of a request, read off the request object: for an
    object the schema accepts, the parts of the command are the base, then
    for each key that holds a non-empty text the words of that key (the
    path as it is, the style after [--style], the patterns between double
    quotes after their options, the remote reference after [--remote]), the
    flag when [compress] holds [true], and the output option; a key that is
    absent or holds the empty text contributes nothing, and the style text
    is the very string of the request. *)
Theorem command_from_request (ps : list (string * Json)) (args : RepomixArgs)
        (tempFilePath : string) :
  RepomixArgsSchema_parse (Some (JObject ps)) = Ok args ->
  commandParts args tempFilePath
  = ["npx"; "repomix"]
    ++ wordsFor (requestText ps "path") (fun s => [s])
    ++ wordsFor (requestText ps "style") (fun s => ["--style"; s])
    ++ (if requestFlag ps "compress" then ["--compress"] else [])
    ++ wordsFor (requestText ps "include") (fun s => ["--include"; quoted s])
    ++ wordsFor (requestText ps "ignore") (fun s => ["--ignore"; quoted s])
    ++ wordsFor (requestText ps "remote") (fun s => ["--remote"; s])
    ++ ["--output"; tempFilePath].
Proof.
  intros Hparse.
  destruct (parse_fields ps args Hparse) as (Hp & Hs & Hc & Hi & Hg & Hr).
  unfold commandParts, pathPart, includePart, ignorePart, remotePart.
  rewrite (text_field ps "path" (path args) (fun s => [s]) Hp).
  rewrite (text_field ps "include" (include args) (fun s => ["--include"; quoted s]) Hi).
  rewrite (text_field ps "ignore" (ignore args) (fun s => ["--ignore"; quoted s]) Hg).
  rewrite (text_field ps "remote" (remote args) (fun s => ["--remote"; s]) Hr).
  assert (Hstyle : stylePart args
                   = wordsFor (requestText ps "style") (fun s => ["--style"; s])).
  { unfold stylePart, requestText. unfold parseStyle in Hs.
    destruct (property "style" ps) as [[| | | s | |] |]; try discriminate Hs.
    - destruct (Style_ofString s) as [st |] eqn:Hst; [| discriminate Hs].
      injection Hs as <-. apply Style_ofString_inv in Hst. subst s.
      destruct st; reflexivity.
    - injection Hs as <-. reflexivity. }
  assert (Hcompress : compressPart args
                      = if requestFlag ps "compress" then ["--compress"] else []).
  { unfold compressPart, requestFlag. unfold parseBoolean in Hc.
    destruct (property "compress" ps) as [[| b | | | |] |]; try discriminate Hc;
      injection Hc as <-; reflexivity. }
  rewrite Hstyle, Hcompress. reflexivity.
Qed.

End MoreFigures.

Lemma estimate_is_monotone_witness :
  (Num.ceil_div4 5396 <= Num.ceil_div4 5400)%N
  /\ (Num.hundredths 5396 1024 <= Num.hundredths 5400 1024)%N
  /\ (Num.hundredths 5396 (1024 * 1024) <= Num.hundredths 5400 (1024 * 1024))%N
  /\ (Num.ceil_div4 5396 = 0%N <-> 5396%N = 0%N)
  /\ (Num.ceil_div4 5396 <= 5396)%N
  /\ (Num.hundredths 5396 (1024 * 1024) <= Num.hundredths 5396 1024)%N.
Proof. apply (estimate_is_monotone 5396 5400). lia. Defined.

Lemma figures_show_two_decimals_witness :
  exists whole frac : string,
    Num.toFixed2 5396 1024 = whole +:+ "." +:+ frac
    /\ whole <> "" /\ allDigits whole = true
    /\ String.length frac = 2 /\ allDigits frac = true.
Proof. apply (figures_show_two_decimals 5396 1024). lia. Defined.

Lemma command_from_request_witness :
  commandParts globArgs scenarioTemp
  = ["npx"; "repomix"]
    ++ wordsFor (requestText [("style", JString "markdown"); ("path", JString "src");
                              ("include", JString "*.ts,*.md"); ("compress", JBool true);
                              ("ignore", JString "dist/**"); ("verbose", JBool true)]
                             "path") (fun s => [s])
    ++ ["--style"; "markdown"; "--compress"; "--include"; quoted "*.ts,*.md";
        "--ignore"; quoted "dist/**"; "--output"; scenarioTemp].
Proof.
  apply (command_from_request
           [("style", JString "markdown"); ("path", JString "src");
            ("include", JString "*.ts,*.md"); ("compress", JBool true);
            ("ignore", JString "dist/**"); ("verbose", JBool true)]
           globArgs scenarioTemp).
  reflexivity.
Defined.

(** ** Paths given relative to the working directory *)

Section WorkingDirectory.

Lemma split_ofSegments (segs : list string) :
  Forall (fun seg => Path.isName seg = true) segs ->
  JS.split Path.slash (Path.ofSegments segs)
  = "" :: (match segs with [] => [""] | _ => segs end).
Proof.
  intros Hall. unfold Path.ofSegments.
  change ("/" +:+ JS.join "/" segs) with ("" +:+ String Path.slash (JS.join "/" segs)).
  rewrite split_app_sep. cbn [JS.split app].
  destruct segs as [| x rest]; [reflexivity |].
  now rewrite split_join_names by (assumption || discriminate).
Qed.

Lemma fold_norm_step_skip (allow : bool) (l acc : list string) :
  fold_left (Path.norm_step allow) ("" :: l) acc = fold_left (Path.norm_step allow) l acc.
Proof. reflexivity. Qed.

(** The segments [normalizeString] keeps of a working directory followed
    by more segments. *)
Lemma normalize_under (segs more : list string) :
  Forall (fun seg => Path.isName seg = true) segs ->
  fold_left (Path.norm_step false)
            (JS.split Path.slash (Path.ofSegments segs) ++ more) []
  = fold_left (Path.norm_step false) more (rev segs).
Proof.
  intros Hall. rewrite split_ofSegments by assumption.
  rewrite <- app_comm_cons, fold_norm_step_skip, fold_norm_step_app.
  destruct segs as [| x rest]; [reflexivity |].
  rewrite (fold_norm_step_names false (x :: rest) []) by assumption.
  now rewrite app_nil_r.
Qed.

Lemma names_not_absolute (rest : list string) :
  Forall (fun seg => Path.isName seg = true) rest ->
  Path.isAbsolute (JS.join "/" rest) = false.
Proof.
  intros Hrest. unfold Path.isAbsolute.
  destruct rest as [| x [| y rest']]; [reflexivity | |];
    inversion Hrest as [| ? ? Hx _]; subst.
  - cbn [JS.join]. rewrite <- (append_empty_r x). now apply name_not_absolute.
  - rewrite join_cons2. now apply name_not_absolute.
Qed.

(** A relative path of names resolves to the working directory followed
    by those names. *)
Lemma resolve_relative_names (segs rest : list string) :
  Forall (fun seg => Path.isName seg = true) segs ->
  Forall (fun seg => Path.isName seg = true) rest ->
  Path.resolve (Path.ofSegments segs) (JS.join "/" rest) = Path.ofSegments (segs ++ rest).
Proof.
  intros Hsegs Hrest.
  destruct rest as [| x rest'].
  - rewrite app_nil_r. unfold Path.resolve, Path.resolveRaw.
    change (JS.join "/" []) with "". change (Path.isAbsolute "") with false.
    cbn [String.eqb].
    rewrite ofSegments_isAbsolute. cbn [negb]. unfold Path.normalizeString.
    rewrite append_empty_r, normalizeSegments_ofSegments by assumption. reflexivity.
  - set (p := JS.join "/" (x :: rest')).
    assert (Hp : String.eqb p "" = false).
    { apply String.eqb_neq. intros Hp.
      pose proof (split_join_names (x :: rest') Hrest ltac:(discriminate)) as Hs.
      fold p in Hs. rewrite Hp in Hs. cbn [JS.split] in Hs.
      injection Hs as <- _. inversion Hrest as [| ? ? Hx _]. discriminate Hx. }
    unfold Path.resolve, Path.resolveRaw.
    rewrite (names_not_absolute (x :: rest') Hrest : Path.isAbsolute p = false), Hp.
    rewrite ofSegments_isAbsolute. cbn [negb].
    unfold Path.normalizeString, Path.normalizeSegments.
    change (Path.ofSegments segs +:+ "/" +:+ p +:+ "/")
      with (Path.ofSegments segs +:+ String Path.slash (p +:+ String Path.slash "")).
    rewrite !split_app_sep. unfold p.
    rewrite split_join_names by (assumption || discriminate).
    rewrite normalize_under by assumption.
    rewrite fold_norm_step_app.
    rewrite (fold_norm_step_names false (x :: rest') (rev segs)) by assumption.
    cbn [JS.split]. rewrite fold_norm_step_skip. cbn [fold_left].
    rewrite rev_app_distr, !rev_involutive. reflexivity.
Qed.

(** The name [.] resolves to the working directory. *)
Lemma resolve_dot (segs : list string) :
  Forall (fun seg => Path.isName seg = true) segs ->
  Path.resolve (Path.ofSegments segs) "." = Path.ofSegments segs.
Proof.
  intros Hsegs. unfold Path.resolve, Path.resolveRaw.
  change (Path.isAbsolute ".") with false. change (String.eqb "." "") with false.
  cbn match.
  rewrite ofSegments_isAbsolute. cbn [negb].
  unfold Path.normalizeString, Path.normalizeSegments.
  change (Path.ofSegments segs +:+ "/" +:+ "." +:+ "/")
    with (Path.ofSegments segs +:+ String Path.slash ("." +:+ String Path.slash "")).
  rewrite !split_app_sep. rewrite normalize_under by assumption.
  change (JS.split Path.slash "." ++ JS.split Path.slash "") with ["."; ""].
  change (fold_left (Path.norm_step false) ["."; ""] (rev segs)) with (rev segs).
  now rewrite rev_involutive.
Qed.

Lemma stripPrefix_app (segs rest : list string) :
  stripPrefix segs (segs ++ rest) = Some rest.
Proof.
  induction segs as [| x segs IH]; [reflexivity |].
  cbn [app stripPrefix]. now rewrite String.eqb_refl.
Qed.

Context {World : Type}.
Variable os : forall X : Type, Eff X -> World -> X * World.
Variable locale : Num.Locale.

(** X23.  A server started in a directory serves what is under it.  Let the
    server be constructed in the working directory [segs] (so that this
    directory is the boundary), and let no symbolic link interfere: the
    resolved candidate and the boundary are their own real paths.  Then a
    relative path made of the names [rest] is allowed exactly when it is
    empty or its first name does not begin with two dots; in particular the
    working directory itself, given as [.], is allowed. *)
Theorem paths_under_working_directory (segs rest : list string) (w wdot : World) :
  Forall (fun seg => Path.isName seg = true) segs ->
  Forall (fun seg => Path.isName seg = true) rest ->
  let cwd := Path.ofSegments segs in
  let this := newRepomixMCPServer cwd in
  let target := Path.ofSegments (segs ++ rest) in
  fst (os _ (Realpath target) w) = Ok target ->
  fst (os _ (Realpath cwd) (snd (os _ (Realpath target) w))) = Ok cwd ->
  fst (os _ (Realpath cwd) wdot) = Ok cwd ->
  fst (os _ (Realpath cwd) (snd (os _ (Realpath cwd) wdot))) = Ok cwd ->
  outcome_of os (isPathAllowed this cwd (JS.join "/" rest)) w
  = Returned (match rest with
              | [] => true
              | x :: _ => negb (JS.startsWith x "..")
              end)
  /\ outcome_of os (isPathAllowed this cwd ".") wdot = Returned true.
Proof.
  intros Hsegs Hrest cwd this target H1 H2 H3 H4.
  subst cwd this target. cbn [allowedDirectory newRepomixMCPServer] in *.
  assert (Hall : Forall (fun seg => Path.isName seg = true) (segs ++ rest)).
  { apply Forall_app. now split. }
  unfold outcome_of. split.
  - rewrite run_isPathAllowed. cbn zeta. cbn [allowedDirectory newRepomixMCPServer].
    rewrite resolve_relative_names by assumption.
    rewrite H1. cbn [fst snd]. rewrite H2. cbn [fst snd].
    rewrite relative_allowed by assumption.
    unfold allowedBySegments. now rewrite stripPrefix_app.
  - rewrite run_isPathAllowed. cbn zeta. cbn [allowedDirectory newRepomixMCPServer].
    rewrite resolve_dot by assumption.
    rewrite H3. cbn [fst snd]. rewrite H4. cbn [fst snd].
    unfold Path.relative. now rewrite String.eqb_refl.
Qed.

End WorkingDirectory.

Lemma paths_under_working_directory_witness :
  outcome_of Sim.os
    (isPathAllowed (newRepomixMCPServer (Path.ofSegments ["home"; "user"; "project"]))
                   (Path.ofSegments ["home"; "user"; "project"]) (JS.join "/" ["src"]))
    (Sim.project (Sim.writes "packed") false)
  = Returned (negb (JS.startsWith "src" ".."))
  /\ outcome_of Sim.os
       (isPathAllowed (newRepomixMCPServer (Path.ofSegments ["home"; "user"; "project"]))
                      (Path.ofSegments ["home"; "user"; "project"]) ".")
       (Sim.project (Sim.writes "packed") false)
     = Returned true.
Proof.
  apply (paths_under_working_directory Sim.os ["home"; "user"; "project"] ["src"]
           (Sim.project (Sim.writes "packed") false)
           (Sim.project (Sim.writes "packed") false)).
  - repeat constructor.
  - repeat constructor.
  - vm_compute. reflexivity.
  - vm_compute. reflexivity.
  - vm_compute. reflexivity.
  - vm_compute. reflexivity.
Defined.
